(** * Backward-induction solver: shallow embedding and verified properties

    The development embeds two pieces of the repository:

    - [robupy/python/py/auxiliary.py]: [simulate_emax], [get_total_value],
      [_get_future_payoffs] and [_stabilize_myopic] (module [Robupy]);
    - [respy/interpolate.py]: [_split_interpolation_points_evenly],
      [_get_not_interpolated_indicator], [_compute_lhs_variable] and
      [_predict_with_linear_model] (module [Respy]).

    Floating-point numbers are IEEE-754 binary64 values, modelled by the
    specification floats of the standard library ([spec_float] with
    [prec = 53] and [emax = 1024]); NumPy arrays are lists, indexed with
    NumPy's rules (negative indices wrap, anything else out of range raises
    [IndexError]); Python exceptions are an explicit result type. *)

From Stdlib Require Import ZArith List Bool Lia FinFun.
From Stdlib Require Import Floats.SpecFloat.
Import ListNotations.

Local Open Scope Z_scope.

(** ** Python exceptions and the result monad *)

Module Py.

Inductive exn : Type :=
| IndexError
| KeyError
| ValueError
| NameError
| ZeroDivisionError
| StopIteration.

Inductive result (A : Type) : Type :=
| Ok (a : A)
| Raise (e : exn).

Arguments Ok {A} a.
Arguments Raise {A} e.

Definition bind {A B : Type} (m : result A) (f : A -> result B) : result B :=
  match m with
  | Ok a => f a
  | Raise e => Raise e
  end.

Definition is_ok {A : Type} (m : result A) : bool :=
  match m with Ok _ => true | Raise _ => false end.

(** [for i in range(n)], threading the loop state through the body. *)
Fixpoint for_range {S : Type} (body : Z -> S -> result S)
         (i : Z) (n : nat) (s : S) : result S :=
  match n with
  | O => Ok s
  | Datatypes.S n' => bind (body i s) (for_range body (i + 1) n')
  end.

(** [for x in xs], threading the loop state through the body. *)
Fixpoint for_each {A S : Type} (body : A -> S -> result S)
         (xs : list A) (s : S) : result S :=
  match xs with
  | [] => Ok s
  | x :: xs' => bind (body x s) (for_each body xs')
  end.

End Py.

Export Py.

Declare Scope py_scope.
Delimit Scope py_scope with py.
Notation "x <- m ;; k" := (Py.bind m (fun x => k))
  (at level 61, m at next level, right associativity) : py_scope.
Notation "' pat <- m ;; k" := (Py.bind m (fun x => match x with pat => k end))
  (at level 61, pat pattern, m at next level, right associativity) : py_scope.
Local Open Scope py_scope.

(** ** IEEE-754 binary64 *)

Module F64.

Definition prec : Z := 53.
Definition emax : Z := 1024.

Definition float : Type := spec_float.

Definition nan : float := S754_nan.
Definition zero : float := S754_zero false.
Definition infinity : float := S754_infinity false.

Definition add : float -> float -> float := SFadd prec emax.
Definition sub : float -> float -> float := SFsub prec emax.
Definition mul : float -> float -> float := SFmul prec emax.
Definition div : float -> float -> float := SFdiv prec emax.
Definition opp : float -> float := SFopp.

Definition eqb : float -> float -> bool := SFeqb.
Definition ltb : float -> float -> bool := SFltb.
Definition leb : float -> float -> bool := SFleb.
(** [x > y] and [x >= y], as Python evaluates them on floats. *)
Definition gtb (x y : float) : bool := SFltb y x.
Definition geb (x y : float) : bool := SFleb y x.

Definition is_nan (x : float) : bool :=
  match x with S754_nan => true | _ => false end.

Definition is_finite (x : float) : bool :=
  match x with
  | S754_zero _ | S754_finite _ _ _ => true
  | _ => false
  end.

Definition valid (x : float) : bool := valid_binary prec emax x.

(** Conversion of a Python [int] to a float, rounding to nearest even. *)
Definition of_Z (z : Z) : float := binary_normalize prec emax z 0 false.

End F64.

Abbreviation float := F64.float.

(** ** NumPy arrays as lists *)

Module Np.

(** Normalisation of an index against an axis of length [n]. *)
Definition index (n i : Z) : result nat :=
  if (0 <=? i) && (i <? n) then Ok (Z.to_nat i)
  else if (- n <=? i) && (i <? 0) then Ok (Z.to_nat (n + i))
  else Raise IndexError.

Definition len {A : Type} (l : list A) : Z := Z.of_nat (length l).

(** [a[i]] *)
Definition get {A : Type} (a : list A) (i : Z) : result A :=
  n <- index (len a) i ;;
  match nth_error a n with
  | Some x => Ok x
  | None => Raise IndexError
  end.

(** [a[i, j]] *)
Definition get2 {A : Type} (a : list (list A)) (i j : Z) : result A :=
  r <- get a i ;; get r j.

(** [a[i, j, k, l, m]] *)
Definition get5 {A : Type} (a : list (list (list (list (list A)))))
           (i j k l m : Z) : result A :=
  a1 <- get a i ;;
  a2 <- get a1 j ;;
  a3 <- get a2 k ;;
  a4 <- get a3 l ;;
  get a4 m.

Fixpoint set_nth {A : Type} (a : list A) (n : nat) (x : A) : list A :=
  match a, n with
  | [], _ => []
  | _ :: a', O => x :: a'
  | y :: a', S n' => y :: set_nth a' n' x
  end.

(** [a[i] = x] *)
Definition set {A : Type} (a : list A) (i : Z) (x : A) : result (list A) :=
  n <- index (len a) i ;;
  Ok (set_nth a n x).

(** [np.tile(x, n)] for a scalar [x]. *)
Definition tile {A : Type} (x : A) (n : nat) : list A := repeat x n.

(** 64-bit two's-complement wrap-around of NumPy integer scalars. *)
Definition wrap64 (z : Z) : Z :=
  (z + 2 ^ 63) mod 2 ^ 64 - 2 ^ 63.

Definition int64_add (a b : Z) : Z := wrap64 (a + b).

End Np.

(** ** Python's built-in [max] on a sequence of floats

    The first item is the running maximum; a later item replaces it only
    when [item > maximum] holds, so a NaN in first position stays and a NaN
    later on is skipped. *)

Fixpoint py_max_from (m : float) (l : list float) : float :=
  match l with
  | [] => m
  | x :: l' => py_max_from (if F64.gtb x m then x else m) l'
  end.

Definition py_max (l : list float) : result float :=
  match l with
  | [] => Raise ValueError
  | x :: l' => Ok (py_max_from x l')
  end.

(** Position of the item [py_max] returns (the alternative it selects). *)
Fixpoint py_argmax_from (im : nat) (m : float) (i : nat) (l : list float) : nat :=
  match l with
  | [] => im
  | x :: l' =>
      if F64.gtb x m then py_argmax_from i x (S i) l'
      else py_argmax_from im m (S i) l'
  end.

Definition py_argmax (l : list float) : result nat :=
  match l with
  | [] => Raise ValueError
  | x :: l' => Ok (py_argmax_from 0%nat x 1%nat l')
  end.

(** ** robupy/python/py/auxiliary.py *)

Module Robupy.

Section Auxiliary.

(** [robupy.constants.HUGE_FLOAT]: the constant is defined in
    [robupy/constants.py], which is not among the files embedded here; its
    value is left open. *)
Variable HUGE_FLOAT : float.

(** [_get_future_payoffs]

    [states_all] is indexed by (period, k, component),
    [mapping_state_idx] by (period, exp_a, exp_b, edu, edu_lagged) and
    [periods_emax] by (period, state index).  The state components are
    64-bit NumPy integers, [period] is a Python integer. *)
Definition _get_future_payoffs (edu_max edu_start : Z)
           (mapping_state_idx : list (list (list (list (list Z)))))
           (period : Z) (periods_emax : list (list float)) (k : Z)
           (states_all : list (list (list Z))) : result (list float) :=
  (* Distribute state space *)
  state <- Np.get2 states_all period k ;;
  match state with
  | [exp_a; exp_b; edu; edu_lagged] =>
      (* Future utilities *)
      let future_payoffs := Np.tile F64.nan 4 in
      (* Working in occupation A *)
      future_idx <- Np.get5 mapping_state_idx (period + 1)
                      (Np.int64_add exp_a 1) exp_b edu 0 ;;
      v <- Np.get2 periods_emax (period + 1) future_idx ;;
      future_payoffs <- Np.set future_payoffs 0 v ;;
      (* Working in occupation B *)
      future_idx <- Np.get5 mapping_state_idx (period + 1)
                      exp_a (Np.int64_add exp_b 1) edu 0 ;;
      v <- Np.get2 periods_emax (period + 1) future_idx ;;
      future_payoffs <- Np.set future_payoffs 1 v ;;
      (* Increasing schooling. Note that adding an additional year
         of schooling is only possible for those that have strictly
         less than the maximum level of additional education allowed. *)
      future_payoffs <-
        (if edu <? edu_max - edu_start then
           future_idx <- Np.get5 mapping_state_idx (period + 1)
                           exp_a exp_b (Np.int64_add edu 1) 1 ;;
           v <- Np.get2 periods_emax (period + 1) future_idx ;;
           Np.set future_payoffs 2 v
         else
           Np.set future_payoffs 2 (F64.opp HUGE_FLOAT)) ;;
      (* Staying at home *)
      future_idx <- Np.get5 mapping_state_idx (period + 1)
                      exp_a exp_b edu 0 ;;
      v <- Np.get2 periods_emax (period + 1) future_idx ;;
      future_payoffs <- Np.set future_payoffs 3 v ;;
      Ok future_payoffs
  | _ => Raise ValueError
  end.

(** [_stabilize_myopic] *)
Definition _stabilize_myopic (total_payoffs future_payoffs : list float)
  : result (list float) :=
  (* Determine NAN *)
  fp2 <- Np.get future_payoffs 2 ;;
  let is_huge := F64.eqb fp2 (F64.opp HUGE_FLOAT) in
  (* Replace with negative infinity *)
  if is_huge then Np.set total_payoffs 2 (F64.opp HUGE_FLOAT)
  else Ok total_payoffs.

(** Element-wise [payoffs_ex_post + delta * future_payoffs] on two
    arrays of one shape. *)
Definition add_scaled (delta : float)
           (payoffs_ex_post future_payoffs : list float) : list float :=
  map (fun pf => F64.add (fst pf) (F64.mul delta (snd pf)))
      (combine payoffs_ex_post future_payoffs).

(** [get_total_value] *)
Definition get_total_value (period num_periods : Z) (delta : float)
           (payoffs_systematic disturbances : list float)
           (edu_max edu_start : Z)
           (mapping_state_idx : list (list (list (list (list Z)))))
           (periods_emax : list (list float)) (k : Z)
           (states_all : list (list (list Z)))
  : result (list float * list float * list float) :=
  (* Auxiliary objects *)
  let is_myopic := F64.eqb delta F64.zero in
  (* Initialize containers *)
  let payoffs_ex_post := Np.tile F64.nan 4 in
  (* Calculate ex post payoffs *)
  payoffs_ex_post <-
    for_each (fun j acc =>
                s <- Np.get payoffs_systematic j ;;
                d <- Np.get disturbances j ;;
                Np.set acc j (F64.mul s d))
             [0; 1] payoffs_ex_post ;;
  payoffs_ex_post <-
    for_each (fun j acc =>
                s <- Np.get payoffs_systematic j ;;
                d <- Np.get disturbances j ;;
                Np.set acc j (F64.add s d))
             [2; 3] payoffs_ex_post ;;
  (* Get future values *)
  future_payoffs <-
    (if negb (period =? num_periods - 1) then
       _get_future_payoffs edu_max edu_start mapping_state_idx period
                           periods_emax k states_all
     else Ok (Np.tile F64.zero 4)) ;;
  (* Calculate total utilities *)
  let total_payoffs := add_scaled delta payoffs_ex_post future_payoffs in
  (* Special treatment in case of myopic agents *)
  total_payoffs <-
    (if is_myopic then _stabilize_myopic total_payoffs future_payoffs
     else Ok total_payoffs) ;;
  Ok (total_payoffs, payoffs_ex_post, future_payoffs).

(** [simulate_emax]

    The second and third results are the arrays of the last draw; before
    the first draw they hold the scalar [0.0], rendered here as [None]. *)
Definition simulate_emax (num_periods num_draws period k : Z)
           (eps_relevant_emax : list (list float))
           (payoffs_systematic : list float) (edu_max edu_start : Z)
           (periods_emax : list (list float))
           (states_all : list (list (list Z)))
           (mapping_state_idx : list (list (list (list (list Z)))))
           (delta : float)
  : result (float * option (list float) * option (list float)) :=
  (* Initialize containers *)
  let init := (F64.zero, @None (list float), @None (list float)) in
  (* Calculate maximum value *)
  acc <-
    for_range (fun i acc =>
                 let emax_simulated := fst (fst acc) in
                 (* Select disturbances for this draw *)
                 disturbances <- Np.get eps_relevant_emax i ;;
                 (* Get total value of admissible states *)
                 tv <- get_total_value period num_periods delta
                         payoffs_systematic disturbances edu_max edu_start
                         mapping_state_idx periods_emax k states_all ;;
                 let total_payoffs := fst (fst tv) in
                 (* Determine optimal choice *)
                 maximum <- py_max total_payoffs ;;
                 (* Recording expected future value *)
                 Ok (F64.add emax_simulated maximum,
                     Some (snd (fst tv)), Some (snd tv)))
              0 (Z.to_nat num_draws) init ;;
  (* Scaling *)
  if num_draws =? 0 then Raise ZeroDivisionError
  else
    Ok (F64.div (fst (fst acc)) (F64.of_Z num_draws),
        snd (fst acc), snd acc).

End Auxiliary.

End Robupy.

(** ** Python dictionaries (insertion ordered) with integer keys *)

Module Dict.

Definition t (V : Type) : Type := list (Z * V).

Definition keys {V : Type} (d : t V) : list Z := map fst d.
Definition values {V : Type} (d : t V) : list V := map snd d.

(** [d[k]] *)
Fixpoint get {V : Type} (d : t V) (k : Z) : result V :=
  match d with
  | [] => Raise KeyError
  | (k', v) :: d' => if k' =? k then Ok v else get d' k
  end.

(** [d[k] = v]: an existing key keeps its position, a new one goes last. *)
Fixpoint set {V : Type} (d : t V) (k : Z) (v : V) : t V :=
  match d with
  | [] => [(k, v)]
  | (k', v') :: d' =>
      if k' =? k then (k', v) :: d' else (k', v') :: set d' k v
  end.

End Dict.

(** [xs.index(x)] *)
Fixpoint list_index (xs : list Z) (x : Z) : result Z :=
  match xs with
  | [] => Raise ValueError
  | y :: xs' => if y =? x then Ok 0 else (i <- list_index xs' x ;; Ok (i + 1))
  end.

(** Python's [p / n] on two integers: true division.  The quotient of the
    two converted operands is the correctly rounded quotient as long as both
    are below [2 ^ 53] in magnitude, which state counts are. *)
Definition int_truediv (p n : Z) : result float :=
  if n =? 0 then Raise ZeroDivisionError
  else Ok (F64.div (F64.of_Z p) (F64.of_Z n)).

(** ** respy/interpolate.py *)

Module Respy.

Inductive warning : Type :=
| LowShareWarning (period : Z)
    (* "The number of interpolation points for one 'dense_index' in period
       {period} is less than 1% of its total number of states. ..." *)
| OlsNotFiniteWarning.
    (* "OLS coefficients in the interpolation are not finite." *)

Record options : Type := {
  interpolation_points : Z
}.

(** The float literal [0.01]. *)
Definition one_percent : float := F64.div (F64.of_Z 1) (F64.of_Z 100).

Section Interpolate.

(** NumPy's global random number generator.  [rng] is its state;
    [rng_seed s] is the state [np.random.seed(s)] installs;
    [rng_choice g a w] is the item (and next state) that
    [np.random.choice(a, p=w / w.sum())] draws from [a] in state [g];
    [rng_sample g n k] is the sample [np.random.choice(n, size=k,
    replace=False)] draws. *)
Variable rng : Type.
Variable rng_seed : Z -> rng.
Variable rng_choice : rng -> list Z -> list Z -> Z * rng.
Variable rng_sample : rng -> Z -> Z -> list Z * rng.

(** Numerical routines the functions of this section call.  [ols] is
    the function of that name, defined after this section from
    [np.linalg.pinv] and the dot products; here it is a parameter, so
    that what is proved of its callers holds whatever the regression
    returns.  [np_dot] is [exogenous.dot(beta)], and
    [calculate_expected_value_functions] belongs to [respy/shared.py],
    which is not among the files embedded here. *)
Variable ols : list float -> list (list float) -> result (list float).
Variable np_dot : list (list float) -> list float -> result (list float).
Variable calculate_expected_value_functions :
  list (list float) -> list (list float) -> list (list float) ->
  list (list float) -> float -> result (list float).

(** What the functions read and write besides their arguments: the
    global generator, the iterator object stored under
    [options["solution_seed_iteration"]] (the items it has yet to
    yield), and the warnings issued so far. *)
Record world : Type := {
  np_random_state : rng;
  solution_seed_iteration : list Z;
  warnings : list warning
}.

Definition M (A : Type) : Type := world -> result (A * world).

Definition ret {A : Type} (a : A) : M A := fun w => Ok (a, w).

Definition bindM {A B : Type} (m : M A) (f : A -> M B) : M B :=
  fun w => match m w with
           | Ok (a, w') => f a w'
           | Raise e => Raise e
           end.

Definition lift {A : Type} (r : result A) : M A :=
  fun w => match r with
           | Ok a => Ok (a, w)
           | Raise e => Raise e
           end.

Definition raise {A : Type} (e : exn) : M A := fun _ => Raise e.

Fixpoint for_rangeM {S : Type} (body : S -> M S) (n : nat) (s : S) : M S :=
  match n with
  | O => ret s
  | Datatypes.S n' => bindM (body s) (for_rangeM body n')
  end.

Fixpoint for_eachM {A S : Type} (body : A -> S -> M S)
         (xs : list A) (s : S) : M S :=
  match xs with
  | [] => ret s
  | x :: xs' => bindM (body x s) (for_eachM body xs')
  end.

(** [next(options["solution_seed_iteration"])] *)
Definition next_seed : M Z :=
  fun w => match solution_seed_iteration w with
           | [] => Raise StopIteration
           | s :: rest =>
               Ok (s, {| np_random_state := np_random_state w;
                         solution_seed_iteration := rest;
                         warnings := warnings w |})
           end.

(** [np.random.seed(seed)] *)
Definition np_random_seed (seed : Z) : M unit :=
  fun w => if (0 <=? seed) && (seed <? 2 ^ 32) then
             Ok (tt, {| np_random_state := rng_seed seed;
                        solution_seed_iteration := solution_seed_iteration w;
                        warnings := warnings w |})
           else Raise ValueError.

(** [np.random.choice(a, p=weights / weights.sum())]: refused when [a]
    is empty, when the weights sum to zero (the probabilities are then
    NaN) and when a probability is negative. *)
Definition np_random_choice (a : list Z) (weights : list Z) : M Z :=
  fun w =>
    if (length a =? 0)%nat then Raise ValueError
    else if fold_right Z.add 0 weights =? 0 then Raise ValueError
    else if existsb (fun x => x <? 0) weights then Raise ValueError
    else
      let '(x, g) := rng_choice (np_random_state w) a weights in
      Ok (x, {| np_random_state := g;
                solution_seed_iteration := solution_seed_iteration w;
                warnings := warnings w |}).

(** [np.random.choice(n, size=k, replace=False)] *)
Definition np_random_choice_without_replacement (n k : Z) : M (list Z) :=
  fun w =>
    if k <? 0 then Raise ValueError
    else if (n <=? 0) && negb (k =? 0) then Raise ValueError
    else if n <? k then Raise ValueError
    else
      let '(xs, g) := rng_sample (np_random_state w) n k in
      Ok (xs, {| np_random_state := g;
                 solution_seed_iteration := solution_seed_iteration w;
                 warnings := warnings w |}).

(** [warnings.warn(...)] *)
Definition warn (x : warning) : M unit :=
  fun w => Ok (tt, {| np_random_state := np_random_state w;
                      solution_seed_iteration := solution_seed_iteration w;
                      warnings := warnings w ++ [x] |}).

Local Notation "x <~ m ;; k" := (bindM m (fun x => k))
  (at level 61, m at next level, right associativity).

(** [_split_interpolation_points_evenly]

    The local variable [dense_key] of the function is bound by the
    drawing loop only; the two dictionary comprehensions have scopes of
    their own, so the loop variable of the first one does not bind it.
    It is carried as an [option]: [None] while unbound. *)
Definition _split_interpolation_points_evenly
           (dense_key_to_n_states : Dict.t Z) (period : Z) (opts : options)
  : M (Dict.t Z) :=
  (* Each `dense_index` receives at least two points. *)
  let dense_key_to_interpolation_points : Dict.t Z :=
    map (fun kn => (fst kn, if snd kn >? 2 then 2 else snd kn))
        dense_key_to_n_states in
  let interpolation_points :=
    interpolation_points opts - 2 * Np.len dense_key_to_n_states in
  (* If there are interpolation points left, distribute them. *)
  let dense_indices := Dict.keys dense_key_to_interpolation_points in
  let n_states :=
    map (fun n => Z.max (n - 2) 0) (Dict.values dense_key_to_n_states) in
  st <~ (if interpolation_points >? 0 then
           seed <~ next_seed ;;
           _ <~ np_random_seed seed ;;
           for_rangeM
             (fun st =>
                let points := fst (fst st) in
                let n_states := snd (fst st) in
                dense_key <~ np_random_choice
                               (Dict.keys dense_key_to_n_states) n_states ;;
                p <~ lift (Dict.get points dense_key) ;;
                let points := Dict.set points dense_key (p + 1) in
                pos <~ lift (list_index dense_indices dense_key) ;;
                x <~ lift (Np.get n_states pos) ;;
                n_states <~ lift (Np.set n_states pos (x - 1)) ;;
                ret (points, n_states, Some dense_key))
             (Z.to_nat interpolation_points)
             (dense_key_to_interpolation_points, n_states, None)
         else ret (dense_key_to_interpolation_points, n_states, None)) ;;
  let dense_key_to_interpolation_points := fst (fst st) in
  let dense_key := snd st in
  share_interp_points_per_dense_index <~
    for_eachM
      (fun dense_index (share : Dict.t float) =>
         match dense_key with
         | None => raise NameError
         | Some dense_key =>
             p <~ lift (Dict.get dense_key_to_interpolation_points
                                 dense_index) ;;
             n <~ lift (Dict.get dense_key_to_n_states dense_key) ;;
             v <~ lift (int_truediv p n) ;;
             ret (Dict.set share dense_key v)
         end)
      (Dict.keys dense_key_to_n_states) [] ;;
  _ <~ (if existsb (fun v => F64.ltb v one_percent)
                   (Dict.values share_interp_points_per_dense_index)
        then warn (LowShareWarning period)
        else ret tt) ;;
  ret dense_key_to_interpolation_points.

(** [np.zeros(n, dtype="bool")] *)
Definition np_zeros_bool (n : Z) : result (list bool) :=
  if n <? 0 then Raise ValueError else Ok (repeat false (Z.to_nat n)).

(** [_get_not_interpolated_indicator], for one dense partition (the
    decorator [parallelize_across_dense_dimensions] applies it partition
    by partition). *)
Definition _get_not_interpolated_indicator
           (interpolation_points n_states seed : Z) : M (list bool) :=
  _ <~ np_random_seed seed ;;
  indices <~ np_random_choice_without_replacement
               n_states interpolation_points ;;
  not_interpolated <~ lift (np_zeros_bool n_states) ;;
  lift (for_each (fun i acc => Np.set acc i true) indices not_interpolated).

(** [a[mask]] for a boolean [mask] over the first axis. *)
Definition mask_select {A : Type} (a : list A) (mask : list bool)
  : result (list A) :=
  if (length a =? length mask)%nat
  then Ok (map fst (filter snd (combine a mask)))
  else Raise IndexError.

Definition count_true (mask : list bool) : nat :=
  length (filter (fun b => b) mask).

Fixpoint mask_assign_values (a : list float) (mask : list bool)
         (vals : list float) : list float :=
  match a, mask with
  | x :: a', true :: mask' =>
      match vals with
      | v :: vals' => v :: mask_assign_values a' mask' vals'
      | [] => x :: mask_assign_values a' mask' []
      end
  | x :: a', false :: mask' => x :: mask_assign_values a' mask' vals
  | _, _ => a
  end.

(** [a[mask] = vals]: [vals] has one item per [True] of the mask, or one
    item that is broadcast. *)
Definition mask_assign (a : list float) (mask : list bool)
           (vals : list float) : result (list float) :=
  if negb (length a =? length mask)%nat then Raise IndexError
  else if (length vals =? count_true mask)%nat
       then Ok (mask_assign_values a mask vals)
       else match vals with
            | [v] => Ok (mask_assign_values a mask
                                            (repeat v (count_true mask)))
            | _ => Raise ValueError
            end.

(** Element-wise operation on two one-dimensional arrays, with NumPy's
    broadcasting of an array of length one. *)
Definition broadcast2 (f : float -> float -> float) (xs ys : list float)
  : result (list float) :=
  if (length xs =? length ys)%nat
  then Ok (map (fun xy => f (fst xy) (snd xy)) (combine xs ys))
  else match xs, ys with
       | [x], _ => Ok (map (f x) ys)
       | _, [y] => Ok (map (fun x => f x y) xs)
       | _, _ => Raise ValueError
       end.

(** [np.clip(x, 0, None)] on one item, which is [np.maximum(x, 0)]: [x]
    when it is a NaN or greater than zero, [0.0] otherwise (a [-0.0]
    becomes [0.0]). *)
Definition clip_at_zero (x : float) : float :=
  if F64.is_nan x || F64.gtb x F64.zero then x else F64.zero.

(** [_compute_lhs_variable], for one dense partition. *)
Definition _compute_lhs_variable
           (wages nonpec continuation_values : list (list float))
           (max_value_functions : list float) (not_interpolated : list bool)
           (draws : list (list float)) (delta : float)
  : result (list float) :=
  (w <- mask_select wages not_interpolated ;;
   n <- mask_select nonpec not_interpolated ;;
   c <- mask_select continuation_values not_interpolated ;;
   expected_value_functions <-
     calculate_expected_value_functions w n c draws delta ;;
   m <- mask_select max_value_functions not_interpolated ;;
   broadcast2 F64.sub expected_value_functions m)%py.

(** [_predict_with_linear_model], for one dense partition. *)
Definition _predict_with_linear_model
           (endogenous : list float) (exogenous : list (list float))
           (max_value_functions : list float) (not_interpolated : list bool)
  : M (list float) :=
  x <~ lift (mask_select exogenous not_interpolated) ;;
  beta <~ lift (ols endogenous x) ;;
  endogenous_predicted <~ lift (np_dot exogenous beta) ;;
  let endogenous_predicted := map clip_at_zero endogenous_predicted in
  predictions <~ lift (broadcast2 F64.add endogenous_predicted
                                  max_value_functions) ;;
  m <~ lift (mask_select max_value_functions not_interpolated) ;;
  values <~ lift (broadcast2 F64.add endogenous m) ;;
  predictions <~ lift (mask_assign predictions not_interpolated values) ;;
  _ <~ (if negb (forallb F64.is_finite beta)
        then warn OlsNotFiniteWarning
        else ret tt) ;;
  ret predictions.

End Interpolate.

Section Ols.

(** The NumPy routines [ols] is made of: [np.linalg.pinv],
    [a.T.dot(b)] for a two-dimensional and for a one-dimensional [b],
    and [np.dot] of a matrix and a vector.  The order in which BLAS
    accumulates the products and the pseudo-inverse LAPACK computes are
    left open. *)
Variable np_linalg_pinv : list (list float) -> result (list (list float)).
Variable np_tdot : list (list float) -> list (list float) ->
                   result (list (list float)).
Variable np_tdot_vector : list (list float) -> list float ->
                          result (list float).
Variable np_dot : list (list float) -> list float -> result (list float).

(** [ols] *)
Definition ols (y : list float) (x : list (list float))
  : result (list float) :=
  (xtx <- np_tdot x x ;;
   p <- np_linalg_pinv xtx ;;
   xty <- np_tdot_vector x y ;;
   np_dot p xty)%py.

End Ols.

End Respy.

(** ** The specification's reading of the simulator, and sample inputs *)

Module RobupySpec.

Section Spec.

Variable HUGE_FLOAT : float.

(** Lines 153-158 of [get_total_value]: the continuation values the
    function works with. *)
Definition future_values (period num_periods edu_max edu_start : Z)
           (mapping_state_idx : list (list (list (list (list Z)))))
           (periods_emax : list (list float)) (k : Z)
           (states_all : list (list (list Z))) : result (list float) :=
  if negb (period =? num_periods - 1) then
    Robupy._get_future_payoffs HUGE_FLOAT edu_max edu_start
      mapping_state_idx period periods_emax k states_all
  else Ok (Np.tile F64.zero 4).

(** The immediate payoffs: multiplicative shocks for alternatives 0 and
    1, additive shocks for alternatives 2 and 3. *)
Definition ex_post (sys shocks : list float) : list float :=
  let s j := nth j sys F64.nan in
  let e j := nth j shocks F64.nan in
  [ F64.mul (s 0%nat) (e 0%nat); F64.mul (s 1%nat) (e 1%nat);
    F64.add (s 2%nat) (e 2%nat); F64.add (s 3%nat) (e 3%nat) ].

(** Total value per alternative as the specification states it: the
    immediate payoff plus [delta * continuation_value]. *)
Definition claimed_total (delta : float) (sys shocks cont : list float)
  : list float :=
  let x j := nth j (ex_post sys shocks) F64.nan in
  let c j := nth j cont F64.nan in
  [ F64.add (x 0%nat) (F64.mul delta (c 0%nat));
    F64.add (x 1%nat) (F64.mul delta (c 1%nat));
    F64.add (x 2%nat) (F64.mul delta (c 2%nat));
    F64.add (x 3%nat) (F64.mul delta (c 3%nat)) ].

(** The same, with the sentinel put in place of the schooling total for
    a myopic agent whose schooling continuation value is the sentinel. *)
Definition stabilized_total (delta : float) (sys shocks cont : list float)
  : list float :=
  if F64.eqb delta F64.zero
     && F64.eqb (nth 2%nat cont F64.nan) (F64.opp HUGE_FLOAT)
  then Np.set_nth (claimed_total delta sys shocks cont) 2%nat
                  (F64.opp HUGE_FLOAT)
  else claimed_total delta sys shocks cont.

(** Maximum of a non-empty array, as [max] computes it. *)
Definition max_of (l : list float) : float :=
  match l with
  | [] => F64.nan
  | x :: l' => py_max_from x l'
  end.

(** Sum of the maxima, accumulated from [0.0] in draw order, divided by
    the number of draws. *)
Definition draw_average (maxima : list float) (num_draws : Z) : float :=
  F64.div (fold_left F64.add maxima F64.zero) (F64.of_Z num_draws).

End Spec.


(** A two-period model with one state per period: no experience, no
    additional schooling, and schooling already at its maximum
    ([edu_max = edu_start]). *)
Definition sample_states_all : list (list (list Z)) :=
  [ [ [0; 0; 0; 0] ]; [ [0; 0; 0; 0] ] ].

Definition sample_mapping_state_idx : list (list (list (list (list Z)))) :=
  let lag := [0; 0] in
  let edu := [lag] in
  let exp_b := [edu; edu] in
  let exp_a := [exp_b; exp_b] in
  [exp_a; exp_a].

Definition sample_periods_emax : list (list float) :=
  [ [F64.zero]; [F64.zero] ].

(** [1e20], a finite sentinel. *)
Definition sample_huge : float := F64.of_Z (10 ^ 20).

(** The discount factor [1e-18]. *)
Definition small_delta : float := F64.div (F64.of_Z 1) (F64.of_Z (10 ^ 18)).

Definition one : float := F64.of_Z 1.

End RobupySpec.

(** ** Laws of the random number generator, and sample inputs for the
    interpolation routines *)

Module RespySpec.

(** [np.random.choice(a, p=w / w.sum())] returns an item of [a] whose
    probability is positive. *)
Definition choice_law {rng : Type}
           (rng_choice : rng -> list Z -> list Z -> Z * rng) : Prop :=
  forall (g : rng) (a weights : list Z),
    length a = length weights ->
    Forall (fun x => 0 <= x) weights ->
    fold_right Z.add 0 weights <> 0 ->
    exists pos x,
      nth_error a pos = Some (fst (rng_choice g a weights))
      /\ nth_error weights pos = Some x
      /\ 0 < x.

(** [np.random.choice(n, size=k, replace=False)] returns [k] distinct
    items of [range(n)]. *)
Definition sample_law {rng : Type}
           (rng_sample : rng -> Z -> Z -> list Z * rng) : Prop :=
  forall (g : rng) (n k : Z),
    0 <= k <= n ->
    let xs := fst (rng_sample g n k) in
    Z.of_nat (length xs) = k
    /\ NoDup xs
    /\ Forall (fun x => 0 <= x < n) xs.

(** Number of anchor states before position [i]: the place of state [i]
    among the anchor states. *)
Definition rank (mask : list bool) (i : nat) : nat :=
  Respy.count_true (firstn i mask).

(** A generator without state that draws the last item of positive
    weight, and samples the first [k] items of the range. *)
Definition last_positive (a weights : list Z) : Z :=
  fold_left (fun acc kw => if 0 <? snd kw then fst kw else acc)
            (combine a weights) 0.

Definition sample_rng_seed (seed : Z) : unit := tt.

Definition sample_rng_choice (g : unit) (a weights : list Z) : Z * unit :=
  (last_positive a weights, tt).

Definition sample_rng_sample (g : unit) (n k : Z) : list Z * unit :=
  (map Z.of_nat (seq 0 (Z.to_nat k)), tt).

(** The matrix-vector product with the terms of a row accumulated from
    the left. *)
Definition inner (row beta : list float) : float :=
  fold_left F64.add (map (fun xb => F64.mul (fst xb) (snd xb))
                         (combine row beta)) F64.zero.

Definition sample_dot (x : list (list float)) (beta : list float)
  : result (list float) :=
  if forallb (fun row => (length row =? length beta)%nat) x
  then Ok (map (fun row => inner row beta) x)
  else Raise ValueError.

Definition sample_world (seeds : list Z) : Respy.world unit :=
  {| Respy.np_random_state := tt;
     Respy.solution_seed_iteration := seeds;
     Respy.warnings := [] |}.

Definition split_sample :=
  Respy._split_interpolation_points_evenly
    unit sample_rng_seed sample_rng_choice.

Definition indicator_sample :=
  Respy._get_not_interpolated_indicator
    unit sample_rng_seed sample_rng_sample.

(** [a.T.dot(b)], each item accumulated from the left. *)
Definition column {A : Type} (d : A) (a : list (list A)) (j : nat) : list A :=
  map (fun row => nth j row d) a.

Definition width {A : Type} (a : list (list A)) : nat :=
  match a with
  | [] => 0
  | row :: _ => length row
  end.

Definition sample_tdot_vector (a : list (list float)) (y : list float)
  : result (list float) :=
  if (length a =? length y)%nat
  then Ok (map (fun j => inner (column F64.nan a j) y) (seq 0 (width a)))
  else Raise ValueError.

Definition sample_tdot (a b : list (list float))
  : result (list (list float)) :=
  if (length a =? length b)%nat
  then Ok (map (fun i =>
                  map (fun j => inner (column F64.nan a i)
                                      (column F64.nan b j))
                      (seq 0 (width b)))
               (seq 0 (width a)))
  else Raise ValueError.

(** The pseudo-inverse of a matrix of one finite item: its reciprocal,
    or zero for zero. *)
Definition sample_pinv (a : list (list float))
  : result (list (list float)) :=
  match a with
  | [[c]] =>
      if F64.is_finite c
      then Ok [[if F64.eqb c F64.zero then F64.zero
                else F64.div (F64.of_Z 1) c]]
      else Raise ValueError
  | _ => Raise ValueError
  end.

Definition sample_ols :=
  Respy.ols sample_pinv sample_tdot sample_tdot_vector sample_dot.

Definition predict_sample :=
  Respy._predict_with_linear_model unit sample_ols sample_dot.

(** What a call leaves behind that later calls can observe: its value and
    the state of the generator. *)
Definition value_and_generator {rng A : Type}
           (r : result (A * Respy.world rng)) : result (A * rng) :=
  match r with
  | Ok (a, w) => Ok (a, Respy.np_random_state rng w)
  | Raise e => Raise e
  end.

(** The allocation of a partition with [n] states, [p] anchor points and
    [x] states left to draw from. *)
Definition allocated (n p x : Z) : Prop :=
  0 <= x /\ (2 < n -> p + x = n /\ 2 <= p) /\ (n <= 2 -> p = n /\ x = 0).

(** Invariant of the drawing loop of
    [_split_interpolation_points_evenly]. *)
Definition split_invariant (d : Dict.t Z) (points : Dict.t Z)
           (weights : list Z) : Prop :=
  length points = length d /\ length weights = length d /\
  forall i key n,
    nth_error d i = Some (key, n) ->
    exists p x,
      nth_error points i = Some (key, p)
      /\ nth_error weights i = Some x
      /\ allocated n p x.

(** [1e-17] *)
Definition tiny : float := F64.div (F64.of_Z 1) (F64.of_Z (10 ^ 17)).

(** Simulated expected value functions that are [v] for every
    state. *)
Definition constant_expected_value_functions (v : float)
  : list (list float) -> list (list float) -> list (list float) ->
    list (list float) -> float -> result (list float) :=
  fun w _ _ _ _ => Ok (map (fun _ => v) w).

Definition tiny_expected_value_functions :=
  constant_expected_value_functions tiny.

Definition lhs_constant (v : float) :=
  Respy._compute_lhs_variable (constant_expected_value_functions v).

Definition lhs_tiny := lhs_constant tiny.

End RespySpec.

(** ** Exceptions of the parameter routines: the ones above and
    [AssertionError] *)

Module Pyx.

Inductive error : Type :=
| Builtin (e : Py.exn)
| AssertionError.

Inductive outcome (A : Type) : Type :=
| Return (a : A)
| Throw (e : error).

Arguments Return {A} a.
Arguments Throw {A} e.

Definition bind {A B : Type} (m : outcome A) (f : A -> outcome B)
  : outcome B :=
  match m with
  | Return a => f a
  | Throw e => Throw e
  end.

(** A computation that raises the exceptions above only. *)
Definition of_result {A : Type} (r : result A) : outcome A :=
  match r with
  | Ok a => Return a
  | Raise e => Throw (Builtin e)
  end.

(** [assert (b)] *)
Definition assert (b : bool) : outcome unit :=
  if b then Return tt else Throw AssertionError.

End Pyx.

Declare Scope pyx_scope.
Delimit Scope pyx_scope with pyx.
Notation "x <- m ;; k" := (Pyx.bind m (fun x => k))
  (at level 61, m at next level, right associativity) : pyx_scope.

(** ** Slices and two-dimensional arrays *)

Module Np2.

(** [a[lo:hi]] for literal bounds [0 <= lo <= hi]: the slice is cut at
    the end of the array. *)
Definition slice {A : Type} (a : list A) (lo hi : nat) : list A :=
  firstn (hi - lo) (skipn lo a).

(** The value a slice of [n] items takes from [v]: [v] itself when it has
    [n] items, its single item repeated when it has one; any other
    length cannot be broadcast. *)
Definition broadcast_to {A : Type} (v : list A) (n : nat) : result (list A) :=
  if (length v =? n)%nat then Ok v
  else match v with
       | [x] => Ok (repeat x n)
       | _ => Raise ValueError
       end.

(** [a[lo:hi] = v] on a one-dimensional array. *)
Definition set_slice {A : Type} (a : list A) (lo hi : nat) (v : list A)
  : result (list A) :=
  let n := length (slice a lo hi) in
  vals <- broadcast_to v n ;;
  Ok (firstn lo a ++ vals ++ skipn (lo + n) a).

(** A two-dimensional float array of shape [(length rows, ncols)]. *)
Record array2 : Type := {
  ncols : nat;
  rows : list (list float)
}.

Definition well_formed (a : array2) : bool :=
  forallb (fun r => (length r =? ncols a)%nat) (rows a).

(** [np.tile(x, (n, m))] for a scalar [x]. *)
Definition tile2 (x : float) (n m : nat) : array2 :=
  {| ncols := m; rows := repeat (repeat x m) n |}.

(** [a[lo:hi, c]] for literal bounds and a literal column [c >= 0]. *)
Definition get_column_slice (a : array2) (lo hi c : nat)
  : result (list float) :=
  if (c <? ncols a)%nat
  then Ok (map (fun r => nth c r F64.nan) (slice (rows a) lo hi))
  else Raise IndexError.

(** [a[lo:hi, c] = v] *)
Definition set_column_slice (a : array2) (lo hi c : nat) (v : list float)
  : result array2 :=
  if negb (c <? ncols a)%nat then Raise IndexError
  else
    let target := slice (rows a) lo hi in
    let n := length target in
    vals <- broadcast_to v n ;;
    Ok {| ncols := ncols a;
          rows := firstn lo (rows a)
                  ++ map (fun rv => Np.set_nth (fst rv) c (snd rv))
                         (combine target vals)
                  ++ skipn (lo + n) (rows a) |}.

(** [a.T] *)
Definition transpose (a : array2) : array2 :=
  {| ncols := length (rows a);
     rows := map (fun c => map (fun r => nth c r F64.nan) (rows a))
                 (seq 0 (ncols a)) |}.

(** [np.maximum(a, b)]: [a] when it is a NaN or greater than [b], and
    [b] otherwise; so a NaN propagates, and of two equal items (the two
    zeros) the second is kept. *)
Definition maximum (a b : float) : float :=
  if F64.is_nan a || F64.gtb a b then a else b.

(** [row.max()]: the items are taken in from the left, so the last of
    several equal maxima is kept; refused on an empty row. *)
Definition max (row : list float) : result float :=
  match row with
  | [] => Raise ValueError
  | x :: row' => Ok (fold_left maximum row' x)
  end.

(** [a.max(axis=1)]: refused when the axis reduced over has length
    zero. *)
Definition max_axis1 (a : array2) : result (list float) :=
  if (ncols a =? 0)%nat then Raise ValueError
  else for_each (fun r acc => m <- max r ;; Ok (acc ++ [m])) (rows a) [].

Definition sqrt : float -> float := SFsqrt F64.prec F64.emax.

End Np2.

(** ** robupy/python/py/auxiliary.py: the optimisation parameters *)

Module RobupyParameters.

Import Pyx Np2.

Section Parameters.

Local Open Scope pyx_scope.

(** [robupy.auxiliary.check_model_parameters], which is not among the
    files embedded here: its verdict, or the exception it raises. *)
Variable check_model_parameters :
  list float -> list float -> list float -> list float ->
  array2 -> array2 -> outcome bool.

(** [np.matmul] on two arrays of shape (4, 4); the order in which BLAS
    accumulates the products is left open. *)
Variable np_matmul : array2 -> array2 -> array2.

(** [_check_optimization_parameters]

    [x] is a float array, so the first two assertions hold
    ([np.float] is the float type in the NumPy versions the module was
    written for). *)
Definition _check_optimization_parameters (x : list float) : outcome bool :=
  (* Perform checks *)
  _ <- assert (length x =? 26)%nat ;;
  _ <- assert (forallb F64.is_finite x) ;;
  (* Finishing *)
  Return true.

(** [opt_get_optim_parameters] *)
Definition opt_get_optim_parameters
           (coeffs_a coeffs_b coeffs_edu coeffs_home : list float)
           (shocks eps_cholesky : array2) (is_debug : bool)
  : outcome (list float) :=
  _ <- (if is_debug then
          ok <- check_model_parameters coeffs_a coeffs_b coeffs_edu
                  coeffs_home shocks eps_cholesky ;;
          assert ok
        else Return tt) ;;
  (* Initialize container *)
  let x := Np.tile F64.nan 26 in
  (* Occupation A *)
  x <- of_result (set_slice x 0 6 coeffs_a) ;;
  (* Occupation B *)
  x <- of_result (set_slice x 6 12 coeffs_b) ;;
  (* Education *)
  x <- of_result (set_slice x 12 15 coeffs_edu) ;;
  (* Home *)
  x <- of_result (set_slice x 15 16 coeffs_home) ;;
  (* Shocks *)
  c <- of_result (get_column_slice eps_cholesky 0 4 0) ;;
  x <- of_result (set_slice x 16 20 c) ;;
  c <- of_result (get_column_slice eps_cholesky 1 4 1) ;;
  x <- of_result (set_slice x 20 23 c) ;;
  c <- of_result (get_column_slice eps_cholesky 2 4 2) ;;
  x <- of_result (set_slice x 23 25 c) ;;
  c <- of_result (get_column_slice eps_cholesky 3 4 3) ;;
  x <- of_result (set_slice x 25 26 c) ;;
  (* Checks *)
  _ <- (if is_debug then _check_optimization_parameters x
        else Return true) ;;
  (* Finishing *)
  Return x.

(** [opt_get_model_parameters]

    [x[25]] is a scalar; assigned to a slice of one item it is that
    item. *)
Definition opt_get_model_parameters (x : list float) (is_debug : bool)
  : outcome (list float * list float * list float * list float
             * array2 * array2) :=
  (* Antibugging *)
  _ <- (if is_debug then _check_optimization_parameters x
        else Return true) ;;
  (* Occupation A *)
  let coeffs_a := slice x 0 6 in
  (* Occupation B *)
  let coeffs_b := slice x 6 12 in
  (* Education *)
  let coeffs_edu := slice x 12 15 in
  (* Home *)
  let coeffs_home := slice x 15 16 in
  (* Cholesky *)
  let eps_cholesky := tile2 F64.zero 4 4 in
  eps_cholesky <-
    of_result (set_column_slice eps_cholesky 0 4 0 (slice x 16 20)) ;;
  eps_cholesky <-
    of_result (set_column_slice eps_cholesky 1 4 1 (slice x 20 23)) ;;
  eps_cholesky <-
    of_result (set_column_slice eps_cholesky 2 4 2 (slice x 23 25)) ;;
  x25 <- of_result (Np.get x 25) ;;
  eps_cholesky <-
    of_result (set_column_slice eps_cholesky 3 4 3 [x25]) ;;
  (* Shocks *)
  let shocks := np_matmul eps_cholesky (transpose eps_cholesky) in
  _ <- (if is_debug then
          ok <- check_model_parameters coeffs_a coeffs_b coeffs_edu
                  coeffs_home shocks eps_cholesky ;;
          assert ok
        else Return tt) ;;
  (* Finishing *)
  Return (coeffs_a, coeffs_b, coeffs_edu, coeffs_home, shocks,
          eps_cholesky).

End Parameters.

End RobupyParameters.

(** ** respy/interpolate.py: the seeds, the regressors and the first
    steps of the driver *)

Module RespyDriver.

Section Driver.

Variable rng : Type.
Variable rng_seed : Z -> rng.
Variable rng_choice : rng -> list Z -> list Z -> Z * rng.

(** The type of the choice sets kept by the state space. *)
Variable choice_set : Type.

(** [calculate_value_functions_and_flow_utilities] of [respy/shared.py],
    which is not among the files embedded here. *)
Variable calculate_value_functions_and_flow_utilities :
  list (list float) -> list (list float) -> list (list float) ->
  list float -> float -> result (Np2.array2 * Np2.array2).

Local Notation "x <~ m ;; k" := (Respy.bindM rng m (fun x => k))
  (at level 61, m at next level, right associativity).

(** [_get_seeds_to_create_not_interpolate_indicator]: one item of the
    iterator [options["solution_seed_iteration"]] per dense key, in the
    order of the keys. *)
Definition _get_seeds_to_create_not_interpolate_indicator
           (dense_keys : list Z) : Respy.M rng (Dict.t Z) :=
  Respy.for_eachM rng
    (fun dense_key (seeds : Dict.t Z) =>
       seed <~ Respy.next_seed rng ;;
       Respy.ret rng (Dict.set seeds dense_key seed))
    dense_keys [].

(** [kw_94_interpolation], from the dense key conversion objects to the
    allocation of the interpolation points (lines 72 to 90).  [wages] is
    what [state_space.get_attribute_from_period("wages", period)]
    returned; the two other dictionaries are attributes of
    [state_space].  The result is the pair of the local variables [seeds]
    and [interpolation_points]. *)
Definition kw_94_interpolation_start
           (wages : Dict.t (list (list float)))
           (dense_key_to_core_indices : Dict.t (list Z))
           (dense_key_to_choice_set : Dict.t choice_set)
           (period : Z) (opts : Respy.options)
  : Respy.M rng (Dict.t Z * Dict.t Z) :=
  (* Create some dense key conversion objects. *)
  let dense_keys_in_period := Dict.keys wages in
  dense_key_to_n_states <~
    Respy.lift rng
      (for_each (fun dense_key (acc : Dict.t Z) =>
                   core_indices <-
                     Dict.get dense_key_to_core_indices dense_key ;;
                   Ok (Dict.set acc dense_key (Np.len core_indices)))
                dense_keys_in_period []) ;;
  dense_key_to_choice_set_in_period <~
    Respy.lift rng
      (for_each (fun dense_key (acc : Dict.t choice_set) =>
                   c <- Dict.get dense_key_to_choice_set dense_key ;;
                   Ok (Dict.set acc dense_key c))
                dense_keys_in_period []) ;;
  (* Start interpolation. *)
  seeds <~ _get_seeds_to_create_not_interpolate_indicator
             dense_keys_in_period ;;
  interpolation_points <~
    Respy._split_interpolation_points_evenly rng rng_seed rng_choice
      dense_key_to_n_states period opts ;;
  Respy.ret rng (seeds, interpolation_points).

(** [_compute_rhs_variables], for one dense partition.  A row of the
    result holds the differences to the maximum, their square roots and
    the constant. *)
Definition _compute_rhs_variables
           (wages nonpec continuation_values : list (list float))
           (draws : list float) (delta : float)
  : result (Np2.array2 * list float) :=
  vf <- calculate_value_functions_and_flow_utilities
          wages nonpec continuation_values draws delta ;;
  let value_functions := fst vf in
  max_value_functions <- Np2.max_axis1 value_functions ;;
  let exogenous :=
    map (fun mr => map (fun v => F64.sub (fst mr) v) (snd mr))
        (combine max_value_functions (Np2.rows value_functions)) in
  let exogenous :=
    {| Np2.ncols := Np2.ncols value_functions
                    + Np2.ncols value_functions + 1;
       Np2.rows := map (fun e => e ++ map Np2.sqrt e ++ [F64.of_Z 1])
                       exogenous |} in
  Ok (exogenous, max_value_functions).

End Driver.

End RespyDriver.

(** ** The layout of the parameter vector, and sample inputs *)

Module RobupyParametersSpec.

Import Np2.

(** Item [(i, j)] of an array. *)
Definition entry (a : array2) (i j : nat) : float :=
  nth j (nth i (rows a) []) F64.nan.

(** The columns of the lower triangle of the leading 4 x 4 block, one
    after the other. *)
Definition lower_columns (a : array2) : list float :=
  [ entry a 0 0; entry a 1 0; entry a 2 0; entry a 3 0;
    entry a 1 1; entry a 2 1; entry a 3 1;
    entry a 2 2; entry a 3 2;
    entry a 3 3 ].

(** The leading 4 x 4 block with zeros above the diagonal. *)
Definition lower_triangle (a : array2) : array2 :=
  {| ncols := 4;
     rows := map (fun i =>
                    map (fun j => if (j <=? i)%nat then entry a i j
                                  else F64.zero)
                        (seq 0 4))
                 (seq 0 4) |}.

(** A check that accepts every argument. *)
Definition accept (a b edu home : list float) (shocks chol : array2)
  : Pyx.outcome bool := Pyx.Return true.

(** The matrix product with the terms accumulated from the left. *)
Definition sample_matmul (a b : array2) : array2 :=
  {| ncols := ncols b;
     rows := map (fun r =>
                    map (fun c =>
                           fold_left F64.add
                             (map (fun xy => F64.mul (fst xy) (snd xy))
                                  (combine r c))
                             F64.zero)
                        (rows (transpose b)))
                 (rows a) |}.

Definition ints (l : list Z) : list float := map F64.of_Z l.

Definition sample_coeffs_a : list float := ints [1; 2; 3; 4; 5; 6].
Definition sample_coeffs_b : list float := ints [7; 8; 9; 10; 11; 12].
Definition sample_coeffs_edu : list float := ints [13; 14; 15].
Definition sample_coeffs_home : list float := ints [16].

(** A factor with an item above the diagonal. *)
Definition sample_cholesky : array2 :=
  {| ncols := 4;
     rows := [ ints [1; 9; 0; 0]; ints [2; 3; 0; 0];
               ints [4; 5; 6; 0]; ints [7; 8; 9; 10] ] |}.

Definition sample_shocks : array2 := tile2 F64.zero 4 4.

Definition sample_x : list float :=
  map (fun n => F64.of_Z (Z.of_nat n)) (seq 1 26).

(** The factor [opt_get_model_parameters] builds from the items 16 to
    25 of the vector. *)
Definition cholesky_of (x : list float) : array2 :=
  let v i := nth i x F64.nan in
  {| ncols := 4;
     rows := [ [v 16%nat; F64.zero; F64.zero; F64.zero];
               [v 17%nat; v 20%nat; F64.zero; F64.zero];
               [v 18%nat; v 21%nat; v 23%nat; F64.zero];
               [v 19%nat; v 22%nat; v 24%nat; v 25%nat] ] |}.

(** The items a slice holds after [v] was assigned to it: [v] itself, or
    the single item of [v] in every place. *)
Definition assigned (v s : list float) : Prop :=
  s = v \/ exists y, v = [y] /\ s = repeat y (length s).

End RobupyParametersSpec.

(** ** Quantities the properties of the interpolation routines are stated
    with, and sample inputs *)

Module RespyDriverSpec.

Definition total (l : list Z) : Z := fold_right Z.add 0 l.

(** The arguments [_get_not_interpolated_indicator] accepts. *)
Definition valid_request (p n seed : Z) : Prop :=
  0 <= p <= n /\ 0 <= seed < 2 ^ 32.

(** The world [w] with [rest] left in the seed iterator. *)
Definition after_seeds {rng : Type} (w : Respy.world rng) (rest : list Z)
  : Respy.world rng :=
  {| Respy.np_random_state := Respy.np_random_state rng w;
     Respy.solution_seed_iteration := rest;
     Respy.warnings := Respy.warnings rng w |}.

(** The number of states of each dense key. *)
Definition sizes (keys : list Z) (core : Dict.t (list Z)) : Dict.t Z :=
  map (fun k => (k, match Dict.get core k with
                    | Ok c => Np.len c
                    | Raise _ => 0
                    end)) keys.

(** The regressors of a state with value functions [row] and maximum
    [m]. *)
Definition covariates (m : float) (row : list float) : list float :=
  let e := map (F64.sub m) row in
  e ++ map Np2.sqrt e ++ [F64.of_Z 1].

(** Value functions that do not depend on the arguments. *)
Definition constant_value_functions (vf : Np2.array2)
  : list (list float) -> list (list float) -> list (list float) ->
    list float -> float -> result (Np2.array2 * Np2.array2) :=
  fun _ _ _ _ _ => Ok (vf, vf).

Definition sample_value_functions : Np2.array2 :=
  {| Np2.ncols := 2;
     Np2.rows := [ [F64.of_Z 1; F64.of_Z 5]; [F64.nan; F64.of_Z 2] ] |}.

(** Simulated expected value functions that are [1.0] for every
    state. *)
Definition unit_expected_value_functions
  : list (list float) -> list (list float) -> list (list float) ->
    list (list float) -> float -> result (list float) :=
  fun w _ _ _ _ => Ok (map (fun _ => F64.of_Z 1) w).

Definition lhs_sample :=
  Respy._compute_lhs_variable unit_expected_value_functions.

Definition seeds_sample :=
  RespyDriver._get_seeds_to_create_not_interpolate_indicator unit.

Definition kw_94_sample :=
  RespyDriver.kw_94_interpolation_start
    unit RespySpec.sample_rng_seed RespySpec.sample_rng_choice unit.

(** The regressors and maxima of [sample_value_functions]. *)
Definition sample_exogenous : Np2.array2 :=
  {| Np2.ncols := 5;
     Np2.rows :=
       [ [F64.of_Z 4; F64.of_Z 0; F64.of_Z 2; F64.of_Z 0; F64.of_Z 1];
         [F64.nan; F64.nan; F64.nan; F64.nan; F64.of_Z 1] ] |}.

Definition sample_maxima : list float := [F64.of_Z 5; F64.nan].

Definition rhs_sample :=
  RespyDriver._compute_rhs_variables
    (constant_value_functions sample_value_functions).

End RespyDriverSpec.

(** ** The order of binary64 numbers *)

Module F64Order.

(** Position of a float on the extended line, [None] for a NaN; the
    positions are compared lexicographically. *)
Definition key (x : float) : option (Z * Z * Z) :=
  match x with
  | S754_nan => None
  | S754_infinity true => Some (-2, 0, 0)
  | S754_finite true m e => Some (-1, - e, - Z.pos m)
  | S754_zero _ => Some (0, 0, 0)
  | S754_finite false m e => Some (1, e, Z.pos m)
  | S754_infinity false => Some (2, 0, 0)
  end.

Definition lexle (a b : Z * Z * Z) : Prop :=
  fst (fst a) < fst (fst b)
  \/ fst (fst a) = fst (fst b)
     /\ (snd (fst a) < snd (fst b)
         \/ snd (fst a) = snd (fst b) /\ snd a <= snd b).

(** [0.0 <= x]: [x] is a zero, a positive number or [inf]. *)
Definition nonneg (x : float) : Prop := F64.leb F64.zero x = true.

End F64Order.

(** * Properties *)

(** ** Facts about the result monad and array indexing *)

Module PyFacts.

Lemma bind_ok {A B : Type} (m : result A) (f : A -> result B) (b : B) :
  Py.bind m f = Ok b -> exists a, m = Ok a /\ f a = Ok b.
Proof.
  destruct m as [a|e]; simpl; intros H; [exists a; auto | discriminate].
Qed.

Lemma index_ok (n i : Z) (p : nat) :
  Np.index n i = Ok p -> (p < Z.to_nat n)%nat.
Proof.
  unfold Np.index.
  destruct ((0 <=? i) && (i <? n)) eqn:E1.
  - intros [= <-]. apply andb_prop in E1 as [H1 H2]. lia.
  - destruct ((- n <=? i) && (i <? 0)) eqn:E2; [|discriminate].
    intros [= <-]. apply andb_prop in E2 as [H1 H2]. lia.
Qed.

Lemma index_nonneg (n i : Z) :
  0 <= i < n -> Np.index n i = Ok (Z.to_nat i).
Proof.
  intros H. unfold Np.index.
  replace ((0 <=? i) && (i <? n)) with true; [reflexivity|].
  symmetry. apply andb_true_intro. split; lia.
Qed.

Lemma set_nth_length {A : Type} (a : list A) (n : nat) (x : A) :
  length (Np.set_nth a n x) = length a.
Proof.
  revert n; induction a as [|y a IH]; intros [|n]; simpl; auto.
Qed.

Lemma nth_error_set_nth_same {A : Type} (a : list A) (n : nat) (x : A) :
  (n < length a)%nat -> nth_error (Np.set_nth a n x) n = Some x.
Proof.
  revert n; induction a as [|y a IH]; intros [|n]; simpl; intros H;
    try lia; auto. apply IH. lia.
Qed.

Lemma nth_error_set_nth_other {A : Type} (a : list A) (n p : nat) (x : A) :
  n <> p -> nth_error (Np.set_nth a n x) p = nth_error a p.
Proof.
  revert n p; induction a as [|y a IH]; intros [|n] [|p]; simpl; intros H;
    auto; try congruence.
Qed.

Lemma set_length {A : Type} (a a' : list A) (i : Z) (x : A) :
  Np.set a i x = Ok a' -> length a' = length a.
Proof.
  unfold Np.set. intros H. apply bind_ok in H as (n & _ & [= <-]).
  apply set_nth_length.
Qed.

Lemma get_set_same {A : Type} (a a' : list A) (i : Z) (x : A) :
  Np.set a i x = Ok a' -> Np.get a' i = Ok x.
Proof.
  unfold Np.set, Np.get, Np.len. intros H.
  apply bind_ok in H as (n & Hn & [= <-]).
  rewrite set_nth_length, Hn. simpl.
  apply index_ok in Hn. rewrite nth_error_set_nth_same; [reflexivity|lia].
Qed.

Lemma get_nonneg {A : Type} (a : list A) (i : nat) (x : A) :
  nth_error a i = Some x -> Np.get a (Z.of_nat i) = Ok x.
Proof.
  intros H. unfold Np.get, Np.len.
  rewrite index_nonneg.
  - simpl. now rewrite Nat2Z.id, H.
  - assert (i < length a)%nat by (apply nth_error_Some; congruence). lia.
Qed.

Lemma get_inv {A : Type} (a : list A) (i : Z) (x : A) :
  Np.get a i = Ok x ->
  exists n, Np.index (Np.len a) i = Ok n /\ nth_error a n = Some x.
Proof.
  unfold Np.get. intros H. apply bind_ok in H as (n & Hn & H).
  exists n. split; [assumption|].
  destruct (nth_error a n); congruence.
Qed.

End PyFacts.

(** ** Facts about binary64 arithmetic

    Addition rounds the exact sum to the nearest representable value; the
    lemmas below establish the one consequence needed further on: adding a
    value that is not negative never yields a result below the other
    operand. *)

Module F64Facts.

(** *** Powers of two and numbers of digits *)

Lemma pow2_pos (n : Z) : 0 <= n -> 0 < 2 ^ n.
Proof. intros H. apply Z.pow_pos_nonneg; lia. Qed.

Lemma pow2_succ (n : Z) : 0 <= n -> 2 ^ (n + 1) = 2 * 2 ^ n.
Proof. intros H. rewrite Z.pow_add_r by lia. change (2 ^ 1) with 2. lia. Qed.

Lemma pow2_le (a b : Z) : a <= b -> 2 ^ a <= 2 ^ b.
Proof. intros H. apply Z.pow_le_mono_r; lia. Qed.

Lemma pow2_lt (a b : Z) : 0 <= b -> a < b -> 2 ^ a < 2 ^ b.
Proof. intros H1 H2. apply Z.pow_lt_mono_r; lia. Qed.

Lemma digits2_pos_bounds (m : positive) :
  2 ^ (Zpos (digits2_pos m) - 1) <= Zpos m < 2 ^ Zpos (digits2_pos m).
Proof.
  induction m as [m IH|m IH|]; cbn [digits2_pos].
  - rewrite Pos2Z.inj_succ.
    replace (Z.succ (Zpos (digits2_pos m)) - 1) with (Zpos (digits2_pos m) - 1 + 1)
      by lia.
    replace (Z.succ (Zpos (digits2_pos m))) with (Zpos (digits2_pos m) + 1) by lia.
    rewrite !pow2_succ by lia. lia.
  - rewrite Pos2Z.inj_succ.
    replace (Z.succ (Zpos (digits2_pos m)) - 1) with (Zpos (digits2_pos m) - 1 + 1)
      by lia.
    replace (Z.succ (Zpos (digits2_pos m))) with (Zpos (digits2_pos m) + 1) by lia.
    rewrite !pow2_succ by lia. lia.
  - change (2 ^ (1 - 1)) with 1. change (2 ^ 1) with 2. lia.
Qed.

Lemma Zdigits2_bounds (x : Z) :
  0 < x -> 2 ^ (Zdigits2 x - 1) <= x < 2 ^ Zdigits2 x.
Proof.
  destruct x as [|m|m]; try lia. intros _. apply digits2_pos_bounds.
Qed.

Lemma Zdigits2_pos (x : Z) : 0 < x -> 0 < Zdigits2 x.
Proof. destruct x; simpl; lia. Qed.

(** The number of digits is determined by the bounds. *)
Lemma Zdigits2_unique (x d : Z) :
  0 < x -> 2 ^ (d - 1) <= x < 2 ^ d -> Zdigits2 x = d.
Proof.
  intros Hx [Hl Hu].
  pose proof (Zdigits2_bounds x Hx) as [Hl' Hu'].
  pose proof (Zdigits2_pos x Hx) as Hd.
  assert (0 < d).
  { destruct (Z_lt_le_dec 0 d) as [?|Hd0]; [assumption|].
    assert (2 ^ d <= 2 ^ 0) by (apply pow2_le; lia).
    change (2 ^ 0) with 1 in *. lia. }
  destruct (Z.lt_trichotomy (Zdigits2 x) d) as [Hlt|[Heq|Hgt]]; [|exact Heq|].
  - assert (2 ^ Zdigits2 x <= 2 ^ (d - 1)) by (apply pow2_le; lia). lia.
  - assert (2 ^ d <= 2 ^ (Zdigits2 x - 1)) by (apply pow2_le; lia). lia.
Qed.

Lemma iter_xO (m d : positive) :
  Zpos (Pos.iter xO m d) = Zpos m * 2 ^ Zpos d.
Proof.
  induction d as [|d IH] using Pos.peano_ind.
  - cbn [Pos.iter]. rewrite Pos2Z.inj_xO. change (2 ^ 1) with 2. lia.
  - rewrite Pos.iter_succ, Pos2Z.inj_succ, Pos2Z.inj_xO, IH.
    replace (Z.succ (Zpos d)) with (Zpos d + 1) by lia.
    rewrite pow2_succ by lia. lia.
Qed.

(** *** Shifting to the right *)

Lemma iter_pos_invariant {A : Type} (f : A -> A) (P : Z -> A -> Prop) :
  (forall k x, 0 <= k -> P k x -> P (k + 1) (f x)) ->
  forall p k x, 0 <= k -> P k x -> P (k + Zpos p) (iter_pos f p x).
Proof.
  intros Hstep. induction p as [p IH|p IH|]; intros k x Hk HP; cbn [iter_pos].
  - replace (k + Zpos p~1) with (k + 1 + Zpos p + Zpos p) by lia.
    apply IH; [lia|]. apply IH; [lia|]. now apply Hstep.
  - replace (k + Zpos p~0) with (k + Zpos p + Zpos p) by lia.
    apply IH; [lia|]. now apply IH.
  - now apply Hstep.
Qed.

Lemma shr_1_spec (mrs : shr_record) :
  0 <= shr_m mrs ->
  shr_m (shr_1 mrs) = shr_m mrs / 2
  /\ (shr_r mrs = false -> shr_s mrs = false -> shr_m mrs mod 2 = 0 ->
      shr_r (shr_1 mrs) = false /\ shr_s (shr_1 mrs) = false).
Proof.
  destruct mrs as [m r s]. cbn [shr_m shr_r shr_s]. intros Hm.
  destruct m as [|[p|p|]|p]; try lia; cbn [shr_1 shr_m shr_r shr_s].
  - split; [reflexivity|]. intros -> ->. auto.
  - split.
    + rewrite Pos2Z.inj_xI. apply (Z.div_unique _ _ _ 1); lia.
    + intros _ _ H. rewrite Pos2Z.inj_xI in H.
      replace (2 * Zpos p + 1) with (1 + Zpos p * 2) in H by lia.
      rewrite Z.mod_add in H by lia. discriminate.
  - split.
    + rewrite Pos2Z.inj_xO. apply (Z.div_unique _ _ _ 0); lia.
    + intros -> -> _. auto.
  - split; [reflexivity|]. intros _ _ H. discriminate.
Qed.

(** Shifting [n] digits out divides by [2 ^ n]; nothing is recorded as
    lost when the division is exact. *)
Lemma shr_spec (m e n : Z) :
  0 <= m -> 0 <= n ->
  let '(mrs, e') := shr (shr_record_of_loc m loc_Exact) e n in
  e' = e + n
  /\ shr_m mrs = m / 2 ^ n
  /\ (m mod 2 ^ n = 0 -> loc_of_shr_record mrs = loc_Exact).
Proof.
  intros Hm Hn. unfold shr. destruct n as [|p|p]; try lia.
  - cbn [shr_record_of_loc]. change (2 ^ 0) with 1.
    rewrite Z.div_1_r. repeat split; lia.
  - pose proof
         (iter_pos_invariant shr_1
            (fun k mrs =>
               shr_m mrs = m / 2 ^ k
               /\ (m mod 2 ^ k = 0 -> shr_r mrs = false /\ shr_s mrs = false)))
      as Hinv.
    cbv beta in Hinv.
    specialize (Hinv) with (p := p) (k := 0)
                           (x := shr_record_of_loc m loc_Exact).
    rewrite Z.add_0_l in Hinv.
    destruct Hinv as [Hq Hloc].
    + intros k x Hk [Hx Hflags].
      assert (Hpow : 0 < 2 ^ k) by (apply pow2_pos; lia).
      assert (Hxm : 0 <= shr_m x).
      { rewrite Hx. apply Z.div_pos; lia. }
      destruct (shr_1_spec x Hxm) as [Hdiv Hkeep].
      split.
      * rewrite Hdiv, Hx, pow2_succ by lia.
        rewrite Z.div_div by lia. f_equal. lia.
      * intros Hmod. rewrite pow2_succ in Hmod by lia.
        rewrite (Z.mul_comm 2), Z.rem_mul_r in Hmod by lia.
        assert (0 <= m mod 2 ^ k < 2 ^ k) by (apply Z.mod_pos_bound; lia).
        assert (0 <= (m / 2 ^ k) mod 2 < 2) by (apply Z.mod_pos_bound; lia).
        assert (Hm0 : m mod 2 ^ k = 0) by nia.
        destruct (Hflags Hm0) as [Hr Hs].
        apply Hkeep; [exact Hr | exact Hs |]. rewrite Hx. nia.
    + lia.
    + cbn [shr_record_of_loc shr_m shr_r shr_s]. change (2 ^ 0) with 1.
      rewrite Z.div_1_r. auto.
    + repeat split; [exact Hq|].
      intros Hmod. destruct (Hloc Hmod) as [Hr Hs].
      destruct (iter_pos shr_1 p (shr_record_of_loc m loc_Exact)) as [m' r s].
      cbn [shr_r shr_s] in Hr, Hs. subst. reflexivity.
Qed.

Lemma round_nearest_even_bounds (q : Z) (l : location) :
  q <= round_nearest_even q l <= q + 1
  /\ (l = loc_Exact -> round_nearest_even q l = q).
Proof.
  destruct l as [|[| |]]; cbn [round_nearest_even];
    try destruct (Z.even q); split; try lia; try reflexivity;
    intros H; discriminate.
Qed.

(** *** Rounding *)

Lemma fexp_eq (e : Z) : fexp F64.prec F64.emax e = Z.max (e - 53) (-1074).
Proof. reflexivity. Qed.

(** A mantissa and an exponent in canonical form. *)
Lemma canonical_iff (m e : Z) :
  0 < m ->
  fexp F64.prec F64.emax (Zdigits2 m + e) = e <->
  -1074 <= e /\ Zdigits2 m <= 53 /\ (Zdigits2 m = 53 \/ e = -1074).
Proof. intros Hm. rewrite fexp_eq. lia. Qed.

Lemma Zdigits2_pow2_53 : Zdigits2 (2 ^ 53) = 54.
Proof. reflexivity. Qed.

Lemma Zdigits2_pow2_52 : Zdigits2 (2 ^ 52) = 53.
Proof. reflexivity. Qed.

(** Rounding [x * 2 ^ ez] to the exponent [e1] the format assigns to it:
    the mantissa [x / 2 ^ (e1 - ez)] is kept or incremented, and kept when
    the division is exact; the result is zero or in canonical form. *)
Lemma binary_round_aux_spec (s : bool) (x ez : Z) :
  0 < x ->
  let e1 := fexp F64.prec F64.emax (Zdigits2 x + ez) in
  let n := e1 - ez in
  let q := x / 2 ^ n in
  0 <= n ->
  (-1074 < e1 -> 2 ^ 52 <= q)
  /\ exists q',
      q <= q' <= q + 1
      /\ (x mod 2 ^ n = 0 -> q' = q)
      /\ ((q' = 0
           /\ binary_round_aux F64.prec F64.emax s x ez loc_Exact = S754_zero s)
          \/ exists m' e',
              e1 <= e'
              /\ fexp F64.prec F64.emax (Zdigits2 (Zpos m') + e') = e'
              /\ Zpos m' * 2 ^ (e' - e1) = q'
              /\ binary_round_aux F64.prec F64.emax s x ez loc_Exact
                 = if e' <=? F64.emax - F64.prec
                   then S754_finite s m' e' else S754_infinity s).
Proof.
  intros Hx e1 n q Hn.
  pose proof (Zdigits2_bounds x Hx) as [Hdl Hdu].
  pose proof (Zdigits2_pos x Hx) as Hd.
  assert (He1 : e1 = Z.max (Zdigits2 x + ez - 53) (-1074))
    by (unfold e1; apply fexp_eq).
  assert (Hpn : 0 < 2 ^ n) by (apply pow2_pos; lia).
  assert (Hq0 : 0 <= q) by (apply Z.div_pos; lia).
  assert (Hq53 : q < 2 ^ 53).
  { apply Z.div_lt_upper_bound; [lia|].
    rewrite <- Z.pow_add_r by lia.
    eapply Z.lt_le_trans; [exact Hdu|]. apply pow2_le. lia. }
  assert (Hq52 : -1074 < e1 -> 2 ^ 52 <= q).
  { intros Hnorm. apply Z.div_le_lower_bound; [lia|].
    rewrite <- Z.pow_add_r by lia.
    eapply Z.le_trans; [|exact Hdl]. apply pow2_le. lia. }
  split; [exact Hq52|].
  unfold binary_round_aux, shr_fexp. fold e1. fold n.
  pose proof (shr_spec x ez n (Z.lt_le_incl _ _ Hx) Hn) as H1.
  destruct (shr (shr_record_of_loc x loc_Exact) ez n) as [mrs e'].
  destruct H1 as (-> & Hm & Hexact).
  replace (ez + n) with e1 by (unfold n; lia).
  fold q in Hm. rewrite Hm.
  destruct (round_nearest_even_bounds q (loc_of_shr_record mrs))
    as [Hb Hkeep].
  set (q' := round_nearest_even q (loc_of_shr_record mrs)) in *.
  exists q'. split; [exact Hb|]. split.
  { intros Hmod. apply Hkeep, Hexact, Hmod. }
  destruct (Z.eq_dec q' 0) as [Hz|Hnz].
  - left. split; [exact Hz|]. rewrite Hz. cbn [Zdigits2].
    rewrite Z.add_0_l, fexp_eq.
    assert (Hle : Z.max (e1 - 53) (-1074) - e1 <= 0) by lia.
    unfold shr.
    destruct (Z.max (e1 - 53) (-1074) - e1) as [|p|p]; try lia; reflexivity.
  - right.
    assert (Hq' : 0 < q') by lia.
    pose proof (Zdigits2_bounds q' Hq') as [Hql Hqu].
    pose proof (Zdigits2_pos q' Hq') as Hdq.
    destruct (Z_lt_le_dec q' (2 ^ 53)) as [Hlt|Hge].
    + (* no carry into a 54th digit *)
      assert (Hdq53 : Zdigits2 q' <= 53).
      { destruct (Z_lt_le_dec 53 (Zdigits2 q')) as [Hgt|Hle]; [|exact Hle].
        assert (2 ^ 53 <= 2 ^ (Zdigits2 q' - 1)) by (apply pow2_le; lia).
        lia. }
      assert (Hdq52 : -1074 < e1 -> Zdigits2 q' = 53).
      { intros Hnorm. specialize (Hq52 Hnorm).
        destruct (Z_lt_le_dec (Zdigits2 q') 53) as [Hlt'|Hge']; [|lia].
        assert (2 ^ Zdigits2 q' <= 2 ^ 52) by (apply pow2_le; lia).
        lia. }
      assert (Hn2 : fexp F64.prec F64.emax (Zdigits2 q' + e1) - e1 = 0).
      { rewrite fexp_eq. lia. }
      rewrite Hn2. cbn [shr shr_record_of_loc shr_m].
      destruct q' as [|m'|m'] eqn:Eq'; try lia.
      exists m', e1. split; [lia|]. split; [lia|]. split.
      * rewrite Z.sub_diag. change (2 ^ 0) with 1. lia.
      * reflexivity.
    + (* the increment carried: the mantissa is [2 ^ 53] *)
      assert (Hq'eq : q' = 2 ^ 53) by lia.
      rewrite Hq'eq, Zdigits2_pow2_53.
      assert (He1' : -1074 <= e1) by lia.
      assert (Hn2 : fexp F64.prec F64.emax (54 + e1) - e1 = 1).
      { rewrite fexp_eq. lia. }
      rewrite Hn2.
      exists (4503599627370496)%positive, (e1 + 1). split; [lia|]. split.
      * change (Zdigits2 (Zpos 4503599627370496)) with 53.
        rewrite fexp_eq. lia.
      * split.
        -- replace (e1 + 1 - e1) with 1 by lia. reflexivity.
        -- reflexivity.
Qed.

(** Canonical forms are ordered like the values they stand for. *)
Lemma canonical_order (m1 e1 m2 e2 b : Z) :
  0 < m1 -> 0 < m2 ->
  fexp F64.prec F64.emax (Zdigits2 m1 + e1) = e1 ->
  fexp F64.prec F64.emax (Zdigits2 m2 + e2) = e2 ->
  b <= e1 -> b <= e2 ->
  m1 * 2 ^ (e1 - b) <= m2 * 2 ^ (e2 - b) ->
  e1 < e2 \/ (e1 = e2 /\ m1 <= m2).
Proof.
  intros H1 H2 C1 C2 B1 B2 Hle.
  apply canonical_iff in C1; [|exact H1].
  apply canonical_iff in C2; [|exact H2].
  destruct (Z.lt_trichotomy e1 e2) as [Hlt|[Heq|Hgt]].
  - left. exact Hlt.
  - right. split; [exact Heq|]. subst e2.
    assert (0 < 2 ^ (e1 - b)) by (apply pow2_pos; lia). nia.
  - exfalso.
    assert (Hd1 : Zdigits2 m1 = 53) by lia.
    pose proof (Zdigits2_bounds m1 H1) as [Hl1 _].
    pose proof (Zdigits2_bounds m2 H2) as [_ Hu2].
    rewrite Hd1 in Hl1. change (2 ^ (53 - 1)) with 4503599627370496 in Hl1.
    assert (Hm2 : m2 < 9007199254740992).
    { eapply Z.lt_le_trans; [exact Hu2|].
      change 9007199254740992 with (2 ^ 53). apply pow2_le. lia. }
    assert (HP : 0 < 2 ^ (e2 - b)) by (apply pow2_pos; lia).
    assert (HQ : 2 * 2 ^ (e2 - b) <= 2 ^ (e1 - b)).
    { rewrite <- pow2_succ by lia. apply pow2_le. lia. }
    nia.
Qed.

(** [binary_round] first aligns the mantissa, without changing the value. *)
Lemma binary_round_spec (s : bool) (mx : positive) (ex : Z) :
  let e1 := fexp F64.prec F64.emax (Zpos (digits2_pos mx) + ex) in
  exists x ez,
    binary_round F64.prec F64.emax s mx ex
    = binary_round_aux F64.prec F64.emax s x ez loc_Exact
    /\ 0 < x /\ ez <= ex /\ ez <= e1
    /\ fexp F64.prec F64.emax (Zdigits2 x + ez) = e1
    /\ x = Zpos mx * 2 ^ (ex - ez).
Proof.
  intros e1. unfold binary_round, shl_align. fold e1.
  destruct (e1 - ex) as [|p|p] eqn:E.
  - exists (Zpos mx), ex. cbn [Zdigits2]. fold e1.
    rewrite Z.sub_diag. change (2 ^ 0) with 1.
    repeat split; try lia.
  - exists (Zpos mx), ex. cbn [Zdigits2]. fold e1.
    rewrite Z.sub_diag. change (2 ^ 0) with 1.
    repeat split; try lia.
  - exists (Zpos (Pos.iter xO mx p)), e1.
    assert (Hp : ex - e1 = Zpos p) by lia.
    rewrite Hp.
    pose proof (iter_xO mx p) as Hx.
    pose proof (digits2_pos_bounds mx) as [Hl Hu].
    assert (Hpp : 0 < 2 ^ Zpos p) by (apply pow2_pos; lia).
    assert (Hd : Zdigits2 (Zpos mx * 2 ^ Zpos p) = Zpos (digits2_pos mx) + Zpos p).
    { apply Zdigits2_unique; [nia|].
      replace (Zpos (digits2_pos mx) + Zpos p - 1)
        with (Zpos (digits2_pos mx) - 1 + Zpos p) by lia.
      rewrite !Z.pow_add_r by lia. nia. }
    rewrite <- Hx in Hd.
    split; [reflexivity|]. split; [lia|]. split; [lia|]. split; [lia|].
    split; [|exact Hx].
    rewrite Hd. unfold e1. f_equal. lia.
Qed.

(** Rounding is bounded below by every representable value that the
    exact value reaches. *)
Lemma round_lower (s : bool) (mx : positive) (b : Z) (mm : positive) (em : Z) :
  fexp F64.prec F64.emax (Zdigits2 (Zpos mm) + em) = em ->
  b <= em ->
  Zpos mm * 2 ^ (em - b) <= Zpos mx ->
  binary_round F64.prec F64.emax s mx b = S754_infinity s
  \/ exists m' e',
      binary_round F64.prec F64.emax s mx b = S754_finite s m' e'
      /\ (em < e' \/ (em = e' /\ Zpos mm <= Zpos m')).
Proof.
  intros Hcm Hb Hle.
  destruct (binary_round_spec s mx b) as (x & ez & -> & Hx & Hez & Hez1 & Hcan & Hxeq).
  set (e1 := fexp F64.prec F64.emax (Zpos (digits2_pos mx) + b)) in *.
  pose proof (binary_round_aux_spec s x ez Hx) as H. cbv zeta in H.
  rewrite Hcan in H.
  destruct H as (Hq52 & q' & Hq' & _ & Hres); [lia|].
  set (n := e1 - ez) in *. set (q := x / 2 ^ n) in *.
  pose proof Hcm as Hcm'. apply canonical_iff in Hcm'; [|lia].
  assert (Hpn : 0 < 2 ^ n) by (apply pow2_pos; lia).
  assert (Hmx : Zpos mm * 2 ^ (em - ez) <= x).
  { replace (em - ez) with (em - b + (b - ez)) by lia.
    rewrite Z.pow_add_r by lia.
    assert (0 < 2 ^ (b - ez)) by (apply pow2_pos; lia). nia. }
  assert (Hpos : 0 < q' /\ (e1 <= em -> Zpos mm * 2 ^ (em - e1) <= q')).
  { destruct (Z_le_gt_dec e1 em) as [Hcase|Hcase].
    - assert (Hw : Zpos mm * 2 ^ (em - e1) <= q).
      { apply Z.div_le_lower_bound; [lia|].
        replace (em - ez) with (em - e1 + n) in Hmx by (unfold n; lia).
        rewrite Z.pow_add_r in Hmx by lia. lia. }
      assert (0 < 2 ^ (em - e1)) by (apply pow2_pos; lia).
      split; [nia | lia].
    - assert (2 ^ 52 <= q) by (apply Hq52; lia).
      change (2 ^ 52) with 4503599627370496 in *. split; lia. }
  destruct Hpos as [Hq'pos Hw].
  destruct Hres as [[Hz _]|(m' & e' & He' & Hc' & Hval & ->)]; [lia|].
  assert (Hord : em < e' \/ (em = e' /\ Zpos mm <= Zpos m')).
  { destruct (Z_le_gt_dec e1 em) as [Hcase|Hcase]; [|lia].
    specialize (Hw Hcase). rewrite <- Hval in Hw.
    apply (canonical_order (Zpos mm) em (Zpos m') e' e1);
      solve [lia | assumption]. }
  destruct (e' <=? F64.emax - F64.prec); [right; eauto | left; reflexivity].
Qed.

(** Rounding is bounded above by every representable value that the exact
    value does not exceed. *)
Lemma round_upper (s : bool) (mx : positive) (b : Z) (mm : positive) (em : Z) :
  fexp F64.prec F64.emax (Zdigits2 (Zpos mm) + em) = em ->
  em <= F64.emax - F64.prec ->
  b <= em ->
  Zpos mx <= Zpos mm * 2 ^ (em - b) ->
  binary_round F64.prec F64.emax s mx b = S754_zero s
  \/ exists m' e',
      binary_round F64.prec F64.emax s mx b = S754_finite s m' e'
      /\ (e' < em \/ (e' = em /\ Zpos m' <= Zpos mm)).
Proof.
  intros Hcm Hmax Hb Hle.
  destruct (binary_round_spec s mx b) as (x & ez & -> & Hx & Hez & Hez1 & Hcan & Hxeq).
  set (e1 := fexp F64.prec F64.emax (Zpos (digits2_pos mx) + b)) in *.
  pose proof (binary_round_aux_spec s x ez Hx) as H. cbv zeta in H.
  rewrite Hcan in H.
  destruct H as (Hq52 & q' & Hq' & Hkeep & Hres); [lia|].
  set (n := e1 - ez) in *. set (q := x / 2 ^ n) in *.
  pose proof Hcm as Hcm'. apply canonical_iff in Hcm'; [|lia].
  assert (Hpn : 0 < 2 ^ n) by (apply pow2_pos; lia).
  assert (Hmx : x <= Zpos mm * 2 ^ (em - ez)).
  { replace (em - ez) with (em - b + (b - ez)) by lia.
    rewrite Z.pow_add_r by lia.
    assert (0 < 2 ^ (b - ez)) by (apply pow2_pos; lia). nia. }
  pose proof (Zdigits2_bounds (Zpos mm) ltac:(lia)) as [_ Hmu].
  assert (Hm53 : Zpos mm < 2 ^ 53).
  { eapply Z.lt_le_trans; [exact Hmu|]. apply pow2_le. lia. }
  assert (Hdiv : 2 ^ n * q <= x) by (apply Z.mul_div_le; lia).
  assert (Hcase : e1 <= em).
  { destruct (Z_le_gt_dec e1 em) as [Hc|Hc]; [exact Hc|]. exfalso.
    assert (Hq : 2 ^ 52 <= q) by (apply Hq52; lia).
    assert (Hpw : 2 * 2 ^ (em - ez) <= 2 ^ n).
    { rewrite <- pow2_succ by lia. apply pow2_le. unfold n. lia. }
    assert (0 < 2 ^ (em - ez)) by (apply pow2_pos; lia).
    change (2 ^ 52) with 4503599627370496 in Hq.
    change (2 ^ 53) with 9007199254740992 in Hm53. nia. }
  assert (Hw : q' <= Zpos mm * 2 ^ (em - e1)).
  { replace (em - ez) with (em - e1 + n) in Hmx by (unfold n; lia).
    rewrite Z.pow_add_r in Hmx by lia.
    destruct (Z.eq_dec (x mod 2 ^ n) 0) as [Hexact|Hinexact].
    - rewrite (Hkeep Hexact). apply Z.div_le_upper_bound; lia.
    - assert (Hmod : 0 <= x mod 2 ^ n < 2 ^ n)
        by (apply Z.mod_pos_bound; lia).
      pose proof (Z.div_mod x (2 ^ n) ltac:(lia)) as Hdm. fold q in Hdm.
      assert (q < Zpos mm * 2 ^ (em - e1)) by nia. lia. }
  destruct Hres as [[_ ->]|(m' & e' & He' & Hc' & Hval & ->)];
    [left; reflexivity|].
  right.
  assert (Hord : e' < em \/ (e' = em /\ Zpos m' <= Zpos mm)).
  { rewrite <- Hval in Hw.
    apply (canonical_order (Zpos m') e' (Zpos mm) em e1);
      solve [lia | assumption]. }
  replace (e' <=? F64.emax - F64.prec) with true
    by (symmetry; apply Z.leb_le; lia).
  eauto.
Qed.

Lemma binary_round_shape (s : bool) (mx : positive) (b : Z) :
  binary_round F64.prec F64.emax s mx b = S754_zero s
  \/ binary_round F64.prec F64.emax s mx b = S754_infinity s
  \/ exists m' e', binary_round F64.prec F64.emax s mx b = S754_finite s m' e'.
Proof.
  destruct (binary_round_spec s mx b) as (x & ez & -> & Hx & _ & Hez1 & Hcan & _).
  pose proof (binary_round_aux_spec s x ez Hx) as H. cbv zeta in H.
  rewrite Hcan in H.
  destruct H as (_ & q' & _ & _ & Hres); [lia|].
  destruct Hres as [[_ ->]|(m' & e' & _ & _ & _ & ->)]; [auto|].
  destruct (e' <=? F64.emax - F64.prec); eauto.
Qed.

Lemma shl_align_fst (mx : positive) (ex ez : Z) :
  ez <= ex -> Zpos (fst (shl_align mx ex ez)) = Zpos mx * 2 ^ (ex - ez).
Proof.
  intros H. unfold shl_align.
  destruct (ez - ex) as [|p|p] eqn:E; try lia; cbn [fst].
  - replace (ex - ez) with 0 by lia. change (2 ^ 0) with 1. lia.
  - rewrite iter_xO. f_equal. f_equal. lia.
Qed.

Lemma valid_finite (s : bool) (m : positive) (e : Z) :
  F64.valid (S754_finite s m e) = true ->
  fexp F64.prec F64.emax (Zdigits2 (Zpos m) + e) = e
  /\ e <= F64.emax - F64.prec.
Proof.
  unfold F64.valid, valid_binary, bounded, canonical_mantissa.
  intros H. apply andb_prop in H as [H1 H2].
  apply Z.eqb_eq in H1. apply Z.leb_le in H2. auto.
Qed.

Lemma leb_refl (x : float) : F64.is_nan x = false -> F64.leb x x = true.
Proof.
  destruct x as [s|s| |s m e]; try discriminate; intros _;
    unfold F64.leb, SFleb, SFcompare.
  - reflexivity.
  - destruct s; reflexivity.
  - rewrite Z.compare_refl, Pos.compare_cont_refl. destruct s; reflexivity.
Qed.

(** Adding a value that is not negative does not yield less: for valid
    operands, [m <= c + m] whenever [0 <= c], [m] is not NaN, and the sum is
    not the undefined [inf + (-inf)]. *)
Lemma add_nonneg_ge (c m : float) :
  F64.valid m = true ->
  F64.leb F64.zero c = true ->
  F64.is_nan m = false ->
  ~ (c = S754_infinity false /\ m = S754_infinity true) ->
  F64.leb m (F64.add c m) = true.
Proof.
  intros Hvm Hc Hm Hinf.
  destruct c as [sc|sc| |sc mc ec]; try discriminate.
  - (* c is a zero *)
    destruct m as [sm|sm| |sm mm em]; try discriminate.
    + destruct sc, sm; reflexivity.
    + apply (leb_refl (S754_infinity sm)). reflexivity.
    + apply (leb_refl (S754_finite sm mm em)). reflexivity.
  - (* c is an infinity *)
    destruct sc; [discriminate|].
    destruct m as [sm|sm| |sm mm em]; try discriminate; try reflexivity.
    destruct sm; [|reflexivity]. exfalso. apply Hinf. auto.
  - (* c is finite *)
    destruct sc; [discriminate|].
    destruct m as [sm|sm| |sm mm em]; try discriminate.
    + destruct sm; reflexivity.
    + destruct sm; reflexivity.
    + apply valid_finite in Hvm as [Hcm Hem].
      unfold F64.add, SFadd.
      set (ez := Z.min ec em).
      rewrite !shl_align_fst by (unfold ez; lia).
      cbn [cond_Zopp].
      assert (HC : 0 < Zpos mc * 2 ^ (ec - ez)).
      { assert (0 < 2 ^ (ec - ez)) by (apply pow2_pos; unfold ez; lia). nia. }
      assert (HM : 0 < Zpos mm * 2 ^ (em - ez)).
      { assert (0 < 2 ^ (em - ez)) by (apply pow2_pos; unfold ez; lia). nia. }
      assert (Hez : ez <= em) by (unfold ez; lia).
      destruct sm; cbn [cond_Zopp].
      * (* m is negative *)
        destruct (Zpos mc * 2 ^ (ec - ez) + - (Zpos mm * 2 ^ (em - ez)))
          as [|p|p] eqn:ES; cbn [binary_normalize].
        -- reflexivity.
        -- destruct (binary_round_shape false p ez)
            as [-> | [-> | (m' & e' & ->)]]; reflexivity.
        -- destruct (round_upper true p ez mm em Hcm Hem Hez)
            as [-> | (m' & e' & -> & Hord)]; [lia | reflexivity |].
           unfold F64.leb, SFleb, SFcompare.
           destruct Hord as [Hlt | [-> Hle]].
           ++ replace (em ?= e') with Gt
                by (symmetry; apply Z.compare_gt_iff; lia).
              reflexivity.
           ++ rewrite Z.compare_refl.
              change (Pos.compare_cont Eq mm m') with (Pos.compare mm m').
              destruct (Pos.compare_spec mm m') as [Heq|Hlt|Hgt];
                try reflexivity. lia.
      * (* m is positive *)
        destruct (Zpos mc * 2 ^ (ec - ez) + Zpos mm * 2 ^ (em - ez))
          as [|p|p] eqn:ES; try lia; cbn [binary_normalize].
        destruct (round_lower false p ez mm em Hcm Hez)
          as [-> | (m' & e' & -> & Hord)]; [lia | reflexivity |].
        unfold F64.leb, SFleb, SFcompare.
        destruct Hord as [Hlt | [-> Hle]].
        -- replace (em ?= e') with Lt
             by (symmetry; apply Z.compare_lt_iff; lia).
           reflexivity.
        -- rewrite Z.compare_refl.
           change (Pos.compare_cont Eq mm m') with (Pos.compare mm m').
           destruct (Pos.compare_spec mm m') as [Heq|Hlt|Hgt];
             try reflexivity. lia.
Qed.

(** The order of the numbers, and operations that keep a result from
    being negative *)

Import F64Order.

Lemma leb_key (x y : float) :
  F64.leb x y = true
  <-> exists kx ky, key x = Some kx /\ key y = Some ky /\ lexle kx ky.
Proof.
  unfold F64.leb, SFleb, SFcompare, lexle.
  destruct x as [sx|sx| |sx mx ex], y as [sy|sy| |sy my ey];
    try destruct sx; try destruct sy; cbn [key];
    try (split; [intros _; do 2 eexists; split; [reflexivity|];
                 split; [reflexivity|]; cbn; lia
                | reflexivity]);
    try (split; [discriminate
                | intros (kx & ky & [= <-] & [= <-] & H); cbn in H; lia]);
    try (split; [discriminate
                | intros (kx & ky & Hx & Hy & _); discriminate]).
  - change (Pos.compare_cont Eq mx my) with (mx ?= my)%positive.
    destruct (Z.compare_spec ex ey); [destruct (Pos.compare_spec mx my)| |];
      cbn [CompOpp];
      (split; [first [discriminate
                     | intros _; do 2 eexists;
                       split; [reflexivity|]; split; [reflexivity|];
                       cbn; lia]
              | first [reflexivity
                      | intros (kx & ky & [= <-] & [= <-] & Hl);
                        cbn in Hl; lia]]).
  - change (Pos.compare_cont Eq mx my) with (mx ?= my)%positive.
    destruct (Z.compare_spec ex ey); [destruct (Pos.compare_spec mx my)| |];
      (split; [first [discriminate
                     | intros _; do 2 eexists;
                       split; [reflexivity|]; split; [reflexivity|];
                       cbn; lia]
              | first [reflexivity
                      | intros (kx & ky & [= <-] & [= <-] & Hl);
                        cbn in Hl; lia]]).
Qed.

Lemma lexle_trans (a b c : Z * Z * Z) : lexle a b -> lexle b c -> lexle a c.
Proof. unfold lexle. destruct a as [[? ?] ?], b as [[? ?] ?], c as [[? ?] ?]; cbn. lia. Qed.

Lemma lexle_total (a b : Z * Z * Z) : lexle a b \/ lexle b a.
Proof. unfold lexle. destruct a as [[? ?] ?], b as [[? ?] ?]; cbn. lia. Qed.

Lemma leb_trans (x y z : float) :
  F64.leb x y = true -> F64.leb y z = true -> F64.leb x z = true.
Proof.
  rewrite !leb_key.
  intros (kx & ky & Hx & Hy & H1) (ky' & kz & Hy' & Hz & H2).
  rewrite Hy in Hy'. injection Hy' as <-.
  exists kx, kz. repeat split; try assumption. eapply lexle_trans; eassumption.
Qed.

Lemma leb_total (x y : float) :
  F64.is_nan x = false -> F64.is_nan y = false ->
  F64.leb x y = true \/ F64.leb y x = true.
Proof.
  intros Hx Hy. rewrite !leb_key.
  destruct (key x) as [kx|] eqn:Ex; [|destruct x as [[]|[]| |[] ? ?]; discriminate].
  destruct (key y) as [ky|] eqn:Ey; [|destruct y as [[]|[]| |[] ? ?]; discriminate].
  destruct (lexle_total kx ky); [left|right]; eauto 6.
Qed.

Lemma nonneg_cases (x : float) :
  nonneg x <->
  (exists s, x = S754_zero s) \/ x = S754_infinity false
  \/ exists m e, x = S754_finite false m e.
Proof.
  unfold nonneg. destruct x as [s|[]| |[] m e]; cbn; split;
    try discriminate; try reflexivity;
    try (intros [[s' [=]]|[[=]|(m' & e' & [=])]]);
    eauto.
Qed.

Lemma normalize_nonneg (z e : Z) :
  0 <= z -> nonneg (binary_normalize F64.prec F64.emax z e false).
Proof.
  intros Hz. apply nonneg_cases.
  destruct z as [|p|p]; [left; now exists false| |lia].
  cbn [binary_normalize].
  destruct (binary_round_shape false p e) as [->|[->|(m' & e' & ->)]];
    eauto.
Qed.

Lemma sub_nonneg (m v : float) :
  F64.is_finite m = true -> F64.is_finite v = true ->
  F64.valid m = true -> F64.valid v = true ->
  F64.leb v m = true ->
  nonneg (F64.sub m v).
Proof.
  intros Fm Fv Vm Vv Hle.
  apply leb_key in Hle as (kv & km & Kv & Km & Hlex).
  destruct m as [sm|sm| |sm mm em]; try discriminate Fm;
    destruct v as [sv|sv| |sv mv ev]; try discriminate Fv.
  - apply nonneg_cases. left. unfold F64.sub, SFsub.
    destruct sm, sv; eauto.
  - apply nonneg_cases. destruct sv; cbn in Kv, Km; injection Kv as <-;
      injection Km as <-; unfold lexle in Hlex; cbn in Hlex; [|lia].
    right. right. unfold F64.sub, SFsub. cbn. eauto.
  - apply nonneg_cases. destruct sm; cbn in Kv, Km; injection Kv as <-;
      injection Km as <-; unfold lexle in Hlex; cbn in Hlex; [lia|].
    right. right. unfold F64.sub, SFsub. eauto.
  - unfold F64.sub, SFsub. apply normalize_nonneg.
    apply valid_finite in Vm as [Cm _], Vv as [Cv _].
    rewrite !shl_align_fst by lia.
    set (b := Z.min em ev).
    assert (Hb1 : b <= em) by (unfold b; lia).
    assert (Hb2 : b <= ev) by (unfold b; lia).
    assert (Pm : 0 < Z.pos mm * 2 ^ (em - b))
      by (apply Z.mul_pos_pos; [lia|apply pow2_pos; lia]).
    assert (Pv : 0 < Z.pos mv * 2 ^ (ev - b))
      by (apply Z.mul_pos_pos; [lia|apply pow2_pos; lia]).
    unfold lexle in Hlex.
    destruct sm, sv; cbn in Kv, Km; injection Kv as <-; injection Km as <-;
      cbn in Hlex; cbn [cond_Zopp]; try lia.
    + destruct (Z_le_gt_dec (Z.pos mm * 2 ^ (em - b))
                            (Z.pos mv * 2 ^ (ev - b))) as [Hc|Hc]; [lia|].
      exfalso.
      destruct (canonical_order (Z.pos mv) ev (Z.pos mm) em b)
        as [H|[H1 H2]]; try lia; try assumption.
      assert (ev = em /\ Z.pos mv = Z.pos mm) as [-> Heq] by lia.
      rewrite Heq in Hc. lia.
    + destruct (Z_le_gt_dec (Z.pos mv * 2 ^ (ev - b))
                            (Z.pos mm * 2 ^ (em - b))) as [Hc|Hc]; [lia|].
      exfalso.
      destruct (canonical_order (Z.pos mm) em (Z.pos mv) ev b)
        as [H|[H1 H2]]; try lia; try assumption.
      assert (ev = em /\ Z.pos mv = Z.pos mm) as [-> Heq] by lia.
      rewrite Heq in Hc. lia.
Qed.

Lemma iter_pos_preserves {A : Type} (f : A -> A) (P : A -> Prop) :
  (forall x, P x -> P (f x)) ->
  forall n x, P x -> P (iter_pos f n x).
Proof.
  intros Hf. induction n as [n IH|n IH|]; intros x Hx; cbn; auto.
Qed.

Lemma shr_1_nonneg (mrs : shr_record) :
  0 <= shr_m mrs -> 0 <= shr_m (shr_1 mrs).
Proof.
  destruct mrs as [m r s]. cbn [shr_m]. intros Hm.
  destruct m as [|[p|p|]|p]; cbn; lia.
Qed.

Lemma shr_fexp_nonneg (m e : Z) (l : location) :
  0 <= m -> 0 <= shr_m (fst (shr_fexp F64.prec F64.emax m e l)).
Proof.
  intros Hm. unfold shr_fexp, shr.
  assert (H0 : 0 <= shr_m (shr_record_of_loc m l))
    by (destruct l as [|[]]; exact Hm).
  destruct (fexp F64.prec F64.emax (Zdigits2 m + e) - e) as [|p|p];
    cbn [fst]; try exact H0.
  apply iter_pos_preserves; [apply shr_1_nonneg | exact H0].
Qed.

Lemma binary_round_aux_nonneg (m e : Z) (l : location) :
  0 <= m -> nonneg (binary_round_aux F64.prec F64.emax false m e l).
Proof.
  intros Hm. apply nonneg_cases. unfold binary_round_aux.
  pose proof (shr_fexp_nonneg m e l Hm) as H1.
  destruct (shr_fexp F64.prec F64.emax m e l) as [mrs' e'].
  cbn [fst] in H1.
  pose proof (round_nearest_even_bounds
                (shr_m mrs') (loc_of_shr_record mrs')) as [[Hq _] _].
  assert (H2 : 0 <= round_nearest_even (shr_m mrs') (loc_of_shr_record mrs'))
    by lia.
  pose proof (shr_fexp_nonneg _ e' loc_Exact H2) as H3.
  destruct (shr_fexp F64.prec F64.emax
              (round_nearest_even (shr_m mrs') (loc_of_shr_record mrs'))
              e' loc_Exact) as [mrs'' e''].
  cbn [fst] in H3.
  destruct (shr_m mrs'') as [|p|p]; [left; now exists false| |lia].
  destruct (e'' <=? F64.emax - F64.prec); eauto.
Qed.

Lemma ltb_key (x y : float) :
  F64.ltb x y = true
  <-> exists kx ky, key x = Some kx /\ key y = Some ky /\ ~ lexle ky kx.
Proof.
  unfold F64.ltb, SFltb, SFcompare, lexle.
  destruct x as [sx|sx| |sx mx ex], y as [sy|sy| |sy my ey];
    try destruct sx; try destruct sy; cbn [key];
    try (split; [intros _; do 2 eexists; split; [reflexivity|];
                 split; [reflexivity|]; cbn; lia
                | reflexivity]);
    try (split; [discriminate
                | intros (kx & ky & [= <-] & [= <-] & H); cbn in H; lia]);
    try (split; [discriminate
                | intros (kx & ky & Hx & Hy & _); discriminate]).
  - change (Pos.compare_cont Eq mx my) with (mx ?= my)%positive.
    destruct (Z.compare_spec ex ey); [destruct (Pos.compare_spec mx my)| |];
      cbn [CompOpp];
      (split; [first [discriminate
                     | intros _; do 2 eexists;
                       split; [reflexivity|]; split; [reflexivity|];
                       cbn; lia]
              | first [reflexivity
                      | intros (kx & ky & [= <-] & [= <-] & Hl);
                        cbn in Hl; lia]]).
  - change (Pos.compare_cont Eq mx my) with (mx ?= my)%positive.
    destruct (Z.compare_spec ex ey); [destruct (Pos.compare_spec mx my)| |];
      (split; [first [discriminate
                     | intros _; do 2 eexists;
                       split; [reflexivity|]; split; [reflexivity|];
                       cbn; lia]
              | first [reflexivity
                      | intros (kx & ky & [= <-] & [= <-] & Hl);
                        cbn in Hl; lia]]).
Qed.

Lemma key_some (x : float) :
  F64.is_nan x = false -> exists k, key x = Some k.
Proof.
  intros H. destruct x as [[]|[]| |[] m e]; try discriminate H;
    eexists; reflexivity.
Qed.

Lemma lexle_dec (a b : Z * Z * Z) : lexle a b \/ ~ lexle a b.
Proof. unfold lexle. destruct a as [[? ?] ?], b as [[? ?] ?]; cbn. lia. Qed.

(** Of two numbers, the one that is not less than the other is greater
    than or equal to it. *)
Lemma not_ltb_leb (x y : float) :
  F64.is_nan x = false -> F64.is_nan y = false ->
  F64.ltb y x = false -> F64.leb x y = true.
Proof.
  intros Hx Hy H.
  destruct (key_some x Hx) as [kx Kx], (key_some y Hy) as [ky Ky].
  apply leb_key. exists kx, ky. repeat split; try assumption.
  destruct (lexle_dec kx ky) as [Hl|Hl]; [exact Hl|].
  exfalso. assert (F64.ltb y x = true); [|congruence].
  apply ltb_key. eauto 6.
Qed.

Lemma ltb_leb (x y : float) : F64.ltb x y = true -> F64.leb x y = true.
Proof.
  unfold F64.ltb, F64.leb, SFltb, SFleb.
  destruct (SFcompare x y) as [[| |]|]; try discriminate; reflexivity.
Qed.

Lemma leb_not_nan (x y : float) :
  F64.leb x y = true -> F64.is_nan x = false /\ F64.is_nan y = false.
Proof.
  intros H. destruct x as [| | |], y as [| | |]; try discriminate H; auto.
Qed.

Lemma add_comm (x y : float) : F64.add x y = F64.add y x.
Proof.
  unfold F64.add, SFadd.
  destruct x as [sx|sx| |sx mx ex], y as [sy|sy| |sy my ey];
    try reflexivity; try (destruct sx, sy; reflexivity).
  rewrite (Z.min_comm ey ex), Z.add_comm. reflexivity.
Qed.

(** A product of two numbers of one sign is not negative (and not a
    NaN, unless it is [0 * inf]). *)
Lemma mul_same_sign_nonneg (s : bool) (mx my : positive) (ex ey : Z) :
  nonneg (F64.mul (S754_finite s mx ex) (S754_finite s my ey)).
Proof.
  unfold F64.mul, SFmul. rewrite xorb_nilpotent.
  apply binary_round_aux_nonneg. lia.
Qed.


End F64Facts.

(** ** The simulator of [robupy] *)

Module RobupyProofs.

Import Robupy RobupySpec PyFacts.

(** Inversion of a chain of binds in a hypothesis. *)
Ltac inv_bind H :=
  lazymatch type of H with
  | Py.bind _ _ = Ok _ =>
      let a := fresh "a" in
      let Ha := fresh "Ha" in
      apply bind_ok in H as (a & Ha & H)
  end.

Ltac inv_binds :=
  repeat match goal with
         | H : Py.bind _ _ = Ok _ |- _ => inv_bind H
         end.

Lemma get_lit {A : Type} (a : list A) (i : nat) (d : A) :
  (i < length a)%nat -> Np.get a (Z.of_nat i) = Ok (nth i a d).
Proof.
  intros H. apply get_nonneg. now apply nth_error_nth'.
Qed.

Lemma get_lit_length {A : Type} (a : list A) (i : nat) (x : A) :
  Np.get a (Z.of_nat i) = Ok x -> (i < length a)%nat /\ forall d, nth i a d = x.
Proof.
  intros H. apply get_inv in H as (n & Hn & Hx).
  unfold Np.index, Np.len in Hn.
  destruct ((0 <=? Z.of_nat i) && (Z.of_nat i <? Z.of_nat (length a))) eqn:E.
  - injection Hn as <-. rewrite Nat2Z.id in Hx.
    apply andb_prop in E as [_ E]. apply Z.ltb_lt in E. split; [lia|].
    intros d. now apply nth_error_nth.
  - destruct ((- Z.of_nat (length a) <=? Z.of_nat i) && (Z.of_nat i <? 0)) eqn:E2;
      [|discriminate].
    apply andb_prop in E2 as [_ E2]. apply Z.ltb_lt in E2. lia.
Qed.

Lemma get4 {A : Type} (x0 x1 x2 x3 : A) (r : list A) :
  let l := x0 :: x1 :: x2 :: x3 :: r in
  Np.get l 0 = Ok x0 /\ Np.get l 1 = Ok x1 /\
  Np.get l 2 = Ok x2 /\ Np.get l 3 = Ok x3.
Proof.
  intros l. split; [|split; [|split]].
  - apply (get_nonneg l 0%nat). reflexivity.
  - apply (get_nonneg l 1%nat). reflexivity.
  - apply (get_nonneg l 2%nat). reflexivity.
  - apply (get_nonneg l 3%nat). reflexivity.
Qed.

Lemma set4 {A : Type} (x0 x1 x2 x3 y : A) :
  let l := [x0; x1; x2; x3] in
  Np.set l 0 y = Ok [y; x1; x2; x3] /\ Np.set l 1 y = Ok [x0; y; x2; x3] /\
  Np.set l 2 y = Ok [x0; x1; y; x3] /\ Np.set l 3 y = Ok [x0; x1; x2; y].
Proof. repeat split. Qed.

Section Proofs.

Variable HUGE_FLOAT : float.

Lemma _get_future_payoffs_length edu_max edu_start msi period pe k sa fp :
  _get_future_payoffs HUGE_FLOAT edu_max edu_start msi period pe k sa = Ok fp ->
  length fp = 4%nat.
Proof.
  unfold _get_future_payoffs. intros H.
  inv_bind H.
  destruct a as [|exp_a [|exp_b [|edu [|lag [|]]]]]; try discriminate.
  repeat inv_bind H. injection H as <-.
  match goal with
  | Hif : (if ?c then _ else _) = Ok _ |- _ =>
      destruct c; [repeat inv_bind Hif|]; apply set_length in Hif
  end;
    repeat match goal with
           | Hs : Np.set _ _ _ = Ok _ |- _ => apply set_length in Hs
           end;
    simpl in *; congruence.
Qed.

Lemma future_values_length period num_periods edu_max edu_start msi pe k sa c :
  future_values HUGE_FLOAT period num_periods edu_max edu_start msi pe k sa
  = Ok c ->
  length c = 4%nat.
Proof.
  unfold future_values.
  destruct (negb (period =? num_periods - 1)).
  - apply _get_future_payoffs_length.
  - now intros [= <-].
Qed.

(** [get_total_value] succeeds as soon as the rewards and the draw have
    four entries and the continuation values are found; it then returns
    the stabilized totals. *)
Lemma get_total_value_eq period num_periods delta sys shocks
      edu_max edu_start msi pe k sa cont :
  (4 <= length sys)%nat -> (4 <= length shocks)%nat ->
  future_values HUGE_FLOAT period num_periods edu_max edu_start msi pe k sa
  = Ok cont ->
  get_total_value HUGE_FLOAT period num_periods delta sys shocks
                  edu_max edu_start msi pe k sa
  = Ok (stabilized_total HUGE_FLOAT delta sys shocks cont,
        ex_post sys shocks, cont).
Proof.
  intros Hs He Hc.
  pose proof (future_values_length _ _ _ _ _ _ _ _ _ Hc) as Hlen.
  destruct sys as [|s0 [|s1 [|s2 [|s3 sys]]]]; simpl in Hs; try lia.
  destruct shocks as [|e0 [|e1 [|e2 [|e3 shocks]]]]; simpl in He; try lia.
  destruct cont as [|c0 [|c1 [|c2 [|c3 [|]]]]]; try discriminate.
  unfold get_total_value.
  unfold future_values in Hc. rewrite Hc. clear Hc.
  destruct (get4 s0 s1 s2 s3 sys) as (G0 & G1 & G2 & G3).
  destruct (get4 e0 e1 e2 e3 shocks) as (E0 & E1 & E2 & E3).
  cbn [for_each Py.bind].
  rewrite G0, G1, G2, G3, E0, E1, E2, E3.
  cbn [for_each Py.bind Np.tile repeat].
  unfold stabilized_total, _stabilize_myopic, claimed_total, ex_post, add_scaled.
  cbn [nth combine map fst snd].
  destruct (get4 c0 c1 c2 c3 []) as (_ & _ & C2 & _).
  destruct (F64.eqb delta F64.zero); cbn [andb Py.bind]; [|reflexivity].
  rewrite C2. cbn [Py.bind].
  destruct (F64.eqb c2 (F64.opp HUGE_FLOAT)); reflexivity.
Qed.

Lemma get_total_value_inv period num_periods delta sys shocks
      edu_max edu_start msi pe k sa total xp cont :
  get_total_value HUGE_FLOAT period num_periods delta sys shocks
                  edu_max edu_start msi pe k sa = Ok (total, xp, cont) ->
  (4 <= length sys)%nat /\ (4 <= length shocks)%nat /\
  future_values HUGE_FLOAT period num_periods edu_max edu_start msi pe k sa
  = Ok cont /\
  total = stabilized_total HUGE_FLOAT delta sys shocks cont /\
  xp = ex_post sys shocks.
Proof.
  intros H.
  assert (Hlen : (4 <= length sys)%nat /\ (4 <= length shocks)%nat /\
                 future_values HUGE_FLOAT period num_periods edu_max
                               edu_start msi pe k sa = Ok cont).
  { unfold get_total_value in H. cbn [for_each] in H.
    inv_binds. injection H as _ _ <-.
    repeat match goal with
           | G : Np.get ?a 3 = Ok _ |- _ =>
               apply (get_lit_length a 3%nat) in G; destruct G as [G _]
           end.
    repeat split; try lia. assumption. }
  destruct Hlen as (Hs & He & Hc).
  rewrite (get_total_value_eq _ _ delta _ _ _ _ _ _ _ _ _ Hs He Hc) in H.
  injection H as <- <-. auto.
Qed.

End Proofs.

Lemma eqb_not_nan_r (x y : float) : F64.eqb x y = true -> F64.is_nan y = false.
Proof.
  destruct y; try reflexivity. destruct x; discriminate.
Qed.

(** C1: for every state and every draw, when the discount factor equals
    zero and the future payoff of the schooling alternative holds the
    sentinel [-HUGE_FLOAT], the total value [get_total_value] returns for
    the schooling alternative is the sentinel itself, which is not NaN. *)
Theorem C1_myopic_total_is_sentinel
        (HUGE_FLOAT : float) period num_periods delta sys shocks
        edu_max edu_start msi pe k sa total xp cont v :
  get_total_value HUGE_FLOAT period num_periods delta sys shocks
                  edu_max edu_start msi pe k sa = Ok (total, xp, cont) ->
  F64.eqb delta F64.zero = true ->
  Np.get cont 2 = Ok v ->
  F64.eqb v (F64.opp HUGE_FLOAT) = true ->
  Np.get total 2 = Ok (F64.opp HUGE_FLOAT)
  /\ F64.is_nan (F64.opp HUGE_FLOAT) = false.
Proof.
  intros H Hd Hv Hh.
  apply get_total_value_inv in H as (_ & _ & Hc & -> & _).
  apply future_values_length in Hc.
  split; [|eapply eqb_not_nan_r; eassumption].
  apply (get_lit_length cont 2%nat) in Hv as [_ Hv].
  unfold stabilized_total. rewrite Hd, (Hv F64.nan), Hh. cbn [andb].
  apply (get_nonneg _ 2%nat). reflexivity.
Qed.

Lemma C1_myopic_total_is_sentinel_witness :
  Np.get (stabilized_total sample_huge F64.zero
            [one; one; F64.of_Z 5; one] [one; one; F64.zero; F64.zero]
            [F64.zero; F64.zero; F64.opp sample_huge; F64.zero]) 2
  = Ok (F64.opp sample_huge)
  /\ F64.is_nan (F64.opp sample_huge) = false.
Proof.
  apply (C1_myopic_total_is_sentinel sample_huge 0 2 F64.zero
           [one; one; F64.of_Z 5; one] [one; one; F64.zero; F64.zero]
           10 10 sample_mapping_state_idx sample_periods_emax 0
           sample_states_all _
           (ex_post [one; one; F64.of_Z 5; one] [one; one; F64.zero; F64.zero])
           [F64.zero; F64.zero; F64.opp sample_huge; F64.zero]
           (F64.opp sample_huge));
    vm_compute; reflexivity.
Defined.

Lemma py_max_stabilized (HUGE_FLOAT : float) delta sys shocks cont :
  py_max (stabilized_total HUGE_FLOAT delta sys shocks cont)
  = Ok (max_of (stabilized_total HUGE_FLOAT delta sys shocks cont)).
Proof.
  unfold stabilized_total, claimed_total.
  destruct (F64.eqb delta F64.zero && _); reflexivity.
Qed.

Section Loop.

Variable HUGE_FLOAT : float.
Variables (num_periods period k edu_max edu_start : Z).
Variable eps : list (list float).
Variable sys : list float.
Variable pe : list (list float).
Variable sa : list (list (list Z)).
Variable msi : list (list (list (list (list Z)))).
Variable delta : float.
Variable cont : list float.

Hypothesis Hsys : (4 <= length sys)%nat.
Hypothesis Hcont :
  future_values HUGE_FLOAT period num_periods edu_max edu_start msi pe k sa
  = Ok cont.

(** The body of the loop over the draws in [simulate_emax]. *)
Let body (i : Z) (acc : float * option (list float) * option (list float)) :=
  (disturbances <- Np.get eps i ;;
   tv <- get_total_value HUGE_FLOAT period num_periods delta sys
           disturbances edu_max edu_start msi pe k sa ;;
   maximum <- py_max (fst (fst tv)) ;;
   Ok (F64.add (fst (fst acc)) maximum, Some (snd (fst tv)), Some (snd tv)))%py.

Let maximum_of (shocks : list float) : float :=
  max_of (stabilized_total HUGE_FLOAT delta sys shocks cont).

(** Invariant of the loop: after the draws [i .. i + n - 1] the
    accumulator has grown by their maxima, in order. *)
Lemma simulate_loop (n i : nat) acc o1 o2 :
  (i + n <= length eps)%nat ->
  Forall (fun row => (4 <= length row)%nat) (firstn n (skipn i eps)) ->
  exists o1' o2',
    for_range body (Z.of_nat i) n (acc, o1, o2)
    = Ok (fold_left F64.add (map maximum_of (firstn n (skipn i eps))) acc,
          o1', o2')
    /\ ((0 < n)%nat -> (exists xp, o1' = Some xp) /\ o2' = Some cont).
Proof.
  revert i acc o1 o2.
  induction n as [|n IH]; intros i acc o1 o2 Hi Hrows.
  - exists o1, o2. split; [reflexivity | lia].
  - destruct (skipn i eps) as [|row rest] eqn:Hskip.
    { apply (f_equal (@length _)) in Hskip.
      rewrite length_skipn in Hskip. simpl in Hskip. lia. }
    assert (Hrow : nth_error eps i = Some row).
    { rewrite <- (firstn_skipn i eps), Hskip.
      rewrite nth_error_app2; rewrite length_firstn; [|lia].
      replace (i - Nat.min i (length eps))%nat with 0%nat by lia.
      reflexivity. }
    assert (Hrest : skipn (S i) eps = rest).
    { replace (S i) with (1 + i)%nat by lia.
      rewrite <- skipn_skipn, Hskip. reflexivity. }
    cbn [firstn] in Hrows. inversion Hrows as [|? ? Hr Hrows']; subst.
    destruct (IH (S i)
                 (F64.add acc (maximum_of row))
                 (Some (ex_post sys row)) (Some cont))
      as (o1' & o2' & Hloop & Hlast).
    { lia. }
    { assumption. }
    exists (match n with O => Some (ex_post sys row) | _ => o1' end),
           (match n with O => Some cont | _ => o2' end).
    split.
    + cbn [for_range]. unfold body at 1.
      rewrite (get_nonneg _ _ _ Hrow). cbn [Py.bind].
      rewrite (get_total_value_eq HUGE_FLOAT _ _ delta _ _ _ _ _ _ _ _ _
                                  Hsys Hr Hcont).
      cbn [Py.bind fst snd]. rewrite py_max_stabilized. cbn [Py.bind].
      replace (Z.of_nat i + 1) with (Z.of_nat (S i)) by lia.
      fold (maximum_of row). rewrite Hloop. cbn [firstn map fold_left].
      destruct n; [|reflexivity].
      cbn [for_range] in Hloop. injection Hloop as -> ->. reflexivity.
    + intros _. destruct n.
      * split; [eexists|]; reflexivity.
      * apply Hlast. lia.
Qed.

End Loop.

(** C2, as stated, fails for a myopic agent whose schooling alternative
    is infeasible: with [delta = 0], one draw [[1, 1, 0, 0]] and rewards
    [[1, 1, 5, 1]] the function returns [1.0], whereas the average of the
    maxima of the stated totals (reward and shock combined, plus
    [delta * continuation_value]) is [5.0]. *)
Lemma C2_counterexample :
  let sys := [one; one; F64.of_Z 5; one] in
  let row := [one; one; F64.zero; F64.zero] in
  let cont := [F64.zero; F64.zero; F64.opp sample_huge; F64.zero] in
  future_values sample_huge 0 2 10 10 sample_mapping_state_idx
                sample_periods_emax 0 sample_states_all = Ok cont
  /\ simulate_emax sample_huge 2 1 0 0 [row] sys 10 10 sample_periods_emax
                   sample_states_all sample_mapping_state_idx F64.zero
     = Ok (one, Some (ex_post sys row), Some cont)
  /\ draw_average [max_of (claimed_total F64.zero sys row cont)] 1
     = F64.of_Z 5
  /\ one <> F64.of_Z 5.
Proof.
  cbv zeta. repeat split; try (vm_compute; reflexivity).
  vm_compute. discriminate.
Qed.

(** C2 (amended): for every [num_draws >= 1], [simulate_emax] returns as
    its first result the sum, accumulated from [0.0] over the first
    [num_draws] draw rows, of the maximum over the four alternatives of the
    per-draw total value, divided by [num_draws]; the total value is
    [systematic_reward * shock] for alternatives 0 and 1 and
    [systematic_reward + shock] for alternatives 2 and 3, plus
    [delta * continuation_value], except that for [delta == 0] and a
    schooling continuation value equal to [-HUGE_FLOAT] the schooling total
    is [-HUGE_FLOAT] itself. *)
Theorem C2_simulate_emax_draw_average
        (HUGE_FLOAT : float) num_periods num_draws period k eps sys
        edu_max edu_start pe sa msi delta cont :
  1 <= num_draws ->
  num_draws <= Np.len eps ->
  (4 <= length sys)%nat ->
  Forall (fun row => (4 <= length row)%nat) (firstn (Z.to_nat num_draws) eps) ->
  future_values HUGE_FLOAT period num_periods edu_max edu_start msi pe k sa
  = Ok cont ->
  exists xp,
    simulate_emax HUGE_FLOAT num_periods num_draws period k eps sys
                  edu_max edu_start pe sa msi delta
    = Ok (draw_average
            (map (fun shocks =>
                    max_of (stabilized_total HUGE_FLOAT delta sys shocks cont))
                 (firstn (Z.to_nat num_draws) eps))
            num_draws,
          Some xp, Some cont).
Proof.
  intros Hn Hlen Hsys Hrows Hcont.
  destruct (simulate_loop HUGE_FLOAT num_periods period k edu_max edu_start
              eps sys pe sa msi delta cont Hsys Hcont
              (Z.to_nat num_draws) 0%nat F64.zero None None)
    as (o1 & o2 & Hloop & Hlast).
  { unfold Np.len in Hlen. lia. }
  { exact Hrows. }
  destruct Hlast as [[xp ->] ->]; [lia|].
  exists xp. unfold simulate_emax.
  change (Z.of_nat 0) with 0 in Hloop. cbv zeta in Hloop.
  rewrite Hloop. cbn [Py.bind fst snd skipn].
  replace (num_draws =? 0) with false by (symmetry; apply Z.eqb_neq; lia).
  reflexivity.
Qed.

Lemma C2_simulate_emax_draw_average_witness :
  exists xp,
    simulate_emax sample_huge 2 1 0 0 [[one; one; F64.zero; F64.zero]]
                  [one; one; F64.of_Z 5; one] 10 10 sample_periods_emax
                  sample_states_all sample_mapping_state_idx F64.zero
    = Ok (draw_average
            (map (fun shocks =>
                    max_of (stabilized_total sample_huge F64.zero
                              [one; one; F64.of_Z 5; one] shocks
                              [F64.zero; F64.zero; F64.opp sample_huge;
                               F64.zero]))
                 (firstn (Z.to_nat 1) [[one; one; F64.zero; F64.zero]]))
            1,
          Some xp,
          Some [F64.zero; F64.zero; F64.opp sample_huge; F64.zero]).
Proof.
  apply (C2_simulate_emax_draw_average sample_huge 2 1 0 0
           [[one; one; F64.zero; F64.zero]] [one; one; F64.of_Z 5; one]
           10 10 sample_periods_emax sample_states_all
           sample_mapping_state_idx F64.zero
           [F64.zero; F64.zero; F64.opp sample_huge; F64.zero]).
  - lia.
  - vm_compute. discriminate.
  - simpl. lia.
  - repeat constructor.
  - vm_compute. reflexivity.
Defined.






(** With a discount factor of zero and a sentinel of zero the myopic
    replacement fires in the final period too, and the schooling total
    is [-0.0] in place of the immediate payoff [1000.0]. *)
Lemma get_total_value_zero_sentinel :
  get_total_value F64.zero 1 2 F64.zero
    [one; one; F64.of_Z 1000; one] [one; one; F64.zero; F64.zero]
    10 10 sample_mapping_state_idx sample_periods_emax 0 sample_states_all
  = Ok ([one; one; F64.opp F64.zero; one],
        [one; one; F64.of_Z 1000; one],
        [F64.zero; F64.zero; F64.zero; F64.zero]).
Proof. vm_compute. reflexivity. Qed.

Ltac run_sets :=
  repeat match goal with
         | Hs : Np.set _ _ _ = Ok _ |- _ =>
             cbn in Hs; injection Hs as <-
         end.

(** What [_get_future_payoffs] stores for the schooling alternative. *)
Lemma _get_future_payoffs_schooling
      (HUGE_FLOAT : float) edu_max edu_start msi period pe k sa fp
      exp_a exp_b edu lag :
  Np.get2 sa period k = Ok [exp_a; exp_b; edu; lag] ->
  _get_future_payoffs HUGE_FLOAT edu_max edu_start msi period pe k sa = Ok fp ->
  if edu <? edu_max - edu_start then
    exists future_idx v,
      Np.get5 msi (period + 1) exp_a exp_b (Np.int64_add edu 1) 1
      = Ok future_idx
      /\ Np.get2 pe (period + 1) future_idx = Ok v
      /\ Np.get fp 2 = Ok v
  else Np.get fp 2 = Ok (F64.opp HUGE_FLOAT).
Proof.
  intros Hstate H. unfold _get_future_payoffs in H.
  rewrite Hstate in H. cbn [Py.bind] in H.
  inv_binds. injection H as <-.
  destruct (edu <? edu_max - edu_start).
  - inv_binds. run_sets. eauto.
  - run_sets. reflexivity.
Qed.


(** C4: the sentinel does not keep the maximum from selecting the
    schooling alternative of a state that cannot add schooling.  In
    period 0 of 2, the state with [edu = 0 >= edu_max - edu_start = 0],
    the sentinel [1e20], the discount factor [1e-18], rewards
    [[1, 1, 1000, 1]] and the draw [[1, 1, 0, 0]]: [_get_future_payoffs]
    assigns the schooling alternative [-1e20], the total values are
    [[1, 1, 900, 1]], and the maximum is the total of alternative 2,
    schooling. *)
Theorem C4_infeasible_schooling_selected :
  Np.get2 sample_states_all 0 0 = Ok [0; 0; 0; 0]
  /\ 0 >= 10 - 10
  /\ 0 <> 2 - 1
  /\ _get_future_payoffs sample_huge 10 10 sample_mapping_state_idx 0
       sample_periods_emax 0 sample_states_all
     = Ok [F64.zero; F64.zero; F64.opp sample_huge; F64.zero]
  /\ get_total_value sample_huge 0 2 small_delta
       [one; one; F64.of_Z 1000; one] [one; one; F64.zero; F64.zero]
       10 10 sample_mapping_state_idx sample_periods_emax 0
       sample_states_all
     = Ok ([one; one; F64.of_Z 900; one],
           [one; one; F64.of_Z 1000; one],
           [F64.zero; F64.zero; F64.opp sample_huge; F64.zero])
  /\ py_argmax [one; one; F64.of_Z 900; one] = Ok 2%nat
  /\ py_max [one; one; F64.of_Z 900; one] = Ok (F64.of_Z 900).
Proof.
  repeat split; try lia; vm_compute; reflexivity.
Qed.

Lemma ltb_leb_trans (x y z : float) :
  F64.ltb x y = true -> F64.leb y z = true -> F64.ltb x z = true.
Proof.
  rewrite !F64Facts.ltb_key, F64Facts.leb_key.
  intros (kx & ky & Hx & Hy & H1) (ky' & kz & Hy' & Hz & H2).
  rewrite Hy in Hy'. injection Hy' as <-.
  exists kx, kz. repeat split; try assumption.
  unfold F64Order.lexle in *.
  destruct kx as [[? ?] ?], ky as [[? ?] ?], kz as [[? ?] ?]; cbn in *. lia.
Qed.

Lemma ltb_asym (x y : float) : F64.ltb x y = true -> F64.ltb y x = false.
Proof.
  intros H. destruct (F64.ltb y x) eqn:E; [|reflexivity]. exfalso.
  apply F64Facts.ltb_key in H as (kx & ky & Hx & Hy & H1).
  apply F64Facts.ltb_key in E as (ky' & kx' & Hy' & Hx' & H2).
  rewrite Hy in Hy'. injection Hy' as <-.
  rewrite Hx in Hx'. injection Hx' as <-.
  unfold F64Order.lexle in *.
  destruct kx as [[? ?] ?], ky as [[? ?] ?]; cbn in *. lia.
Qed.

Lemma negated_sentinel_nonneg (HUGE_FLOAT : float) :
  F64.leb F64.zero HUGE_FLOAT = true ->
  F64.leb F64.zero (F64.mul (F64.opp one) (F64.opp HUGE_FLOAT)) = true.
Proof.
  intros H. destruct HUGE_FLOAT as [s|[]| |[] m e]; try discriminate H.
  - destruct s; reflexivity.
  - reflexivity.
  - apply (F64Facts.mul_same_sign_nonneg true).
Qed.

(** The same happens for every sentinel that is not negative, finite or
    infinite, when the discount factor is negative: with [delta = -1]
    the schooling total in that state is [1000 + HUGE_FLOAT], and the
    maximum selects schooling. *)
Lemma C4_negative_discount_selects_schooling (HUGE_FLOAT : float) :
  F64.leb F64.zero HUGE_FLOAT = true ->
  get_total_value HUGE_FLOAT 0 2 (F64.opp one)
    [one; one; F64.of_Z 1000; one] [one; one; F64.zero; F64.zero]
    10 10 sample_mapping_state_idx sample_periods_emax 0 sample_states_all
  = Ok ([one; one;
         F64.add (F64.of_Z 1000) (F64.mul (F64.opp one) (F64.opp HUGE_FLOAT));
         one],
        [one; one; F64.of_Z 1000; one],
        [F64.zero; F64.zero; F64.opp HUGE_FLOAT; F64.zero])
  /\ py_argmax
       [one; one;
        F64.add (F64.of_Z 1000) (F64.mul (F64.opp one) (F64.opp HUGE_FLOAT));
        one]
     = Ok 2%nat.
Proof.
  intros H. split.
  - rewrite (get_total_value_eq HUGE_FLOAT 0 2 (F64.opp one)
               [one; one; F64.of_Z 1000; one] [one; one; F64.zero; F64.zero]
               10 10 sample_mapping_state_idx sample_periods_emax 0
               sample_states_all
               [F64.zero; F64.zero; F64.opp HUGE_FLOAT; F64.zero]);
      [|simpl; lia|simpl; lia|reflexivity].
    reflexivity.
  - set (p := F64.mul (F64.opp one) (F64.opp HUGE_FLOAT)).
    assert (Hp : F64.leb F64.zero p = true)
      by now apply negated_sentinel_nonneg.
    assert (Hge : F64.leb (F64.of_Z 1000) (F64.add (F64.of_Z 1000) p) = true).
    { rewrite F64Facts.add_comm.
      apply F64Facts.add_nonneg_ge; try reflexivity; try assumption.
      intros [_ Hc]. discriminate Hc. }
    assert (Hlt : F64.ltb one (F64.add (F64.of_Z 1000) p) = true).
    { apply (ltb_leb_trans one (F64.of_Z 1000)); [reflexivity|exact Hge]. }
    pose proof (ltb_asym _ _ Hlt) as Hgt.
    cbn [py_argmax py_argmax_from].
    unfold F64.gtb. fold (F64.ltb one one).
    replace (F64.ltb one one) with false by reflexivity.
    fold (F64.ltb one (F64.add (F64.of_Z 1000) p)). rewrite Hlt.
    fold (F64.ltb (F64.add (F64.of_Z 1000) p) one). rewrite Hgt.
    reflexivity.
Qed.

End RobupyProofs.

(** ** The interpolation routines of [respy] *)

Module RespyProofs.

Import Respy RespySpec PyFacts.

Section Monad.

Context {rng : Type}.

Lemma bindM_ok {A B : Type} (m : M rng A) (f : A -> M rng B) w b w' :
  bindM rng m f w = Ok (b, w') ->
  exists a w1, m w = Ok (a, w1) /\ f a w1 = Ok (b, w').
Proof.
  unfold bindM. destruct (m w) as [[a w1]|e]; [eauto | discriminate].
Qed.

Lemma lift_ok {A : Type} (r : result A) w a w' :
  lift rng r w = Ok (a, w') -> r = Ok a /\ w' = w.
Proof.
  unfold lift. destruct r; [intros [= -> ->]; auto | discriminate].
Qed.

Lemma ret_ok {A : Type} (x : A) w a w' :
  ret rng x w = Ok (a, w') -> a = x /\ w' = w.
Proof. unfold ret. intros [= -> ->]; auto. Qed.

End Monad.

Ltac inv_bindM H :=
  lazymatch type of H with
  | bindM _ _ _ _ = Ok _ =>
      let a := fresh "a" in
      let w := fresh "w" in
      let Ha := fresh "Ha" in
      apply bindM_ok in H as (a & w & Ha & H)
  | lift _ _ _ = Ok _ =>
      let Hw := fresh "Hw" in
      apply lift_ok in H as (H & Hw); subst
  | ret _ _ _ = Ok _ =>
      let Hw := fresh "Hw" in
      apply ret_ok in H as (H & Hw); subst
  end.

Ltac inv_bindMs :=
  repeat match goal with
         | H : bindM _ _ _ _ = Ok _ |- _ => inv_bindM H
         | H : lift _ _ _ = Ok _ |- _ => inv_bindM H
         | H : ret _ _ _ = Ok _ |- _ => inv_bindM H
         end.

(** *** Dictionaries and lists *)

Lemma dict_get_inv {V : Type} (l : Dict.t V) (k : Z) (v : V) :
  Dict.get l k = Ok v -> exists i, nth_error l i = Some (k, v).
Proof.
  induction l as [|[k' v'] l IH]; simpl; [discriminate|].
  destruct (k' =? k) eqn:E.
  - intros [= <-]. apply Z.eqb_eq in E. subst. now exists 0%nat.
  - intros H. destruct (IH H) as [i Hi]. now exists (S i).
Qed.

Lemma dict_get_nth {V : Type} (l : Dict.t V) (i : nat) (k : Z) (v : V) :
  NoDup (Dict.keys l) -> nth_error l i = Some (k, v) -> Dict.get l k = Ok v.
Proof.
  revert i. induction l as [|[k' v'] l IH]; intros [|i] Hnd H;
    simpl in *; try discriminate.
  - injection H as -> ->. now rewrite Z.eqb_refl.
  - inversion Hnd as [|? ? Hin Hnd']; subst.
    destruct (k' =? k) eqn:E.
    + apply Z.eqb_eq in E. subst. exfalso. apply Hin.
      apply nth_error_In in H. now apply (in_map fst) in H.
    + eapply IH; eassumption.
Qed.

Lemma dict_set_nth {V : Type} (l : Dict.t V) (i : nat) (k : Z) (v v' : V) :
  NoDup (Dict.keys l) -> nth_error l i = Some (k, v) ->
  Dict.set l k v' = Np.set_nth l i (k, v').
Proof.
  revert i. induction l as [|[k0 v0] l IH]; intros [|i] Hnd H;
    simpl in *; try discriminate.
  - injection H as -> ->. now rewrite Z.eqb_refl.
  - inversion Hnd as [|? ? Hin Hnd']; subst.
    destruct (k0 =? k) eqn:E.
    + apply Z.eqb_eq in E. subst. exfalso. apply Hin.
      apply nth_error_In in H. now apply (in_map fst) in H.
    + f_equal. eapply IH; eassumption.
Qed.

Lemma list_index_nth (l : list Z) (i : nat) (x : Z) :
  NoDup l -> nth_error l i = Some x -> list_index l x = Ok (Z.of_nat i).
Proof.
  revert i. induction l as [|y l IH]; intros [|i] Hnd H;
    simpl in *; try discriminate.
  - injection H as ->. now rewrite Z.eqb_refl.
  - inversion Hnd as [|? ? Hin Hnd']; subst.
    destruct (y =? x) eqn:E.
    + apply Z.eqb_eq in E. subst. exfalso. apply Hin.
      eapply nth_error_In; eassumption.
    + rewrite (IH i Hnd' H). simpl. f_equal. lia.
Qed.

Lemma count_true_set_nth (mask : list bool) (i : nat) :
  nth_error mask i = Some false ->
  count_true (Np.set_nth mask i true) = S (count_true mask).
Proof.
  unfold count_true. revert i.
  induction mask as [|b mask IH]; intros [|i] H; simpl in *; try discriminate.
  - injection H as ->. reflexivity.
  - destruct b; simpl; rewrite (IH i H); reflexivity.
Qed.

Lemma count_true_repeat_false (n : nat) : count_true (repeat false n) = 0%nat.
Proof. induction n; [reflexivity | exact IHn]. Qed.

(** Marking the sampled positions: distinct positions that are still
    [False] raise the count by one each. *)
Lemma mark_all (xs : list Z) :
  forall acc : list bool,
    NoDup xs ->
    Forall (fun x => 0 <= x < Np.len acc) xs ->
    (forall x, In x xs -> nth_error acc (Z.to_nat x) = Some false) ->
    exists acc',
      for_each (fun i a => Np.set a i true) xs acc = Ok acc'
      /\ length acc' = length acc
      /\ count_true acc' = (count_true acc + length xs)%nat.
Proof.
  induction xs as [|x xs IH]; intros acc Hnd Hrange Hfalse.
  - exists acc. simpl. repeat split; lia.
  - inversion Hnd as [|? ? Hin Hnd']; subst.
    inversion Hrange as [|? ? Hx Hrange']; subst.
    destruct (IH (Np.set_nth acc (Z.to_nat x) true)) as (acc' & Hrun & Hlen & Hcnt).
    + exact Hnd'.
    + unfold Np.len. rewrite set_nth_length. exact Hrange'.
    + intros y Hy. rewrite nth_error_set_nth_other.
      * apply Hfalse. now right.
      * intros E. apply Hin.
        assert (0 <= y) by (rewrite Forall_forall in Hrange'; apply Hrange'; exact Hy).
        replace x with y by lia. exact Hy.
    + exists acc'. cbn [for_each]. unfold Np.set at 1.
      rewrite index_nonneg by exact Hx. cbn [Py.bind].
      split; [exact Hrun|]. rewrite Hlen, Hcnt, set_nth_length.
      rewrite count_true_set_nth by (apply Hfalse; now left).
      simpl. split; lia.
Qed.

(** The indicator of a partition with [n] states and [p] anchor points
    has [n] entries, [p] of them [True]. *)
Lemma indicator_marks (rng : Type) (rng_seed : Z -> rng)
      (rng_sample : rng -> Z -> Z -> list Z * rng) (p n seed : Z)
      (w : world rng) :
  sample_law rng_sample ->
  0 <= p <= n ->
  0 <= seed < 2 ^ 32 ->
  exists mask w',
    _get_not_interpolated_indicator rng rng_seed rng_sample p n seed w
    = Ok (mask, w')
    /\ Np.len mask = n
    /\ Z.of_nat (count_true mask) = p.
Proof.
  intros Hlaw Hp Hseed.
  unfold _get_not_interpolated_indicator, bindM, np_random_seed,
    np_random_choice_without_replacement.
  replace ((0 <=? seed) && (seed <? 2 ^ 32)) with true
    by (symmetry; apply andb_true_intro; split;
        [apply Z.leb_le | apply Z.ltb_lt]; lia).
  cbn [np_random_state].
  replace (p <? 0) with false by (symmetry; apply Z.ltb_ge; lia).
  replace ((n <=? 0) && negb (p =? 0)) with false.
  2:{ symmetry. destruct (n <=? 0) eqn:E; [|reflexivity].
      apply Z.leb_le in E. replace p with 0 by lia. reflexivity. }
  replace (n <? p) with false by (symmetry; apply Z.ltb_ge; lia).
  specialize (Hlaw (rng_seed seed) n p Hp). cbv zeta in Hlaw.
  destruct (rng_sample (rng_seed seed) n p) as [xs g].
  cbn [fst] in Hlaw. destruct Hlaw as (Hlen & Hnd & Hrange).
  unfold lift at 1, np_zeros_bool.
  replace (n <? 0) with false by (symmetry; apply Z.ltb_ge; lia).
  destruct (mark_all xs (repeat false (Z.to_nat n))) as (mask & Hrun & Hl & Hc).
  - exact Hnd.
  - unfold Np.len. rewrite repeat_length, Z2Nat.id by lia. exact Hrange.
  - intros x Hx. rewrite Forall_forall in Hrange. specialize (Hrange x Hx).
    rewrite nth_error_repeat; [reflexivity | lia].
  - unfold lift. rewrite Hrun. eexists. eexists.
    split; [reflexivity|]. unfold Np.len.
    rewrite Hl, Hc, repeat_length. split; [lia|].
    rewrite count_true_repeat_false. lia.
Qed.

(** C9: two calls of [_get_not_interpolated_indicator] with the same
    [interpolation_points], the same [n_states] and the same seed return
    identical boolean arrays (and leave the generator in the same state),
    whatever the state of the global generator, the seed iterator and the
    warnings before each call. *)
Theorem C9_indicator_reproducible
        (rng : Type) (rng_seed : Z -> rng)
        (rng_sample : rng -> Z -> Z -> list Z * rng)
        (interpolation_points n_states seed : Z) (w1 w2 : world rng) :
  value_and_generator
    (_get_not_interpolated_indicator rng rng_seed rng_sample
       interpolation_points n_states seed w1)
  = value_and_generator
      (_get_not_interpolated_indicator rng rng_seed rng_sample
         interpolation_points n_states seed w2).
Proof.
  unfold _get_not_interpolated_indicator, bindM, np_random_seed,
    np_random_choice_without_replacement.
  destruct ((0 <=? seed) && (seed <? 2 ^ 32)); [|reflexivity].
  cbn [np_random_state solution_seed_iteration warnings].
  destruct (interpolation_points <? 0); [reflexivity|].
  destruct ((n_states <=? 0) && negb (interpolation_points =? 0));
    [reflexivity|].
  destruct (n_states <? interpolation_points); [reflexivity|].
  destruct (rng_sample (rng_seed seed) n_states interpolation_points)
    as [xs g].
  unfold lift.
  destruct (np_zeros_bool n_states) as [zeros|e]; [|reflexivity].
  destruct (for_each _ xs zeros); reflexivity.
Qed.

(** *** The allocation of anchor points *)

Lemma for_rangeM_inv {rng S : Type} (P : S -> Prop) (body : S -> M rng S) :
  (forall s w s' w', P s -> body s w = Ok (s', w') -> P s') ->
  forall n s w s' w',
    P s -> for_rangeM rng body n s w = Ok (s', w') -> P s'.
Proof.
  intros Hstep. induction n as [|n IH]; intros s w s' w' Hs H.
  - apply ret_ok in H as [-> _]. exact Hs.
  - cbn [for_rangeM] in H. apply bindM_ok in H as (s1 & w1 & H1 & H2).
    eapply IH; [|exact H2]. eapply Hstep; eassumption.
Qed.

Lemma split_invariant_init (d : Dict.t Z) :
  split_invariant d
    (map (fun kn => (fst kn, if snd kn >? 2 then 2 else snd kn)) d)
    (map (fun n => Z.max (n - 2) 0) (Dict.values d)).
Proof.
  unfold split_invariant, Dict.values.
  rewrite !length_map. repeat split.
  intros i key n Hi.
  exists (if n >? 2 then 2 else n), (Z.max (n - 2) 0).
  rewrite !nth_error_map, Hi. cbn [option_map fst snd].
  repeat split; try lia; destruct (n >? 2) eqn:E;
    rewrite Z.gtb_ltb in E;
    try (apply Z.ltb_lt in E); try (apply Z.ltb_ge in E); lia.
Qed.

Lemma split_invariant_keys (d points : Dict.t Z) (weights : list Z) :
  split_invariant d points weights -> Dict.keys points = Dict.keys d.
Proof.
  intros (Hl1 & _ & Hinv). apply nth_error_ext. intros i.
  unfold Dict.keys. rewrite !nth_error_map.
  destruct (nth_error d i) as [[key n]|] eqn:Hd.
  - destruct (Hinv i key n Hd) as (p & x & Hp & _). now rewrite Hp.
  - apply nth_error_None in Hd. rewrite <- Hl1 in Hd.
    apply nth_error_None in Hd. now rewrite Hd.
Qed.

Lemma np_random_choice_ok (rng : Type)
      (rng_choice : rng -> list Z -> list Z -> Z * rng)
      (a weights : list Z) (w w' : world rng) (key : Z) :
  choice_law rng_choice ->
  length a = length weights ->
  np_random_choice rng rng_choice a weights w = Ok (key, w') ->
  exists pos x,
    nth_error a pos = Some key /\ nth_error weights pos = Some x /\ 0 < x.
Proof.
  intros Hlaw Hlen H. unfold np_random_choice in H.
  destruct (length a =? 0)%nat; [discriminate|].
  destruct (fold_right Z.add 0 weights =? 0) eqn:Hsum; [discriminate|].
  destruct (existsb (fun x => x <? 0) weights) eqn:Hneg; [discriminate|].
  assert (Hnonneg : Forall (fun x => 0 <= x) weights).
  { apply Forall_forall. intros x Hx.
    destruct (Z_lt_le_dec x 0) as [Hlt|Hle]; [|exact Hle].
    assert (existsb (fun x => x <? 0) weights = true).
    { apply existsb_exists. exists x. split; [exact Hx | now apply Z.ltb_lt]. }
    congruence. }
  apply Z.eqb_neq in Hsum.
  destruct (Hlaw (np_random_state rng w) a weights Hlen Hnonneg Hsum)
    as (pos & x & Ha & Hw & Hx).
  destruct (rng_choice (np_random_state rng w) a weights) as [k g].
  injection H as <- _. eauto.
Qed.

(** One draw of the loop keeps the invariant. *)
Lemma split_step (rng : Type)
      (rng_choice : rng -> list Z -> list Z -> Z * rng)
      (d points : Dict.t Z) (weights : list Z) (dense_indices : list Z)
      (w w1 : world rng) (dense_key p pos x : Z) (weights' : list Z) :
  choice_law rng_choice ->
  NoDup (Dict.keys d) ->
  dense_indices = Dict.keys d ->
  split_invariant d points weights ->
  np_random_choice rng rng_choice (Dict.keys d) weights w = Ok (dense_key, w1) ->
  Dict.get points dense_key = Ok p ->
  list_index dense_indices dense_key = Ok pos ->
  Np.get weights pos = Ok x ->
  Np.set weights pos (x - 1) = Ok weights' ->
  split_invariant d (Dict.set points dense_key (p + 1)) weights'.
Proof.
  intros Hlaw Hnd -> Hinv Hchoice Hget Hidx Hx Hset.
  pose proof (split_invariant_keys _ _ _ Hinv) as Hkeys.
  destruct Hinv as (Hl1 & Hl2 & Hinv).
  assert (Hlen : length (Dict.keys d) = length weights).
  { unfold Dict.keys. rewrite length_map. symmetry. exact Hl2. }
  destruct (np_random_choice_ok _ _ _ _ _ _ _ Hlaw Hlen Hchoice)
    as (i & x0 & Hki & Hwi & Hpos).
  unfold Dict.keys in Hki. rewrite nth_error_map in Hki.
  destruct (nth_error d i) as [[key n]|] eqn:Hdi; [|discriminate].
  cbn in Hki. injection Hki as ->.
  destruct (Hinv i dense_key n Hdi) as (p0 & x1 & Hpi & Hwi' & Hal).
  rewrite Hwi in Hwi'. injection Hwi' as <-.
  assert (Hndp : NoDup (Dict.keys points)) by (rewrite Hkeys; exact Hnd).
  rewrite (dict_get_nth _ _ _ _ Hndp Hpi) in Hget. injection Hget as <-.
  rewrite (dict_set_nth _ _ _ _ (p0 + 1) Hndp Hpi).
  assert (Hk : nth_error (Dict.keys d) i = Some dense_key).
  { unfold Dict.keys. now rewrite nth_error_map, Hdi. }
  rewrite (list_index_nth _ _ _ Hnd Hk) in Hidx. injection Hidx as <-.
  rewrite (get_nonneg _ _ _ Hwi) in Hx. injection Hx as <-.
  unfold Np.set in Hset. rewrite index_nonneg in Hset.
  2:{ unfold Np.len. assert (i < length weights)%nat
        by (apply nth_error_Some; congruence). lia. }
  cbn [Py.bind] in Hset. injection Hset as <-. rewrite Nat2Z.id.
  unfold split_invariant. rewrite !set_nth_length.
  split; [exact Hl1|]. split; [exact Hl2|].
  intros j key' n' Hdj.
  destruct (Nat.eq_dec i j) as [<-|Hij].
  - rewrite Hdi in Hdj. injection Hdj as <- <-.
    exists (p0 + 1), (x0 - 1).
    rewrite !nth_error_set_nth_same
      by (apply nth_error_Some; congruence).
    repeat split; unfold allocated in Hal; lia.
  - destruct (Hinv j key' n' Hdj) as (p' & x' & Hp' & Hx' & Hal').
    exists p', x'. rewrite !nth_error_set_nth_other by exact Hij. auto.
Qed.

Lemma split_allocation (rng : Type) (rng_seed : Z -> rng)
      (rng_choice : rng -> list Z -> list Z -> Z * rng)
      (d : Dict.t Z) (period : Z) (opts : options) (w w' : world rng)
      (alloc : Dict.t Z) :
  choice_law rng_choice ->
  NoDup (Dict.keys d) ->
  _split_interpolation_points_evenly rng rng_seed rng_choice d period opts w
  = Ok (alloc, w') ->
  exists weights, split_invariant d alloc weights.
Proof.
  intros Hlaw Hnd H. unfold _split_interpolation_points_evenly in H.
  inv_bindM H. inv_bindM H. inv_bindM H. inv_bindM H.
  exists (snd (fst a)).
  destruct (interpolation_points opts - 2 * Np.len d >? 0).
  - inv_bindM Ha. inv_bindM Ha.
    revert Ha.
    apply (for_rangeM_inv
             (fun st => split_invariant d (fst (fst st)) (snd (fst st)))).
    + intros s ws s' ws' Hs Hbody.
      inv_bindMs. cbn [fst snd].
      eapply split_step;
        [exact Hlaw | exact Hnd | | exact Hs
         | eassumption | eassumption | eassumption | eassumption | eassumption].
      unfold Dict.keys. rewrite map_map. reflexivity.
    + apply split_invariant_init.
  - inv_bindM Ha. apply split_invariant_init.
Qed.

(** *** The sample generator obeys the laws *)

Lemma nth_error_combine_pair {A B : Type} (a : list A) (b : list B) (i : nat) :
  nth_error (combine a b) i
  = match nth_error a i, nth_error b i with
    | Some x, Some y => Some (x, y)
    | _, _ => None
    end.
Proof.
  revert b i. induction a as [|x a IH]; intros [|y b] [|i]; simpl; auto.
  destruct (nth_error a i); reflexivity.
Qed.

Lemma positive_weight (weights : list Z) :
  Forall (fun x => 0 <= x) weights ->
  fold_right Z.add 0 weights <> 0 ->
  exists i x, nth_error weights i = Some x /\ 0 < x.
Proof.
  induction weights as [|y weights IH]; simpl; intros Hnn Hsum; [lia|].
  inversion Hnn as [|? ? Hy Hnn']; subst.
  destruct (Z.eq_dec y 0) as [->|Hy0].
  - destruct (IH Hnn') as (i & x & Hi & Hx); [lia|]. now exists (S i), x.
  - exists 0%nat, y. split; [reflexivity | lia].
Qed.

Lemma last_positive_fold (l : list (Z * Z)) (acc : Z) :
  (exists i k x, nth_error l i = Some (k, x) /\ 0 < x) ->
  exists i x,
    nth_error l i
    = Some (fold_left (fun acc kw => if 0 <? snd kw then fst kw else acc) l acc,
            x)
    /\ 0 < x.
Proof.
  induction l as [|[k x] l IH] using rev_ind; intros (i & k' & x' & Hi & Hx).
  - destruct i; discriminate.
  - rewrite fold_left_app. cbn [fold_left fst snd].
    destruct (0 <? x) eqn:E.
    + apply Z.ltb_lt in E. exists (length l), x.
      rewrite nth_error_app2, Nat.sub_diag by lia. auto.
    + apply Z.ltb_ge in E.
      assert (Hil : (i < length l)%nat).
      { destruct (Nat.lt_ge_cases i (length l)) as [Hlt|Hge]; [exact Hlt|].
        rewrite nth_error_app2 in Hi by exact Hge.
        destruct (i - length l)%nat as [|j]; simpl in Hi.
        - injection Hi as <- <-. lia.
        - destruct j; discriminate. }
      rewrite nth_error_app1 in Hi by exact Hil.
      destruct IH as (j & y & Hj & Hy); [eauto|].
      exists j, y. split; [|exact Hy].
      rewrite nth_error_app1; [exact Hj|].
      apply nth_error_Some. congruence.
Qed.

Lemma sample_rng_choice_law : choice_law sample_rng_choice.
Proof.
  intros g a weights Hlen Hnn Hsum.
  destruct (positive_weight weights Hnn Hsum) as (i & x & Hi & Hx).
  destruct (nth_error a i) as [k|] eqn:Ha.
  2:{ apply nth_error_None in Ha.
      assert (i < length weights)%nat by (apply nth_error_Some; congruence).
      lia. }
  destruct (last_positive_fold (combine a weights) 0) as (j & y & Hj & Hy).
  { exists i, k, x. now rewrite nth_error_combine_pair, Ha, Hi. }
  rewrite nth_error_combine_pair in Hj.
  destruct (nth_error a j) as [kj|] eqn:Haj; [|discriminate].
  destruct (nth_error weights j) as [xj|] eqn:Hwj; [|discriminate].
  injection Hj as Hk <-.
  exists j, xj. cbn [sample_rng_choice fst]. unfold last_positive.
  rewrite <- Hk. auto.
Qed.

Lemma sample_rng_sample_law : sample_law sample_rng_sample.
Proof.
  intros g n k Hk. cbn [sample_rng_sample fst].
  rewrite length_map, length_seq. split; [lia|]. split.
  - apply Injective_map_NoDup; [|apply seq_NoDup].
    intros x y. apply Nat2Z.inj.
  - apply Forall_forall. intros x Hx.
    apply in_map_iff in Hx as (i & <- & Hi). apply in_seq in Hi. lia.
Qed.

(** *** The split returns when there are states left to draw *)

Lemma sum_set_nth (l : list Z) (i : nat) (x y : Z) :
  nth_error l i = Some x ->
  fold_right Z.add 0 (Np.set_nth l i y) = fold_right Z.add 0 l - x + y.
Proof.
  revert i. induction l as [|z l IH]; intros [|i] H; simpl in *;
    try discriminate.
  - injection H as ->. lia.
  - rewrite (IH i H). lia.
Qed.

Lemma dict_get_in {V : Type} (l : Dict.t V) (k : Z) :
  In k (Dict.keys l) -> exists v, Dict.get l k = Ok v.
Proof.
  induction l as [|[k' v'] l IH]; simpl; [contradiction|].
  intros [->|Hin].
  - rewrite Z.eqb_refl. eauto.
  - destruct (k' =? k); [eauto | auto].
Qed.

Lemma split_invariant_nonneg (d points : Dict.t Z) (weights : list Z) :
  split_invariant d points weights -> Forall (fun x => 0 <= x) weights.
Proof.
  intros (_ & Hl & Hinv). apply Forall_forall. intros x Hx.
  apply In_nth_error in Hx as [i Hi].
  assert (Hil : (i < length d)%nat)
    by (rewrite <- Hl; apply nth_error_Some; congruence).
  destruct (nth_error d i) as [[key n]|] eqn:Hd.
  2:{ apply nth_error_None in Hd. lia. }
  destruct (Hinv i key n Hd) as (p & x' & _ & Hw & Hal & _).
  congruence.
Qed.

Section Returns.

Variable rng : Type.
Variable rng_seed : Z -> rng.
Variable rng_choice : rng -> list Z -> list Z -> Z * rng.
Variable d : Dict.t Z.

Hypothesis Hlaw : choice_law rng_choice.
Hypothesis Hnd : NoDup (Dict.keys d).

(** The state of the drawing loop: the allocation, the states left to
    draw from, and [dense_key], bound to a partition with more than two
    states once a draw has been made. *)
Let loop_state : Type := (Dict.t Z * list Z * option Z)%type.

Let good (st : loop_state) : Prop :=
  split_invariant d (fst (fst st)) (snd (fst st))
  /\ match snd st with
     | None => True
     | Some key => exists n, Dict.get d key = Ok n /\ 2 < n
     end.

Let body (st : loop_state) : M rng loop_state :=
  let points := fst (fst st) in
  let n_states := snd (fst st) in
  bindM rng (np_random_choice rng rng_choice (Dict.keys d) n_states)
    (fun dense_key =>
       bindM rng (lift rng (Dict.get points dense_key))
         (fun p =>
            let points := Dict.set points dense_key (p + 1) in
            bindM rng (lift rng (list_index (Dict.keys d) dense_key))
              (fun pos =>
                 bindM rng (lift rng (Np.get n_states pos))
                   (fun x =>
                      bindM rng (lift rng (Np.set n_states pos (x - 1)))
                        (fun n_states =>
                           ret rng (points, n_states, Some dense_key)))))).

Lemma body_progress (st : loop_state) (w : world rng) :
  good st ->
  0 < fold_right Z.add 0 (snd (fst st)) ->
  exists st' w',
    body st w = Ok (st', w')
    /\ good st'
    /\ fold_right Z.add 0 (snd (fst st'))
       = fold_right Z.add 0 (snd (fst st)) - 1
    /\ snd st' <> None.
Proof.
  destruct st as [[points weights] dk]. unfold good. cbn [fst snd].
  intros [Hinv _] Hsum.
  pose proof (split_invariant_nonneg _ _ _ Hinv) as Hnn.
  pose proof (split_invariant_keys _ _ _ Hinv) as Hkeys.
  pose proof Hinv as (Hl1 & Hl2 & Hpt).
  assert (Hlen : length (Dict.keys d) = length weights).
  { unfold Dict.keys. rewrite length_map. congruence. }
  destruct (Hlaw (np_random_state rng w) (Dict.keys d) weights Hlen Hnn
                 ltac:(lia)) as (i & x & Hki & Hwi & Hx).
  unfold body. cbn [fst snd].
  unfold bindM at 1. unfold np_random_choice.
  replace (length (Dict.keys d) =? 0)%nat with false.
  2:{ symmetry. apply Nat.eqb_neq. intros E. rewrite E in Hlen.
      destruct weights; [simpl in Hsum; lia | discriminate]. }
  replace (fold_right Z.add 0 weights =? 0) with false
    by (symmetry; apply Z.eqb_neq; lia).
  replace (existsb (fun x => x <? 0) weights) with false.
  2:{ symmetry. apply not_true_is_false. intros E.
      apply existsb_exists in E as (y & Hy & Hneg).
      rewrite Forall_forall in Hnn. specialize (Hnn y Hy).
      apply Z.ltb_lt in Hneg. lia. }
  destruct (rng_choice (np_random_state rng w) (Dict.keys d) weights)
    as [key g] eqn:Hch.
  cbn [fst] in Hki.
  set (w1 := {| np_random_state := g;
                solution_seed_iteration := solution_seed_iteration rng w;
                warnings := warnings rng w |}).
  pose proof Hki as Hki'. unfold Dict.keys in Hki'.
  rewrite nth_error_map in Hki'.
  destruct (nth_error d i) as [[key' n]|] eqn:Hdi; [|discriminate].
  cbn in Hki'. injection Hki' as ->.
  destruct (Hpt i key n Hdi) as (p0 & x' & Hpi & Hwi' & Hal).
  rewrite Hwi in Hwi'. injection Hwi' as <-.
  assert (Hndp : NoDup (Dict.keys points)) by (rewrite Hkeys; exact Hnd).
  assert (Hil : (i < length weights)%nat)
    by (apply nth_error_Some; congruence).
  assert (Hset : Np.set weights (Z.of_nat i) (x - 1)
                 = Ok (Np.set_nth weights i (x - 1))).
  { unfold Np.set. rewrite index_nonneg by (unfold Np.len; lia).
    cbn [Py.bind]. now rewrite Nat2Z.id. }
  unfold bindM, lift.
  rewrite (dict_get_nth _ _ _ _ Hndp Hpi).
  rewrite (list_index_nth _ _ _ Hnd Hki).
  rewrite (get_nonneg _ _ _ Hwi), Hset.
  eexists. eexists. split; [reflexivity|]. cbn [fst snd].
  split; [split|split].
  - unfold good. cbn [fst snd].
    eapply (split_step rng rng_choice d points weights (Dict.keys d) w w1).
    + exact Hlaw.
    + exact Hnd.
    + reflexivity.
    + exact Hinv.
    + unfold np_random_choice.
      replace (length (Dict.keys d) =? 0)%nat with false.
      2:{ symmetry. apply Nat.eqb_neq. intros E. rewrite E in Hlen.
          destruct weights; [simpl in Hsum; lia | discriminate]. }
      replace (fold_right Z.add 0 weights =? 0) with false
        by (symmetry; apply Z.eqb_neq; lia).
      replace (existsb (fun x => x <? 0) weights) with false.
      2:{ symmetry. apply not_true_is_false. intros E.
          apply existsb_exists in E as (y & Hy & Hneg).
          rewrite Forall_forall in Hnn. specialize (Hnn y Hy).
          apply Z.ltb_lt in Hneg. lia. }
      rewrite Hch. reflexivity.
    + apply (dict_get_nth _ _ _ _ Hndp Hpi).
    + apply (list_index_nth _ _ _ Hnd Hki).
    + apply (get_nonneg _ _ _ Hwi).
    + exact Hset.
  - exists n. split; [apply (dict_get_nth _ _ _ _ Hnd Hdi)|].
    unfold allocated in Hal. lia.
  - rewrite (sum_set_nth _ _ _ _ Hwi). lia.
  - discriminate.
Qed.

Lemma loop_progress (k : nat) :
  forall (st : loop_state) (w : world rng),
    good st ->
    Z.of_nat k <= fold_right Z.add 0 (snd (fst st)) ->
    exists st' w',
      for_rangeM rng body k st w = Ok (st', w')
      /\ good st'
      /\ ((0 < k)%nat -> snd st' <> None).
Proof.
  induction k as [|k IH]; intros st w Hg Hsum.
  - exists st, w. split; [reflexivity|]. split; [exact Hg | lia].
  - destruct (body_progress st w Hg ltac:(lia))
      as (st1 & w1 & Hb & Hg1 & Hs1 & Hdk).
    destruct (IH st1 w1 Hg1 ltac:(lia)) as (st' & w' & Hloop & Hg' & Hdk').
    exists st', w'. cbn [for_rangeM]. unfold bindM at 1. rewrite Hb.
    split; [exact Hloop|]. split; [exact Hg'|].
    intros _. destruct k as [|k'].
    + cbn [for_rangeM] in Hloop. injection Hloop as <- _. exact Hdk.
    + apply Hdk'. lia.
Qed.

(** The body of the comprehension that computes the shares, with
    [dense_key] bound. *)
Let share_body (points : Dict.t Z) (key : Z)
    (dense_index : Z) (share : Dict.t float) : M rng (Dict.t float) :=
  match Some key with
  | None => raise rng NameError
  | Some dense_key =>
      bindM rng (lift rng (Dict.get points dense_index))
        (fun p =>
           bindM rng (lift rng (Dict.get d dense_key))
             (fun n =>
                bindM rng (lift rng (int_truediv p n))
                  (fun v => ret rng (Dict.set share dense_key v))))
  end.

Lemma share_loop_returns (points : Dict.t Z) (key n : Z) :
  Dict.get d key = Ok n -> 2 < n ->
  forall (ks : list Z) (share : Dict.t float) (w : world rng),
    (forall k, In k ks -> In k (Dict.keys points)) ->
    exists share',
      for_eachM rng (share_body points key) ks share w = Ok (share', w).
Proof.
  intros Hkey Hn. induction ks as [|k ks IH]; intros share w Hin.
  - exists share. reflexivity.
  - destruct (dict_get_in points k) as [p Hp]; [apply Hin; now left|].
    assert (Hstep : exists v,
               share_body points key k share w
               = Ok (Dict.set share key v, w)).
    { unfold share_body, bindM, lift, int_truediv, ret.
      rewrite Hp, Hkey.
      replace (n =? 0) with false by (symmetry; apply Z.eqb_neq; lia).
      eauto. }
    destruct Hstep as [v Hstep].
    cbn [for_eachM]. unfold bindM at 1. rewrite Hstep.
    apply IH. intros k' Hk'. apply Hin. now right.
Qed.

(** With a budget above twice the number of partitions, a seed at hand
    and at least as many states beyond the first two of each partition as
    surplus points, the function returns. *)
Lemma _split_interpolation_points_evenly_returns
      (period : Z) (opts : options) (w : world rng) (seed : Z)
      (rest : list Z) :
  let surplus := interpolation_points opts - 2 * Np.len d in
  0 < surplus ->
  surplus
  <= fold_right Z.add 0 (map (fun n => Z.max (n - 2) 0) (Dict.values d)) ->
  solution_seed_iteration rng w = seed :: rest ->
  0 <= seed < 2 ^ 32 ->
  exists alloc w',
    _split_interpolation_points_evenly rng rng_seed rng_choice d period opts w
    = Ok (alloc, w').
Proof.
  intros surplus Hpos Hle Hseeds Hseed.
  unfold _split_interpolation_points_evenly. fold surplus.
  replace (surplus >? 0) with true
    by (symmetry; rewrite Z.gtb_ltb; apply Z.ltb_lt; lia).
  assert (Hk : Dict.keys
                 (map (fun kn : Z * Z =>
                         (fst kn, if snd kn >? 2 then 2 else snd kn)) d)
               = Dict.keys d).
  { unfold Dict.keys. rewrite map_map. reflexivity. }
  rewrite Hk.
  unfold bindM at 1. unfold bindM at 1. unfold next_seed at 1.
  rewrite Hseeds. unfold bindM at 1, np_random_seed at 1.
  replace ((0 <=? seed) && (seed <? 2 ^ 32)) with true
    by (symmetry; apply andb_true_intro; split;
        [apply Z.leb_le | apply Z.ltb_lt]; lia).
  match goal with
  | |- context [for_rangeM rng ?b ?k ?st ?w0] =>
      set (r := for_rangeM rng b k st w0);
      destruct (loop_progress (Z.to_nat surplus) st w0)
        as (st' & w' & Hloop & Hgood & Hdk)
  end.
  { split; [apply split_invariant_init | exact I]. }
  { cbn [fst snd]. lia. }
  assert (Hr : r = Ok (st', w')) by exact Hloop.
  rewrite Hr. clear r Hr Hloop.
  destruct st' as [[points weights] [key|]]; [|exfalso; apply Hdk; [lia|reflexivity]].
  destruct Hgood as [Hinv (n & Hkey & Hn)]. cbn [fst snd] in *.
  destruct (share_loop_returns points key n Hkey Hn (Dict.keys d) [] w')
    as [share Hshare].
  { intros k Hin. now rewrite (split_invariant_keys _ _ _ Hinv). }
  unfold share_body in Hshare. unfold bindM at 1. rewrite Hshare.
  unfold bindM at 1.
  destruct (existsb _ (Dict.values share)); eexists; eexists; reflexivity.
Qed.

End Returns.

(** C5: whenever [_split_interpolation_points_evenly] returns an
    allocation, every dense partition with a state count of at least 2 is
    allocated at least 2 anchor states and a partition with fewer than 2
    states has all of its states designated as anchors; and the indicator
    that [_get_not_interpolated_indicator] builds for the partition marks
    exactly the allocated number of states as [True]. *)
Theorem C5_anchor_allocation
        (rng : Type) (rng_seed : Z -> rng)
        (rng_choice : rng -> list Z -> list Z -> Z * rng)
        (rng_sample : rng -> Z -> Z -> list Z * rng)
        (dense_key_to_n_states : Dict.t Z) (period : Z) (opts : options)
        (w w' : world rng) (alloc : Dict.t Z) :
  choice_law rng_choice ->
  sample_law rng_sample ->
  NoDup (Dict.keys dense_key_to_n_states) ->
  Forall (fun n => 0 <= n) (Dict.values dense_key_to_n_states) ->
  _split_interpolation_points_evenly rng rng_seed rng_choice
    dense_key_to_n_states period opts w = Ok (alloc, w') ->
  Dict.keys alloc = Dict.keys dense_key_to_n_states
  /\ forall dense_key n_states,
      Dict.get dense_key_to_n_states dense_key = Ok n_states ->
      exists points,
        Dict.get alloc dense_key = Ok points
        /\ (2 <= n_states -> 2 <= points)
        /\ (n_states < 2 -> points = n_states)
        /\ forall seed wi,
            0 <= seed < 2 ^ 32 ->
            exists not_interpolated wi',
              _get_not_interpolated_indicator rng rng_seed rng_sample
                points n_states seed wi = Ok (not_interpolated, wi')
              /\ Np.len not_interpolated = n_states
              /\ Z.of_nat (count_true not_interpolated) = points.
Proof.
  intros Hchoice Hsample Hnd Hnn H.
  destruct (split_allocation _ _ _ _ _ _ _ _ _ Hchoice Hnd H)
    as (weights & Hinv).
  pose proof (split_invariant_keys _ _ _ Hinv) as Hkeys.
  split; [exact Hkeys|].
  intros dense_key n_states Hget.
  apply dict_get_inv in Hget as (i & Hi).
  destruct Hinv as (_ & _ & Hinv).
  destruct (Hinv i dense_key n_states Hi) as (p & x & Hp & _ & Hal).
  assert (Hn : 0 <= n_states).
  { rewrite Forall_forall in Hnn. apply Hnn.
    apply nth_error_In in Hi. now apply (in_map snd) in Hi. }
  exists p. unfold allocated in Hal.
  split; [|split; [lia | split; [lia|]]].
  - apply (dict_get_nth _ i); [rewrite Hkeys; exact Hnd | exact Hp].
  - intros seed wi Hseed.
    apply indicator_marks; [exact Hsample | lia | exact Hseed].
Qed.

Lemma C5_anchor_allocation_witness :
  Dict.keys [(0, 2); (1, 3); (2, 1)] = Dict.keys [(0, 300); (1, 100); (2, 1)]
  /\ forall dense_key n_states,
      Dict.get [(0, 300); (1, 100); (2, 1)] dense_key = Ok n_states ->
      exists points,
        Dict.get [(0, 2); (1, 3); (2, 1)] dense_key = Ok points
        /\ (2 <= n_states -> 2 <= points)
        /\ (n_states < 2 -> points = n_states)
        /\ forall seed wi,
            0 <= seed < 2 ^ 32 ->
            exists not_interpolated wi',
              indicator_sample points n_states seed wi
              = Ok (not_interpolated, wi')
              /\ Np.len not_interpolated = n_states
              /\ Z.of_nat (count_true not_interpolated) = points.
Proof.
  apply (C5_anchor_allocation unit sample_rng_seed sample_rng_choice
           sample_rng_sample [(0, 300); (1, 100); (2, 1)] 7
           {| interpolation_points := 7 |} (sample_world [42])
           (sample_world [])).
  - exact sample_rng_choice_law.
  - exact sample_rng_sample_law.
  - repeat constructor; simpl; intuition discriminate.
  - repeat constructor; discriminate.
  - vm_compute. reflexivity.
Defined.

(** C8: evaluation of the code where the warning is missed.  With the
    partitions [{0: 300, 1: 100}], a budget of 5 and the one surplus point
    drawn for partition 1, the allocation is [{0: 2, 1: 3}]: partition 0
    holds 2 anchors for 300 states, a share below 1%, but the function
    returns without a warning, because the only share it computes is
    [points[1] / n_states[1] = 0.03], stored under the key drawn last. *)
Theorem C8_low_share_without_warning :
  split_sample [(0, 300); (1, 100)] 7 {| interpolation_points := 5 |}
               (sample_world [42])
  = Ok ([(0, 2); (1, 3)], sample_world [])
  /\ (exists share, int_truediv 2 300 = Ok share
                    /\ F64.ltb share one_percent = true).
Proof.
  split; [vm_compute; reflexivity|].
  eexists. split; [reflexivity | vm_compute; reflexivity].
Qed.

(** The same slip the other way round: with the partitions
    [{0: 250, 1: 2}] and a budget of 5 the surplus point can only go to
    partition 0; the shares are [3 / 250 = 1.2%] and [2 / 2], none below 1%,
    yet the function warns, because it computes [points[1] / n_states[0] =
    2 / 250]. *)
Lemma C8_warning_without_low_share :
  split_sample [(0, 250); (1, 2)] 7 {| interpolation_points := 5 |}
               (sample_world [42])
  = Ok ([(0, 3); (1, 2)],
        {| np_random_state := tt;
           solution_seed_iteration := [];
           warnings := [LowShareWarning 7] |})
  /\ (exists s0 s1,
         int_truediv 3 250 = Ok s0 /\ int_truediv 2 2 = Ok s1
         /\ F64.ltb s0 one_percent = false
         /\ F64.ltb s1 one_percent = false).
Proof.
  split; [vm_compute; reflexivity|].
  eexists. eexists. repeat split; vm_compute; reflexivity.
Qed.

(** *** Boolean masks *)

Lemma count_true_cons (b : bool) (mask : list bool) :
  count_true (b :: mask) = ((if b then 1 else 0) + count_true mask)%nat.
Proof. unfold count_true. destruct b; reflexivity. Qed.

Lemma rank_S (b : bool) (mask : list bool) (i : nat) :
  rank (b :: mask) (S i) = ((if b then 1 else 0) + rank mask i)%nat.
Proof. unfold rank. cbn [firstn]. apply count_true_cons. Qed.

Lemma mask_select_inv {A : Type} (a : list A) (mask : list bool) (m : list A) :
  mask_select a mask = Ok m ->
  length a = length mask /\ m = map fst (filter snd (combine a mask)).
Proof.
  unfold mask_select. destruct (length a =? length mask)%nat eqn:E;
    [|discriminate].
  apply Nat.eqb_eq in E. intros [= <-]. auto.
Qed.

Lemma selected_length {A : Type} (a : list A) (mask : list bool) :
  length a = length mask ->
  length (map fst (filter snd (combine a mask))) = count_true mask.
Proof.
  revert a. induction mask as [|b mask IH]; intros [|x a] H;
    simpl in *; try discriminate; try reflexivity.
  rewrite count_true_cons.
  destruct b; simpl; rewrite IH by lia; reflexivity.
Qed.

Lemma selected_nth {A : Type} (a : list A) (mask : list bool) (i : nat) :
  length a = length mask ->
  nth_error mask i = Some true ->
  nth_error (map fst (filter snd (combine a mask))) (rank mask i)
  = nth_error a i.
Proof.
  revert a i. induction mask as [|b mask IH]; intros [|x a] [|i] Hl Hi;
    simpl in *; try discriminate.
  - injection Hi as ->. reflexivity.
  - rewrite rank_S. destruct b; simpl; apply IH; auto; lia.
Qed.

Lemma mask_assign_values_true (a : list float) (mask : list bool)
      (vals : list float) (i : nat) :
  length a = length mask ->
  (count_true mask <= length vals)%nat ->
  nth_error mask i = Some true ->
  nth_error (mask_assign_values a mask vals) i = nth_error vals (rank mask i).
Proof.
  revert a vals i.
  induction mask as [|b mask IH]; intros [|x a] vals [|i] Hl Hc Hi;
    simpl in *; try discriminate.
  - injection Hi as ->. rewrite count_true_cons in Hc.
    destruct vals; simpl in *; [lia | reflexivity].
  - rewrite rank_S. rewrite count_true_cons in Hc.
    destruct b.
    + destruct vals as [|v vals]; simpl in *; [lia|].
      apply IH; auto; lia.
    + simpl. apply IH; auto; lia.
Qed.

Lemma mask_assign_values_false (a : list float) (mask : list bool)
      (vals : list float) (i : nat) :
  nth_error mask i = Some false ->
  nth_error (mask_assign_values a mask vals) i = nth_error a i.
Proof.
  revert a vals i.
  induction mask as [|b mask IH]; intros [|x a] vals [|i] Hi;
    simpl in *; try discriminate; try reflexivity.
  - injection Hi as ->. reflexivity.
  - destruct b; [destruct vals|]; simpl; apply IH; exact Hi.
Qed.

Lemma nth_error_combine_map {A B C : Type} (f : A -> B -> C)
      (xs : list A) (ys : list B) (i : nat) (x : A) (y : B) :
  nth_error xs i = Some x -> nth_error ys i = Some y ->
  nth_error (map (fun xy => f (fst xy) (snd xy)) (combine xs ys)) i
  = Some (f x y).
Proof.
  intros Hx Hy. rewrite nth_error_map, nth_error_combine_pair, Hx, Hy.
  reflexivity.
Qed.

(** What [_predict_with_linear_model] computes, step by step. *)
Lemma _predict_with_linear_model_inv
      (rng : Type)
      (ols : list float -> list (list float) -> result (list float))
      (np_dot : list (list float) -> list float -> result (list float))
      endogenous exogenous max_value_functions not_interpolated
      (w w' : world rng) predictions :
  _predict_with_linear_model rng ols np_dot endogenous exogenous
    max_value_functions not_interpolated w = Ok (predictions, w') ->
  exists x beta gap before values,
    mask_select exogenous not_interpolated = Ok x
    /\ ols endogenous x = Ok beta
    /\ np_dot exogenous beta = Ok gap
    /\ broadcast2 F64.add (map clip_at_zero gap) max_value_functions
       = Ok before
    /\ length max_value_functions = length not_interpolated
    /\ broadcast2 F64.add endogenous
         (map fst (filter snd (combine max_value_functions not_interpolated)))
       = Ok values
    /\ mask_assign before not_interpolated values = Ok predictions.
Proof.
  intros H. unfold _predict_with_linear_model in H.
  inv_bindMs.
  match goal with
  | Hm : mask_select max_value_functions _ = Ok _ |- _ =>
      apply mask_select_inv in Hm as (Hlen & ->)
  end.
  eauto 12.
Qed.

Lemma broadcast2_same_length (f : float -> float -> float)
      (xs ys zs : list float) :
  length xs = length ys ->
  broadcast2 f xs ys = Ok zs ->
  zs = map (fun xy => f (fst xy) (snd xy)) (combine xs ys).
Proof.
  intros Hl. unfold broadcast2.
  replace (length xs =? length ys)%nat with true
    by (symmetry; now apply Nat.eqb_eq).
  now intros [= <-].
Qed.

Lemma mask_assign_inv (a : list float) (mask : list bool)
      (vals out : list float) :
  length vals = count_true mask ->
  mask_assign a mask vals = Ok out ->
  length a = length mask /\ out = mask_assign_values a mask vals.
Proof.
  intros Hl. unfold mask_assign.
  destruct (length a =? length mask)%nat eqn:E; [|discriminate].
  apply Nat.eqb_eq in E. cbn [negb].
  replace (length vals =? count_true mask)%nat with true
    by (symmetry; now apply Nat.eqb_eq).
  intros [= <-]. auto.
Qed.

(** The value of an anchor state is the item of [endogenous] that belongs
    to the state plus its maximum value function. *)
Lemma _predict_with_linear_model_anchor
        (rng : Type)
        (ols : list float -> list (list float) -> result (list float))
        (np_dot : list (list float) -> list float -> result (list float))
        endogenous exogenous max_value_functions not_interpolated
        (w w' : world rng) predictions (i : nat) :
  _predict_with_linear_model rng ols np_dot endogenous exogenous
    max_value_functions not_interpolated w = Ok (predictions, w') ->
  length endogenous = count_true not_interpolated ->
  nth_error not_interpolated i = Some true ->
  exists e m,
    nth_error endogenous (rank not_interpolated i) = Some e
    /\ nth_error max_value_functions i = Some m
    /\ nth_error predictions i = Some (F64.add e m).
Proof.
  intros H Hlen Hi.
  apply _predict_with_linear_model_inv in H
    as (x & beta & gap & before & values & _ & _ & _ & _ & Hm & Hv & Ha).
  pose proof (selected_length max_value_functions not_interpolated Hm) as Hsl.
  apply broadcast2_same_length in Hv; [|congruence]. subst values.
  apply mask_assign_inv in Ha as (Hb & ->).
  2:{ rewrite length_map, length_combine, Hsl, Hlen. apply Nat.min_id. }
  destruct (nth_error max_value_functions i) as [m|] eqn:Hmi.
  2:{ apply nth_error_None in Hmi.
      assert (i < length not_interpolated)%nat
        by (apply nth_error_Some; congruence). lia. }
  pose proof (selected_nth max_value_functions _ _ Hm Hi) as Hsel.
  rewrite Hmi in Hsel.
  destruct (nth_error endogenous (rank not_interpolated i)) as [e|] eqn:He.
  2:{ apply nth_error_None in He.
      assert (rank not_interpolated i
              < length (map fst (filter snd
                          (combine max_value_functions not_interpolated))))%nat
        by (apply nth_error_Some; congruence). lia. }
  exists e, m. repeat split.
  rewrite mask_assign_values_true; [| exact Hb | | exact Hi].
  - apply nth_error_combine_map; assumption.
  - rewrite length_map, length_combine, Hsl, Hlen, Nat.min_id. lia.
Qed.

(** The regression target of the anchor states: the simulated expected
    value function minus the maximum value function of the state, provided
    the simulation routine returns one value per state it is given. *)
Lemma _compute_lhs_variable_anchor
      (calculate_expected_value_functions :
         list (list float) -> list (list float) -> list (list float) ->
         list (list float) -> float -> result (list float))
      wages nonpec continuation_values max_value_functions not_interpolated
      draws delta endogenous (i : nat) :
  (forall w n c evf,
      calculate_expected_value_functions w n c draws delta = Ok evf ->
      length evf = length w) ->
  _compute_lhs_variable calculate_expected_value_functions wages nonpec
    continuation_values max_value_functions not_interpolated draws delta
  = Ok endogenous ->
  nth_error not_interpolated i = Some true ->
  length endogenous = count_true not_interpolated
  /\ exists w n c evf v m,
      mask_select wages not_interpolated = Ok w
      /\ mask_select nonpec not_interpolated = Ok n
      /\ mask_select continuation_values not_interpolated = Ok c
      /\ calculate_expected_value_functions w n c draws delta = Ok evf
      /\ nth_error evf (rank not_interpolated i) = Some v
      /\ nth_error max_value_functions i = Some m
      /\ nth_error endogenous (rank not_interpolated i) = Some (F64.sub v m).
Proof.
  intros Hcalc H Hi. unfold _compute_lhs_variable in H.
  apply bind_ok in H as (ws & Hw & H). apply bind_ok in H as (n & Hn & H).
  apply bind_ok in H as (c & Hc & H). apply bind_ok in H as (evf & He & H).
  apply bind_ok in H as (m & Hm & H).
  apply mask_select_inv in Hm as (Hml & ->).
  pose proof (selected_length max_value_functions not_interpolated Hml) as Hsl.
  pose proof (selected_nth max_value_functions _ _ Hml Hi) as Hsel.
  pose proof (Hcalc _ _ _ _ He) as Hel.
  pose proof Hw as Hw'. apply mask_select_inv in Hw' as (Hwl & Hws).
  rewrite Hws, (selected_length wages not_interpolated Hwl) in Hel.
  destruct (nth_error max_value_functions i) as [mi|] eqn:Hmi.
  2:{ apply nth_error_None in Hmi.
      assert (i < length not_interpolated)%nat
        by (apply nth_error_Some; congruence). lia. }
  assert (Hr : (rank not_interpolated i < count_true not_interpolated)%nat).
  { rewrite <- Hsl. apply nth_error_Some. congruence. }
  apply broadcast2_same_length in H; [|congruence]. subst endogenous.
  split.
  { rewrite length_map, length_combine, Hsl, Hel. apply Nat.min_id. }
  destruct (nth_error evf (rank not_interpolated i)) as [v|] eqn:Hv.
  2:{ apply nth_error_None in Hv. lia. }
  exists ws, n, c, evf, v, mi. repeat split; auto.
  apply nth_error_combine_map; assumption.
Qed.

(** C6, as stated, fails in binary64: the simulated expected value
    function of the anchor state 0 is [1e-17] and its maximum value
    function is [1.0]; [_compute_lhs_variable] stores [1e-17 - 1.0],
    which is [-1.0], and [_predict_with_linear_model] returns
    [-1.0 + 1.0 = 0.0] for the state, not [1e-17]. *)
Lemma C6_counterexample :
  tiny_expected_value_functions [[RobupySpec.one]] [[RobupySpec.one]]
    [[RobupySpec.one]] [] F64.zero = Ok [tiny]
  /\ lhs_tiny [[RobupySpec.one]; [RobupySpec.one]]
       [[RobupySpec.one]; [RobupySpec.one]]
       [[RobupySpec.one]; [RobupySpec.one]]
       [RobupySpec.one; RobupySpec.one] [true; false] [] F64.zero
     = Ok [F64.opp RobupySpec.one]
  /\ predict_sample [F64.opp RobupySpec.one]
       [[RobupySpec.one]; [RobupySpec.one]]
       [RobupySpec.one; RobupySpec.one] [true; false] (sample_world [])
     = Ok ([F64.zero; RobupySpec.one], sample_world [])
  /\ F64.eqb F64.zero tiny = false.
Proof. repeat split; vm_compute; reflexivity. Qed.

(** The same for the values [0.9] and [0.2]: [(0.9 - 0.2) + 0.2] is the
    float below [0.9]. *)
Lemma anchor_round_trip_inexact :
  lhs_constant (F64.div (F64.of_Z 9) (F64.of_Z 10)) [[RobupySpec.one]]
    [[RobupySpec.one]] [[RobupySpec.one]]
    [F64.div (F64.of_Z 2) (F64.of_Z 10)] [true] [] F64.zero
  = Ok [F64.sub (F64.div (F64.of_Z 9) (F64.of_Z 10))
                (F64.div (F64.of_Z 2) (F64.of_Z 10))]
  /\ F64.ltb (F64.add (F64.sub (F64.div (F64.of_Z 9) (F64.of_Z 10))
                               (F64.div (F64.of_Z 2) (F64.of_Z 10)))
                      (F64.div (F64.of_Z 2) (F64.of_Z 10)))
             (F64.div (F64.of_Z 9) (F64.of_Z 10)) = true.
Proof. split; vm_compute; reflexivity. Qed.

(** C6 (amended): for every anchor state the value
    [_predict_with_linear_model] returns from the output of
    [_compute_lhs_variable] is [(v - m) + m] in binary64 arithmetic, where
    [v] is the simulated expected value function of the state and [m] its
    maximum value function.  It is never the regression prediction: a
    second call with another regression ([ols'], [np_dot']) and other
    regressors returns the same value for the state. *)
Theorem C6_anchor_value_from_simulation
        (rng : Type)
        (ols ols' : list float -> list (list float) -> result (list float))
        (np_dot np_dot' :
           list (list float) -> list float -> result (list float))
        (calculate_expected_value_functions :
           list (list float) -> list (list float) -> list (list float) ->
           list (list float) -> float -> result (list float))
        (wages nonpec continuation_values exogenous exogenous'
         : list (list float))
        (max_value_functions : list float) (not_interpolated : list bool)
        (draws : list (list float)) (delta : float)
        (endogenous predictions predictions' : list float)
        (w w' u u' : world rng) (i : nat) :
  (forall w n c evf,
      calculate_expected_value_functions w n c draws delta = Ok evf ->
      length evf = length w) ->
  _compute_lhs_variable calculate_expected_value_functions wages nonpec
    continuation_values max_value_functions not_interpolated draws delta
  = Ok endogenous ->
  _predict_with_linear_model rng ols np_dot endogenous exogenous
    max_value_functions not_interpolated w = Ok (predictions, w') ->
  _predict_with_linear_model rng ols' np_dot' endogenous exogenous'
    max_value_functions not_interpolated u = Ok (predictions', u') ->
  nth_error not_interpolated i = Some true ->
  exists ws ns cs evf v m,
    mask_select wages not_interpolated = Ok ws
    /\ mask_select nonpec not_interpolated = Ok ns
    /\ mask_select continuation_values not_interpolated = Ok cs
    /\ calculate_expected_value_functions ws ns cs draws delta = Ok evf
    /\ nth_error evf (rank not_interpolated i) = Some v
    /\ nth_error max_value_functions i = Some m
    /\ nth_error predictions i = Some (F64.add (F64.sub v m) m)
    /\ nth_error predictions' i = Some (F64.add (F64.sub v m) m).
Proof.
  intros Hcalc Hlhs Hpred Hpred' Hi.
  destruct (_compute_lhs_variable_anchor calculate_expected_value_functions
              _ _ _ _ _ _ _ _ i Hcalc Hlhs Hi)
    as (Hlen & ws & ns & cs & evf & v & m & H1 & H2 & H3 & H4 & H5 & H6 & H7).
  destruct (_predict_with_linear_model_anchor _ _ _ _ _ _ _ _ _ _ i
              Hpred Hlen Hi)
    as (e & m' & He & Hm' & Hp).
  destruct (_predict_with_linear_model_anchor _ _ _ _ _ _ _ _ _ _ i
              Hpred' Hlen Hi)
    as (e' & m'' & He' & Hm'' & Hp').
  exists ws, ns, cs, evf, v, m.
  repeat (split; [assumption|]).
  split; congruence.
Qed.

Lemma C6_anchor_value_from_simulation_witness :
  exists ws ns cs evf v m,
    mask_select [[RobupySpec.one]; [RobupySpec.one]] [true; false] = Ok ws
    /\ mask_select [[RobupySpec.one]; [RobupySpec.one]] [true; false]
       = Ok ns
    /\ mask_select [[RobupySpec.one]; [RobupySpec.one]] [true; false]
       = Ok cs
    /\ tiny_expected_value_functions ws ns cs [] F64.zero = Ok evf
    /\ nth_error evf (rank [true; false] 0) = Some v
    /\ nth_error [RobupySpec.one; RobupySpec.one] 0 = Some m
    /\ nth_error [F64.zero; RobupySpec.one] 0
       = Some (F64.add (F64.sub v m) m)
    /\ nth_error [F64.zero; F64.of_Z 4] 0
       = Some (F64.add (F64.sub v m) m).
Proof.
  apply (C6_anchor_value_from_simulation unit sample_ols sample_ols
           sample_dot sample_dot tiny_expected_value_functions
           [[RobupySpec.one]; [RobupySpec.one]]
           [[RobupySpec.one]; [RobupySpec.one]]
           [[RobupySpec.one]; [RobupySpec.one]]
           [[RobupySpec.one]; [RobupySpec.one]]
           [[F64.opp RobupySpec.one]; [F64.of_Z 3]]
           [RobupySpec.one; RobupySpec.one] [true; false] [] F64.zero
           [F64.opp RobupySpec.one] [F64.zero; RobupySpec.one]
           [F64.zero; F64.of_Z 4]
           (sample_world []) (sample_world [])
           (sample_world []) (sample_world []) 0).
  - intros w n c evf [= <-]. apply length_map.
  - vm_compute. reflexivity.
  - vm_compute. reflexivity.
  - vm_compute. reflexivity.
  - reflexivity.
Defined.

Lemma mask_assign_values_of (a : list float) (mask : list bool)
      (vals out : list float) :
  mask_assign a mask vals = Ok out ->
  exists vals', out = mask_assign_values a mask vals'.
Proof.
  unfold mask_assign.
  destruct (negb (length a =? length mask)%nat); [discriminate|].
  destruct (length vals =? count_true mask)%nat.
  - intros [= <-]. eauto.
  - destruct vals as [|v [|v' vals]]; try discriminate.
    intros [= <-]. eauto.
Qed.

Lemma clip_at_zero_nonneg (g : float) :
  F64.is_nan g = false -> F64.leb F64.zero (clip_at_zero g) = true.
Proof.
  intros Hg. unfold clip_at_zero. rewrite Hg. cbn [orb].
  unfold F64.gtb. fold (F64.ltb F64.zero g).
  destruct (F64.ltb F64.zero g) eqn:E.
  - now apply F64Facts.ltb_leb.
  - reflexivity.
Qed.

Lemma clip_at_zero_infinity (g : float) :
  clip_at_zero g = S754_infinity false -> g = S754_infinity false.
Proof.
  unfold clip_at_zero.
  destruct (F64.is_nan g || F64.gtb g F64.zero); [auto | discriminate].
Qed.

(** C7, as stated, fails when the regression coefficients are not finite,
    the case the function warns about and then carries on with.  The
    anchor state 0 has the regressor [10.0] and the regression target
    [1e308], the interpolated state 1 the regressor [0.0]; both maximum
    value functions are [1.0].  In [ols] the product [x.T.dot(y)] is
    [10.0 * 1e308 = inf], so the coefficient is [0.01 * inf = inf]; the
    predicted gap of state 1 is [0.0 * inf], which is NaN, clipping keeps
    the NaN, and the returned value NaN is not greater than or equal to
    the state's maximum value function [1.0]. *)
Lemma C7_counterexample :
  sample_ols [F64.of_Z (10 ^ 308)] [[F64.of_Z 10]] = Ok [F64.infinity]
  /\ sample_dot [[F64.of_Z 10]; [F64.zero]] [F64.infinity]
     = Ok [F64.infinity; F64.nan]
  /\ predict_sample [F64.of_Z (10 ^ 308)] [[F64.of_Z 10]; [F64.zero]]
                    [RobupySpec.one; RobupySpec.one] [true; false]
                    (sample_world [])
     = Ok ([F64.of_Z (10 ^ 308); F64.nan],
           {| np_random_state := tt;
              solution_seed_iteration := [];
              warnings := [OlsNotFiniteWarning] |})
  /\ nth_error [true; false] 1 = Some false
  /\ F64.geb F64.nan RobupySpec.one = false.
Proof. repeat split; vm_compute; reflexivity. Qed.

(** C7 (amended): for every interpolated (non-anchor) state the value
    [_predict_with_linear_model] returns is the predicted gap, clipped at 0
    from below, plus the maximum value function of the state; it is greater
    than or equal to that maximum value function whenever the predicted gap
    and the maximum value function are not NaN and their sum is not
    [inf + (-inf)]. *)
Theorem C7_interpolated_value_not_below_maximum
        (rng : Type)
        (ols : list float -> list (list float) -> result (list float))
        (np_dot : list (list float) -> list float -> result (list float))
        endogenous exogenous max_value_functions not_interpolated
        (w w' : world rng) predictions (i : nat) :
  (forall x beta gap, np_dot x beta = Ok gap -> length gap = length x) ->
  _predict_with_linear_model rng ols np_dot endogenous exogenous
    max_value_functions not_interpolated w = Ok (predictions, w') ->
  nth_error not_interpolated i = Some false ->
  exists x beta gap g m,
    mask_select exogenous not_interpolated = Ok x
    /\ ols endogenous x = Ok beta
    /\ np_dot exogenous beta = Ok gap
    /\ nth_error gap i = Some g
    /\ nth_error max_value_functions i = Some m
    /\ nth_error predictions i = Some (F64.add (clip_at_zero g) m)
    /\ (F64.is_nan g = false ->
        F64.is_nan m = false ->
        F64.valid m = true ->
        ~ (g = S754_infinity false /\ m = S754_infinity true) ->
        F64.geb (F64.add (clip_at_zero g) m) m = true).
Proof.
  intros Hdot H Hi.
  apply _predict_with_linear_model_inv in H
    as (x & beta & gap & before & values & Hx & Hols & Hgap & Hb & Hm & _ & Ha).
  pose proof Hx as Hx'. apply mask_select_inv in Hx' as [Hxl _].
  pose proof (Hdot _ _ _ Hgap) as Hgl.
  apply broadcast2_same_length in Hb; [|rewrite length_map; congruence].
  apply mask_assign_values_of in Ha as [vals' ->].
  assert (Hil : (i < length not_interpolated)%nat)
    by (apply nth_error_Some; congruence).
  destruct (nth_error gap i) as [g|] eqn:Hg.
  2:{ apply nth_error_None in Hg. lia. }
  destruct (nth_error max_value_functions i) as [m|] eqn:Hmi.
  2:{ apply nth_error_None in Hmi. lia. }
  exists x, beta, gap, g, m. repeat split; auto.
  - rewrite mask_assign_values_false by exact Hi. subst before.
    apply nth_error_combine_map; [|exact Hmi].
    now rewrite nth_error_map, Hg.
  - intros Hgn Hmn Hmv Hinf. unfold F64.geb. fold (F64.leb m (F64.add (clip_at_zero g) m)).
    apply F64Facts.add_nonneg_ge; auto.
    + now apply clip_at_zero_nonneg.
    + intros [Hc Hm']. apply Hinf. split; [|exact Hm'].
      now apply clip_at_zero_infinity.
Qed.

Lemma C7_interpolated_value_not_below_maximum_witness :
  exists g m,
    nth_error [F64.of_Z 2; F64.of_Z 2] 1
    = Some (F64.add (clip_at_zero g) m)
    /\ F64.geb (F64.add (clip_at_zero g) m) m = true.
Proof.
  destruct (C7_interpolated_value_not_below_maximum unit
              sample_ols sample_dot [RobupySpec.one]
              [[RobupySpec.one]; [RobupySpec.one]]
              [RobupySpec.one; RobupySpec.one] [true; false]
              (sample_world []) (sample_world [])
              [F64.of_Z 2; F64.of_Z 2] 1%nat)
    as (x & beta & gap & g & m & Hx & Hols & Hgap & Hg & Hm & Hp & Hge).
  - intros x beta gap. unfold sample_dot.
    destruct (forallb _ x); [|discriminate].
    intros [= <-]. apply length_map.
  - vm_compute. reflexivity.
  - reflexivity.
  - vm_compute in Hx. injection Hx as <-.
    vm_compute in Hols. injection Hols as <-.
    vm_compute in Hgap. injection Hgap as <-.
    injection Hg as <-. injection Hm as <-.
    exists RobupySpec.one, RobupySpec.one.
    split; [exact Hp|].
    apply Hge; [reflexivity | reflexivity | reflexivity |].
    intros [Hc _]. discriminate.
Defined.

(** C10, as stated, fails for a period without dense partitions: with an
    empty dictionary and a budget of zero (at most twice the number of
    partitions) the function returns the empty allocation. *)
Lemma C10_counterexample :
  let dense_key_to_n_states : Dict.t Z := [] in
  let opts := {| interpolation_points := 0 |} in
  interpolation_points opts <= 2 * Np.len dense_key_to_n_states
  /\ split_sample dense_key_to_n_states 7 opts (sample_world [42])
     = Ok ([], sample_world [42]).
Proof. cbv zeta. split; [vm_compute; discriminate | reflexivity]. Qed.

(** C10 (amended): for every call with at least one dense partition in
    which the budget [options["interpolation_points"]] is at most twice the
    number of dense partitions, the local variable [dense_key] is never
    assigned and the call fails with the unbound-variable error instead of
    returning the minimal allocation; with at least one partition the
    function returns normally only when the budget strictly exceeds twice
    the number of partitions. *)
Theorem C10_unbound_dense_key
        (rng : Type) (rng_seed : Z -> rng)
        (rng_choice : rng -> list Z -> list Z -> Z * rng)
        (dense_key_to_n_states : Dict.t Z) (period : Z) (opts : options)
        (w : world rng) :
  dense_key_to_n_states <> [] ->
  (interpolation_points opts <= 2 * Np.len dense_key_to_n_states ->
   _split_interpolation_points_evenly rng rng_seed rng_choice
     dense_key_to_n_states period opts w = Raise NameError)
  /\ (forall r,
         _split_interpolation_points_evenly rng rng_seed rng_choice
           dense_key_to_n_states period opts w = Ok r ->
         2 * Np.len dense_key_to_n_states < interpolation_points opts).
Proof.
  intros Hd.
  assert (Hfail :
            interpolation_points opts <= 2 * Np.len dense_key_to_n_states ->
            _split_interpolation_points_evenly rng rng_seed rng_choice
              dense_key_to_n_states period opts w = Raise NameError).
  { intros Hb. unfold _split_interpolation_points_evenly.
    replace (interpolation_points opts - 2 * Np.len dense_key_to_n_states >? 0)
      with false by (symmetry; rewrite Z.gtb_ltb; apply Z.ltb_ge; lia).
    destruct dense_key_to_n_states as [|[key n] d]; [contradiction|].
    reflexivity. }
  split; [exact Hfail|].
  intros r Hr.
  destruct (Z_lt_le_dec (2 * Np.len dense_key_to_n_states)
                        (interpolation_points opts)) as [Hlt|Hle];
    [exact Hlt|].
  rewrite (Hfail Hle) in Hr. discriminate.
Qed.

Lemma C10_unbound_dense_key_witness :
  split_sample [(0, 250); (1, 2)] 7 {| interpolation_points := 4 |}
               (sample_world [42]) = Raise NameError.
Proof.
  refine (proj1 (C10_unbound_dense_key unit sample_rng_seed sample_rng_choice
                   [(0, 250); (1, 2)] 7 {| interpolation_points := 4 |}
                   (sample_world [42]) _) _).
  - discriminate.
  - vm_compute. discriminate.
Defined.

End RespyProofs.

(** ** The optimisation parameters of [robupy] *)

Module RobupyParametersProofs.

Import Pyx Np2 RobupyParameters RobupyParametersSpec.

Lemma well_formed_cons (nc : nat) (r : list float) (rs : list (list float)) :
  well_formed {| ncols := nc; rows := r :: rs |} = true ->
  length r = nc /\ well_formed {| ncols := nc; rows := rs |} = true.
Proof.
  unfold well_formed; simpl. intros H.
  apply andb_prop in H as [H1 H2]. apply Nat.eqb_eq in H1. now split.
Qed.

(** A well-formed array with at least four rows and four columns, laid
    open. *)
Lemma four_by_four (c : array2) :
  well_formed c = true ->
  (4 <= ncols c)%nat -> (4 <= length (rows c))%nat ->
  exists n e00 e01 e02 e03 t0 e10 e11 e12 e13 t1
         e20 e21 e22 e23 t2 e30 e31 e32 e33 t3 rest,
    c = {| ncols := S (S (S (S n)));
           rows := (e00 :: e01 :: e02 :: e03 :: t0)
                   :: (e10 :: e11 :: e12 :: e13 :: t1)
                   :: (e20 :: e21 :: e22 :: e23 :: t2)
                   :: (e30 :: e31 :: e32 :: e33 :: t3) :: rest |}.
Proof.
  destruct c as [nc rs]. simpl. intros Hwf Hc Hr.
  destruct rs as [|r0 [|r1 [|r2 [|r3 rest]]]]; simpl in Hr; try lia.
  apply well_formed_cons in Hwf as [H0 Hwf].
  apply well_formed_cons in Hwf as [H1 Hwf].
  apply well_formed_cons in Hwf as [H2 Hwf].
  apply well_formed_cons in Hwf as [H3 _].
  destruct nc as [|[|[|[|n]]]]; try lia.
  destruct r0 as [|e00 [|e01 [|e02 [|e03 t0]]]]; try discriminate H0.
  destruct r1 as [|e10 [|e11 [|e12 [|e13 t1]]]]; try discriminate H1.
  destruct r2 as [|e20 [|e21 [|e22 [|e23 t2]]]]; try discriminate H2.
  destruct r3 as [|e30 [|e31 [|e32 [|e33 t3]]]]; try discriminate H3.
  now exists n, e00, e01, e02, e03, t0, e10, e11, e12, e13, t1,
    e20, e21, e22, e23, t2, e30, e31, e32, e33, t3, rest.
Qed.

Lemma pack_layout cmp (coeffs_a coeffs_b coeffs_edu coeffs_home : list float)
      (shocks eps_cholesky : array2) :
  length coeffs_a = 6%nat -> length coeffs_b = 6%nat ->
  length coeffs_edu = 3%nat -> length coeffs_home = 1%nat ->
  well_formed eps_cholesky = true ->
  (4 <= ncols eps_cholesky)%nat -> (4 <= length (rows eps_cholesky))%nat ->
  opt_get_optim_parameters cmp coeffs_a coeffs_b coeffs_edu coeffs_home
    shocks eps_cholesky false
  = Return (coeffs_a ++ coeffs_b ++ coeffs_edu ++ coeffs_home
            ++ lower_columns eps_cholesky).
Proof.
  intros Ha Hb He Hh Hwf Hc Hr.
  destruct (four_by_four _ Hwf Hc Hr)
    as (n & e00 & e01 & e02 & e03 & t0 & e10 & e11 & e12 & e13 & t1
        & e20 & e21 & e22 & e23 & t2 & e30 & e31 & e32 & e33 & t3 & rest
        & ->).
  destruct coeffs_a as [|a0 [|a1 [|a2 [|a3 [|a4 [|a5 [|]]]]]]];
    try discriminate Ha.
  destruct coeffs_b as [|b0 [|b1 [|b2 [|b3 [|b4 [|b5 [|]]]]]]];
    try discriminate Hb.
  destruct coeffs_edu as [|c0 [|c1 [|c2 [|]]]]; try discriminate He.
  destruct coeffs_home as [|h0 [|]]; try discriminate Hh.
  reflexivity.
Qed.

(** X1: with coefficient vectors of 6, 6, 3 and 1 items and a factor of
    at least 4 x 4 items, [opt_get_optim_parameters] (checks off)
    returns the four vectors one after the other, followed by the ten
    items of the lower triangle of the factor, column by column; the
    argument [shocks] and the items above the diagonal do not enter the
    vector. *)
Theorem X1_parameter_vector_layout cmp
        (coeffs_a coeffs_b coeffs_edu coeffs_home : list float)
        (shocks eps_cholesky : array2) :
  length coeffs_a = 6%nat -> length coeffs_b = 6%nat ->
  length coeffs_edu = 3%nat -> length coeffs_home = 1%nat ->
  well_formed eps_cholesky = true ->
  (4 <= ncols eps_cholesky)%nat -> (4 <= length (rows eps_cholesky))%nat ->
  opt_get_optim_parameters cmp coeffs_a coeffs_b coeffs_edu coeffs_home
    shocks eps_cholesky false
  = Return (coeffs_a ++ coeffs_b ++ coeffs_edu ++ coeffs_home
            ++ lower_columns eps_cholesky).
Proof. apply pack_layout. Qed.

Lemma X1_parameter_vector_layout_witness :
  opt_get_optim_parameters accept sample_coeffs_a sample_coeffs_b
    sample_coeffs_edu sample_coeffs_home sample_shocks sample_cholesky false
  = Return (sample_coeffs_a ++ sample_coeffs_b ++ sample_coeffs_edu
            ++ sample_coeffs_home ++ lower_columns sample_cholesky).
Proof.
  apply X1_parameter_vector_layout;
    solve [reflexivity | simpl; lia].
Defined.


Lemma unpack_eq cmp mm (x : list float) :
  opt_get_model_parameters cmp mm x false
  = if (length x <? 24)%nat then Throw (Builtin ValueError)
    else if (length x <? 26)%nat then Throw (Builtin IndexError)
    else Return (slice x 0 6, slice x 6 12, slice x 12 15, slice x 15 16,
                 mm (cholesky_of x) (transpose (cholesky_of x)),
                 cholesky_of x).
Proof.
  do 26 (destruct x as [|? x]; [vm_compute; reflexivity|]).
  unfold opt_get_model_parameters.
  match goal with
  | |- context [Np.get ?l 25] =>
      assert (Hget : Np.get l 25 = Ok (nth 25 l F64.nan))
        by exact (PyFacts.get_nonneg l 25 _ eq_refl)
  end.
  cbn -[Np.get] in *. rewrite Hget. reflexivity.
Qed.

(** X2: [opt_get_model_parameters] (checks off) returns exactly for the
    vectors of at least 26 items; a vector of fewer than 24 items is
    refused with a ValueError, one of 24 or 25 items with an IndexError.
    What it returns are the slices [x[0:6]], [x[6:12]], [x[12:15]],
    [x[15:16]], the lower triangular factor built from [x[16:26]] and
    the product of that factor with its transpose; items after the 26th
    are ignored. *)
Theorem X2_model_parameters_of_vector cmp mm (x : list float) :
  opt_get_model_parameters cmp mm x false
  = if (length x <? 24)%nat then Throw (Builtin ValueError)
    else if (length x <? 26)%nat then Throw (Builtin IndexError)
    else Return (slice x 0 6, slice x 6 12, slice x 12 15, slice x 15 16,
                 mm (cholesky_of x) (transpose (cholesky_of x)),
                 cholesky_of x).
Proof. apply unpack_eq. Qed.

(** X3: packing and unpacking again gives back the four coefficient
    vectors; of the factor it gives back the lower triangle of the
    leading 4 x 4 block with zeros above the diagonal, and the shocks
    returned are the product of that triangle with its transpose, not
    the [shocks] that were passed in. *)
Theorem X3_unpack_after_pack cmp mm
        (coeffs_a coeffs_b coeffs_edu coeffs_home : list float)
        (shocks eps_cholesky : array2) :
  length coeffs_a = 6%nat -> length coeffs_b = 6%nat ->
  length coeffs_edu = 3%nat -> length coeffs_home = 1%nat ->
  well_formed eps_cholesky = true ->
  (4 <= ncols eps_cholesky)%nat -> (4 <= length (rows eps_cholesky))%nat ->
  exists x,
    opt_get_optim_parameters cmp coeffs_a coeffs_b coeffs_edu coeffs_home
      shocks eps_cholesky false = Return x
    /\ opt_get_model_parameters cmp mm x false
       = Return (coeffs_a, coeffs_b, coeffs_edu, coeffs_home,
                 mm (lower_triangle eps_cholesky)
                    (transpose (lower_triangle eps_cholesky)),
                 lower_triangle eps_cholesky).
Proof.
  intros Ha Hb He Hh Hwf Hc Hr.
  eexists. split; [now apply pack_layout|].
  rewrite unpack_eq.
  destruct (four_by_four _ Hwf Hc Hr)
    as (n & e00 & e01 & e02 & e03 & t0 & e10 & e11 & e12 & e13 & t1
        & e20 & e21 & e22 & e23 & t2 & e30 & e31 & e32 & e33 & t3 & rest
        & ->).
  destruct coeffs_a as [|a0 [|a1 [|a2 [|a3 [|a4 [|a5 [|]]]]]]];
    try discriminate Ha.
  destruct coeffs_b as [|b0 [|b1 [|b2 [|b3 [|b4 [|b5 [|]]]]]]];
    try discriminate Hb.
  destruct coeffs_edu as [|c0 [|c1 [|c2 [|]]]]; try discriminate He.
  destruct coeffs_home as [|h0 [|]]; try discriminate Hh.
  reflexivity.
Qed.

Lemma X3_unpack_after_pack_witness :
  exists x,
    opt_get_optim_parameters accept sample_coeffs_a sample_coeffs_b
      sample_coeffs_edu sample_coeffs_home sample_shocks sample_cholesky
      false = Return x
    /\ opt_get_model_parameters accept sample_matmul x false
       = Return (sample_coeffs_a, sample_coeffs_b, sample_coeffs_edu,
                 sample_coeffs_home,
                 sample_matmul (lower_triangle sample_cholesky)
                   (transpose (lower_triangle sample_cholesky)),
                 lower_triangle sample_cholesky).
Proof.
  apply X3_unpack_after_pack; solve [reflexivity | simpl; lia].
Defined.

(** X4: whatever [opt_get_model_parameters] returns packs back into the
    first 26 items of the vector it was given, whichever [shocks] are
    passed along. *)
Theorem X4_pack_after_unpack cmp mm (x : list float)
        (coeffs_a coeffs_b coeffs_edu coeffs_home : list float)
        (shocks shocks' eps_cholesky : array2) :
  opt_get_model_parameters cmp mm x false
  = Return (coeffs_a, coeffs_b, coeffs_edu, coeffs_home, shocks,
            eps_cholesky) ->
  opt_get_optim_parameters cmp coeffs_a coeffs_b coeffs_edu coeffs_home
    shocks' eps_cholesky false
  = Return (firstn 26 x).
Proof.
  rewrite unpack_eq.
  do 26 (destruct x as [|? x]; [discriminate|]).
  intros H.
  match type of H with
  | (if ?b then _ else _) = _ => change b with false in H
  end.
  match type of H with
  | (if ?b then _ else _) = _ => change b with false in H
  end.
  injection H as <- <- <- <- _ <-.
  reflexivity.
Qed.

Lemma X4_pack_after_unpack_witness :
  opt_get_optim_parameters accept (slice sample_x 0 6) (slice sample_x 6 12)
    (slice sample_x 12 15) (slice sample_x 15 16) sample_shocks
    (cholesky_of sample_x) false
  = Return (firstn 26 sample_x).
Proof.
  apply (X4_pack_after_unpack accept sample_matmul sample_x _ _ _ _
           (sample_matmul (cholesky_of sample_x)
                          (transpose (cholesky_of sample_x)))).
  reflexivity.
Defined.

Lemma broadcast_to_inv {A} (v : list A) (n : nat) (vals : list A) :
  broadcast_to v n = Ok vals ->
  length vals = n /\ (vals = v \/ exists x, v = [x] /\ vals = repeat x n).
Proof.
  unfold broadcast_to.
  destruct (Nat.eqb_spec (length v) n) as [E|E].
  - intros [= <-]. auto.
  - destruct v as [|x [|y l]]; try discriminate.
    intros [= <-]. split; [apply repeat_length|]. right. now exists x.
Qed.

Lemma broadcast_to_forallb {A} (P : A -> bool) (v : list A) (n : nat)
      (vals : list A) :
  broadcast_to v n = Ok vals -> (0 < n)%nat ->
  forallb P vals = true -> forallb P v = true.
Proof.
  intros H Hn Hv. apply broadcast_to_inv in H as [_ [->|(x & -> & ->)]];
    [assumption|].
  destruct n; [lia|]. simpl in *. apply andb_prop in Hv as [-> _].
  reflexivity.
Qed.

Ltac step_slice H :=
  match type of H with
  | Pyx.bind (of_result (set_slice ?X ?lo ?hi ?v)) _ = Return _ =>
      let E := fresh "E" in
      let B := fresh "B" in
      let vals := fresh "vals" in
      destruct (set_slice X lo hi v) as [?|?] eqn:E; [|discriminate H];
      unfold set_slice in E; simpl length in E;
      destruct (broadcast_to v _) as [vals|?] eqn:B; [|discriminate E];
      simpl in E; injection E as <-;
      pose proof (proj1 (broadcast_to_inv _ _ _ B)) as E
  | Pyx.bind (of_result (get_column_slice ?a ?lo ?hi ?c)) _ = Return _ =>
      let E := fresh "C" in
      destruct (get_column_slice a lo hi c) as [?|?] eqn:E;
        [|discriminate H]
  end;
  cbn [Pyx.bind of_result] in H.

Lemma pack_inv cmp (coeffs_a coeffs_b coeffs_edu coeffs_home : list float)
      (shocks eps_cholesky : array2) (is_debug : bool) (x : list float) :
  opt_get_optim_parameters cmp coeffs_a coeffs_b coeffs_edu coeffs_home
    shocks eps_cholesky is_debug = Return x ->
  exists va vb ve vh c0 c1 c2 c3 v0 v1 v2 v3,
    broadcast_to coeffs_a 6 = Ok va
    /\ broadcast_to coeffs_b 6 = Ok vb
    /\ broadcast_to coeffs_edu 3 = Ok ve
    /\ broadcast_to coeffs_home 1 = Ok vh
    /\ get_column_slice eps_cholesky 0 4 0 = Ok c0
    /\ get_column_slice eps_cholesky 1 4 1 = Ok c1
    /\ get_column_slice eps_cholesky 2 4 2 = Ok c2
    /\ get_column_slice eps_cholesky 3 4 3 = Ok c3
    /\ broadcast_to c0 4 = Ok v0 /\ broadcast_to c1 3 = Ok v1
    /\ broadcast_to c2 2 = Ok v2 /\ broadcast_to c3 1 = Ok v3
    /\ x = va ++ vb ++ ve ++ vh ++ v0 ++ v1 ++ v2 ++ v3
    /\ (is_debug = true ->
        cmp coeffs_a coeffs_b coeffs_edu coeffs_home shocks eps_cholesky
        = Return true
        /\ forallb F64.is_finite x = true).
Proof.
  unfold opt_get_optim_parameters. intros H.
  match type of H with
  | Pyx.bind ?m _ = _ => destruct m as [[]|] eqn:Hpre; [|discriminate H]
  end.
  cbn [Pyx.bind] in H.
  step_slice H.
  destruct vals as [|a0 [|a1 [|a2 [|a3 [|a4 [|a5 [|]]]]]]]; try discriminate E.
  simpl in H. step_slice H.
  destruct vals as [|b0 [|b1 [|b2 [|b3 [|b4 [|b5 [|]]]]]]]; try discriminate E0.
  simpl in H. step_slice H.
  destruct vals as [|d0 [|d1 [|d2 [|]]]]; try discriminate E1.
  simpl in H. step_slice H.
  destruct vals as [|h0 [|]]; try discriminate E2.
  simpl in H. step_slice H. step_slice H.
  destruct vals as [|p0 [|p1 [|p2 [|p3 [|]]]]]; try discriminate E3.
  simpl in H. step_slice H. step_slice H.
  destruct vals as [|q0 [|q1 [|q2 [|]]]]; try discriminate E4.
  simpl in H. step_slice H. step_slice H.
  destruct vals as [|r0 [|r1 [|]]]; try discriminate E5.
  simpl in H. step_slice H. step_slice H.
  destruct vals as [|s0 [|]]; try discriminate E6.
  simpl in H.
  exists [a0; a1; a2; a3; a4; a5], [b0; b1; b2; b3; b4; b5], [d0; d1; d2],
    [h0], a, a6, a7, a8, [p0; p1; p2; p3], [q0; q1; q2], [r0; r1], [s0].
  repeat (split; [reflexivity || assumption|]).
  destruct is_debug.
  - unfold _check_optimization_parameters in H.
    cbn [length Nat.eqb assert Pyx.bind] in H.
    match type of H with
    | context [assert ?b] => destruct b eqn:Hfin; [|discriminate H]
    end.
    cbn [assert Pyx.bind] in H. injection H as <-.
    split; [reflexivity|]. intros _. split; [|exact Hfin].
    destruct (cmp coeffs_a coeffs_b coeffs_edu coeffs_home shocks
                  eps_cholesky) as [[|]|]; try discriminate Hpre.
    reflexivity.
  - cbn [Pyx.bind] in H. injection H as <-.
    split; [reflexivity|discriminate].
Qed.

(** X5: a coefficient vector for occupation A that has neither six items
    nor one is refused with a ValueError, whatever the other arguments
    are. *)
Theorem X5_coefficient_vector_shape cmp
        (coeffs_a coeffs_b coeffs_edu coeffs_home : list float)
        (shocks eps_cholesky : array2) :
  length coeffs_a <> 6%nat -> length coeffs_a <> 1%nat ->
  opt_get_optim_parameters cmp coeffs_a coeffs_b coeffs_edu coeffs_home
    shocks eps_cholesky false = Throw (Builtin ValueError).
Proof.
  intros H6 H1. unfold opt_get_optim_parameters.
  assert (Hs : set_slice (Np.tile F64.nan 26) 0 6 coeffs_a
               = Raise ValueError).
  { unfold set_slice, broadcast_to. simpl length.
    destruct (Nat.eqb_spec (length coeffs_a) 6) as [E|_]; [now elim H6|].
    destruct coeffs_a as [|a0 [|a1 l]]; try reflexivity.
    now elim H1. }
  cbn [Pyx.bind]. rewrite Hs. reflexivity.
Qed.

Lemma X5_coefficient_vector_shape_witness :
  opt_get_optim_parameters accept (ints [1; 2]) sample_coeffs_b
    sample_coeffs_edu sample_coeffs_home sample_shocks sample_cholesky false
  = Throw (Builtin ValueError).
Proof.
  apply X5_coefficient_vector_shape; simpl; lia.
Defined.

Lemma assigned_of_broadcast (v vals : list float) (n : nat) :
  broadcast_to v n = Ok vals -> assigned v vals.
Proof.
  intros H. apply broadcast_to_inv in H as [L [->|(y & -> & ->)]].
  - now left.
  - right. exists y. now rewrite repeat_length.
Qed.

(** X7: whenever [opt_get_optim_parameters] returns, each of the slices
    [x[0:6]], [x[6:12]], [x[12:15]] and [x[15:16]] holds the coefficient
    vector assigned to it, or, when that vector has a single item, that
    item in every place: a vector of one item is broadcast silently. *)
Theorem X7_coefficients_are_broadcast cmp
        (coeffs_a coeffs_b coeffs_edu coeffs_home : list float)
        (shocks eps_cholesky : array2) (is_debug : bool) (x : list float) :
  opt_get_optim_parameters cmp coeffs_a coeffs_b coeffs_edu coeffs_home
    shocks eps_cholesky is_debug = Return x ->
  assigned coeffs_a (slice x 0 6)
  /\ assigned coeffs_b (slice x 6 12)
  /\ assigned coeffs_edu (slice x 12 15)
  /\ assigned coeffs_home (slice x 15 16).
Proof.
  intros H.
  apply pack_inv in H
    as (va & vb & ve & vh & c0 & c1 & c2 & c3 & v0 & v1 & v2 & v3
        & Ha & Hb & He & Hh & _ & _ & _ & _ & H0 & H1 & H2 & H3 & -> & _).
  pose proof (assigned_of_broadcast _ _ _ Ha) as Fa.
  pose proof (assigned_of_broadcast _ _ _ Hb) as Fb.
  pose proof (assigned_of_broadcast _ _ _ He) as Fe.
  pose proof (assigned_of_broadcast _ _ _ Hh) as Fh.
  apply broadcast_to_inv in Ha as [La _], Hb as [Lb _], He as [Le _],
    Hh as [Lh _].
  destruct va as [|a0 [|a1 [|a2 [|a3 [|a4 [|a5 [|]]]]]]]; try discriminate La.
  destruct vb as [|b0 [|b1 [|b2 [|b3 [|b4 [|b5 [|]]]]]]]; try discriminate Lb.
  destruct ve as [|d0 [|d1 [|d2 [|]]]]; try discriminate Le.
  destruct vh as [|h0 [|]]; try discriminate Lh.
  repeat split; assumption.
Qed.

Lemma X7_coefficients_are_broadcast_witness :
  assigned (ints [1])
    (slice (repeat (F64.of_Z 1) 6 ++ sample_coeffs_b ++ sample_coeffs_edu
            ++ sample_coeffs_home ++ lower_columns sample_cholesky) 0 6)
  /\ assigned sample_coeffs_b
       (slice (repeat (F64.of_Z 1) 6 ++ sample_coeffs_b ++ sample_coeffs_edu
               ++ sample_coeffs_home ++ lower_columns sample_cholesky) 6 12)
  /\ assigned sample_coeffs_edu
       (slice (repeat (F64.of_Z 1) 6 ++ sample_coeffs_b ++ sample_coeffs_edu
               ++ sample_coeffs_home ++ lower_columns sample_cholesky) 12 15)
  /\ assigned sample_coeffs_home
       (slice (repeat (F64.of_Z 1) 6 ++ sample_coeffs_b ++ sample_coeffs_edu
               ++ sample_coeffs_home ++ lower_columns sample_cholesky) 15 16).
Proof.
  apply (X7_coefficients_are_broadcast accept (ints [1]) sample_coeffs_b
           sample_coeffs_edu sample_coeffs_home sample_shocks
           sample_cholesky false).
  reflexivity.
Defined.

(** X6: with the checks on, [opt_get_optim_parameters] returns only
    after [check_model_parameters] accepted the arguments, and what it
    returns is a vector of 26 finite items; a NaN or an infinity among
    the coefficients therefore never reaches the optimiser. *)
Theorem X6_debug_mode_returns_finite_vector cmp
        (coeffs_a coeffs_b coeffs_edu coeffs_home : list float)
        (shocks eps_cholesky : array2) (x : list float) :
  opt_get_optim_parameters cmp coeffs_a coeffs_b coeffs_edu coeffs_home
    shocks eps_cholesky true = Return x ->
  cmp coeffs_a coeffs_b coeffs_edu coeffs_home shocks eps_cholesky
  = Return true
  /\ length x = 26%nat
  /\ forallb F64.is_finite x = true
  /\ forallb F64.is_finite
       (coeffs_a ++ coeffs_b ++ coeffs_edu ++ coeffs_home) = true.
Proof.
  intros H.
  apply pack_inv in H
    as (va & vb & ve & vh & c0 & c1 & c2 & c3 & v0 & v1 & v2 & v3
        & Ha & Hb & He & Hh & _ & _ & _ & _ & H0 & H1 & H2 & H3 & -> & Hd).
  destruct (Hd eq_refl) as [Hc Hfin]. split; [exact Hc|].
  split.
  { apply broadcast_to_inv in Ha as [La _], Hb as [Lb _], He as [Le _],
      Hh as [Lh _], H0 as [L0 _], H1 as [L1 _], H2 as [L2 _], H3 as [L3 _].
    rewrite !length_app. lia. }
  split; [exact Hfin|].
  rewrite !forallb_app in Hfin.
  repeat match type of Hfin with
  | _ && _ = true => apply andb_prop in Hfin as [? Hfin]
  end.
  rewrite !forallb_app.
  rewrite (broadcast_to_forallb _ _ _ _ Ha), (broadcast_to_forallb _ _ _ _ Hb),
    (broadcast_to_forallb _ _ _ _ He), (broadcast_to_forallb _ _ _ _ Hh);
    (reflexivity || lia || assumption).
Qed.

Lemma X6_debug_mode_returns_finite_vector_witness :
  accept sample_coeffs_a sample_coeffs_b sample_coeffs_edu
    sample_coeffs_home sample_shocks sample_cholesky = Return true
  /\ length (sample_coeffs_a ++ sample_coeffs_b ++ sample_coeffs_edu
             ++ sample_coeffs_home ++ lower_columns sample_cholesky)
     = 26%nat
  /\ forallb F64.is_finite
       (sample_coeffs_a ++ sample_coeffs_b ++ sample_coeffs_edu
        ++ sample_coeffs_home ++ lower_columns sample_cholesky) = true
  /\ forallb F64.is_finite
       (sample_coeffs_a ++ sample_coeffs_b ++ sample_coeffs_edu
        ++ sample_coeffs_home) = true.
Proof.
  apply (X6_debug_mode_returns_finite_vector accept sample_coeffs_a
           sample_coeffs_b sample_coeffs_edu sample_coeffs_home
           sample_shocks sample_cholesky).
  reflexivity.
Defined.

End RobupyParametersProofs.

(** ** The interpolation routines of [respy]: budget, errors, seeds and
    regressors *)

Module RespyDriverProofs.

Import Respy RespySpec RespyProofs RespyDriver RespyDriverSpec.

Lemma dict_set_total (d : Dict.t Z) (k p v : Z) :
  Dict.get d k = Ok p ->
  total (Dict.values (Dict.set d k v)) = total (Dict.values d) - p + v.
Proof.
  unfold total, Dict.values.
  induction d as [|[k' v'] d IH]; simpl; [discriminate|].
  destruct (k' =? k) eqn:E; simpl.
  - intros [= ->]. lia.
  - intros H. rewrite (IH H). lia.
Qed.

(** A loop whose body adds one to a measure adds the number of its
    rounds. *)
Lemma for_rangeM_count {rng S : Type} (f : S -> Z) (body : S -> M rng S) :
  (forall s w s' w', body s w = Ok (s', w') -> f s' = f s + 1) ->
  forall n s w s' w',
    for_rangeM rng body n s w = Ok (s', w') -> f s' = f s + Z.of_nat n.
Proof.
  intros Hstep. induction n as [|n IH]; intros s w s' w' H.
  - cbn in H. injection H as <- _. cbn. lia.
  - cbn [for_rangeM] in H. inv_bindM H.
    apply Hstep in Ha. apply IH in H. lia.
Qed.

Lemma initial_total (d : Dict.t Z) :
  total (Dict.values
           (map (fun kn : Z * Z => (fst kn, if snd kn >? 2 then 2 else snd kn))
                d))
  + total (map (fun n => 2 - Z.min n 2) (Dict.values d))
  = 2 * Np.len d.
Proof.
  unfold total, Dict.values, Np.len.
  induction d as [|[k n] d IH]; [reflexivity|].
  cbn [map fold_right fst snd length]. rewrite Nat2Z.inj_succ.
  destruct (Z.gtb_spec n 2); lia.
Qed.

(** X8: whenever [_split_interpolation_points_evenly] returns for at
    least one partition, the points it allocates add up to the budget
    [options["interpolation_points"]] less, for every partition of fewer
    than two states, the points of the initial two that the partition
    cannot take; with two states or more in every partition the whole
    budget is allocated.  This holds for every generator. *)
Theorem X8_allocation_adds_up_to_budget
        (rng : Type) (rng_seed : Z -> rng)
        (rng_choice : rng -> list Z -> list Z -> Z * rng)
        (d : Dict.t Z) (period : Z) (opts : options)
        (w w' : world rng) (alloc : Dict.t Z) :
  d <> [] ->
  _split_interpolation_points_evenly rng rng_seed rng_choice d period opts w
  = Ok (alloc, w') ->
  total (Dict.values alloc)
  + total (map (fun n => 2 - Z.min n 2) (Dict.values d))
  = interpolation_points opts.
Proof.
  intros Hd H. unfold _split_interpolation_points_evenly in H.
  destruct (Z.gtb_spec (interpolation_points opts - 2 * Np.len d) 0)
    as [Hpos|Hneg].
  - inv_bindM H. destruct a as [[points weights] dk].
    cbn [fst snd] in H.
    inv_bindM H. inv_bindM H. inv_bindM H.
    inv_bindM Ha. inv_bindM Ha.
    apply (for_rangeM_count (fun st => total (Dict.values (fst (fst st)))))
      in Ha.
    + cbn [fst snd] in Ha. rewrite Ha.
      pose proof (initial_total d). lia.
    + clear. intros s w s' w' H.
      inv_bindM H. inv_bindM H. inv_bindM H. inv_bindM H. inv_bindM H.
      inv_bindM H. inv_bindM Ha0.
      cbn [fst]. rewrite (dict_set_total _ _ _ _ Ha0). lia.
  - exfalso. destruct d as [|[key n] d]; [contradiction|].
    cbn in H. discriminate H.
Qed.

Lemma X8_allocation_adds_up_to_budget_witness :
  total (Dict.values [(0, 2); (1, 3); (2, 1)])
  + total (map (fun n => 2 - Z.min n 2)
               (Dict.values [(0, 300); (1, 100); (2, 1)]))
  = 7.
Proof.
  apply (X8_allocation_adds_up_to_budget unit sample_rng_seed
           sample_rng_choice [(0, 300); (1, 100); (2, 1)] 7
           {| interpolation_points := 7 |} (sample_world [42])
           (sample_world [])).
  - discriminate.
  - vm_compute. reflexivity.
Defined.

(** X9: the allocation [_split_interpolation_points_evenly] returns has
    the keys of [dense_key_to_n_states] in the same order, and no
    partition is given more points than it has states (nor fewer than
    two, or all its states when it has fewer than two). *)
Theorem X9_allocation_within_states
        (rng : Type) (rng_seed : Z -> rng)
        (rng_choice : rng -> list Z -> list Z -> Z * rng)
        (d : Dict.t Z) (period : Z) (opts : options)
        (w w' : world rng) (alloc : Dict.t Z) :
  choice_law rng_choice ->
  NoDup (Dict.keys d) ->
  _split_interpolation_points_evenly rng rng_seed rng_choice d period opts w
  = Ok (alloc, w') ->
  Dict.keys alloc = Dict.keys d
  /\ forall i key n,
       nth_error d i = Some (key, n) ->
       exists p, nth_error alloc i = Some (key, p) /\ Z.min n 2 <= p <= n.
Proof.
  intros Hlaw Hnd H.
  destruct (split_allocation _ _ _ _ _ _ _ _ _ Hlaw Hnd H) as [weights Hinv].
  split; [exact (split_invariant_keys _ _ _ Hinv)|].
  intros i key n Hi. destruct Hinv as (_ & _ & Hall).
  destruct (Hall i key n Hi) as (p & x & Hp & _ & Hx & Hbig & Hsmall).
  exists p. split; [exact Hp|].
  destruct (Z_lt_le_dec 2 n) as [Hn|Hn].
  - destruct (Hbig Hn). lia.
  - destruct (Hsmall Hn). lia.
Qed.

Lemma X9_allocation_within_states_witness :
  Dict.keys [(0, 2); (1, 3); (2, 1)] = Dict.keys [(0, 300); (1, 100); (2, 1)]
  /\ forall i key n,
       nth_error [(0, 300); (1, 100); (2, 1)] i = Some (key, n) ->
       exists p, nth_error [(0, 2); (1, 3); (2, 1)] i = Some (key, p)
                 /\ Z.min n 2 <= p <= n.
Proof.
  apply (X9_allocation_within_states unit sample_rng_seed
           sample_rng_choice [(0, 300); (1, 100); (2, 1)] 7
           {| interpolation_points := 7 |} (sample_world [42])
           (sample_world [])).
  - exact sample_rng_choice_law.
  - repeat constructor; simpl; intuition discriminate.
  - vm_compute. reflexivity.
Defined.

Lemma total_nonneg (l : list Z) :
  Forall (fun x => 0 <= x) l -> 0 <= total l.
Proof. unfold total. induction 1; cbn; lia. Qed.

Lemma for_rangeM_add {rng S : Type} (body : S -> M rng S) (a b : nat)
      (s : S) (w : world rng) :
  for_rangeM rng body (a + b) s w
  = bindM rng (for_rangeM rng body a s) (for_rangeM rng body b) w.
Proof.
  revert s w. induction a as [|a IH]; intros s w.
  - reflexivity.
  - cbn [for_rangeM Nat.add]. unfold bindM.
    destruct (body s w) as [[s1 w1]|e]; [|reflexivity].
    rewrite IH. reflexivity.
Qed.

Section Exhaust.

Variable rng : Type.
Variable rng_choice : rng -> list Z -> list Z -> Z * rng.
Variable d : Dict.t Z.
Hypothesis Hlaw : choice_law rng_choice.
Hypothesis Hnd : NoDup (Dict.keys d).

Let loop_state : Type := (Dict.t Z * list Z * option Z)%type.

Let body : loop_state -> M rng loop_state :=
  fun st =>
    let points := fst (fst st) in
    let n_states := snd (fst st) in
    bindM rng (np_random_choice rng rng_choice (Dict.keys d) n_states)
      (fun dense_key =>
       bindM rng (lift rng (Dict.get points dense_key))
         (fun p =>
          let points0 := Dict.set points dense_key (p + 1) in
          bindM rng (lift rng (list_index (Dict.keys d) dense_key))
            (fun pos =>
             bindM rng (lift rng (Np.get n_states pos))
               (fun x =>
                bindM rng (lift rng (Np.set n_states pos (x - 1)))
                  (fun n_states0 =>
                   ret rng (points0, n_states0, Some dense_key)))))).

Let good (st : loop_state) : Prop :=
  split_invariant d (fst (fst st)) (snd (fst st))
  /\ match snd st with
     | Some key => exists n, Dict.get d key = Ok n /\ 2 < n
     | None => True
     end.

Lemma loop_exhausts (k : nat) (st : loop_state) (w : world rng) :
  good st ->
  Z.of_nat k = total (snd (fst st)) ->
  exists st' w',
    for_rangeM rng body k st w = Ok (st', w')
    /\ good st' /\ total (snd (fst st')) = 0.
Proof.
  revert st w. induction k as [|k IH]; intros st w Hg Hk.
  - exists st, w. repeat split; try apply Hg. cbn in Hk. lia.
  - destruct (body_progress rng rng_choice d Hlaw Hnd st w Hg)
      as (st1 & w1 & Hb & Hg1 & Hsum & _).
    { fold (total (snd (fst st))). lia. }
    destruct (IH st1 w1 Hg1) as (st' & w' & Hl & Hg' & H0).
    { unfold total. rewrite Hsum. fold (total (snd (fst st))). lia. }
    exists st', w'. split; [|split; assumption].
    cbn [for_rangeM]. unfold bindM at 1.
    change (body st w = Ok (st1, w1)) in Hb. rewrite Hb. exact Hl.
Qed.

Lemma body_exhausted (st : loop_state) (w : world rng) :
  good st -> total (snd (fst st)) = 0 -> body st w = Raise ValueError.
Proof.
  intros Hg H0. unfold body. unfold bindM at 1. unfold np_random_choice.
  destruct (length (Dict.keys d) =? 0)%nat; [reflexivity|].
  fold (total (snd (fst st))). rewrite H0. reflexivity.
Qed.

Lemma loop_overdrawn (k : nat) (st : loop_state) (w : world rng) :
  good st ->
  total (snd (fst st)) < Z.of_nat k ->
  for_rangeM rng body k st w = Raise ValueError.
Proof.
  intros Hg Hk.
  assert (H0 : 0 <= total (snd (fst st))).
  { destruct Hg as [Hinv _]. apply split_invariant_nonneg in Hinv.
    now apply total_nonneg. }
  remember (Z.to_nat (total (snd (fst st)))) as a eqn:Ea.
  assert (Ha : Z.of_nat a = total (snd (fst st))) by lia.
  replace k with (a + S (k - a - 1))%nat by lia.
  rewrite for_rangeM_add. unfold bindM at 1.
  destruct (loop_exhausts a st w Hg Ha) as (st' & w' & Hl & Hg' & Hz).
  rewrite Hl. cbn [for_rangeM]. unfold bindM at 1.
  rewrite (body_exhausted st' w' Hg' Hz). reflexivity.
Qed.

End Exhaust.

(** X10: a budget that leaves more surplus points than the partitions
    have states beyond their first two cannot be placed: once every
    state is taken the weights sum to zero and the next draw fails, so
    the call ends with a ValueError instead of an allocation. *)
Theorem X10_budget_beyond_states_fails
        (rng : Type) (rng_seed : Z -> rng)
        (rng_choice : rng -> list Z -> list Z -> Z * rng)
        (d : Dict.t Z) (period : Z) (opts : options)
        (w : world rng) (seed : Z) (rest : list Z) :
  choice_law rng_choice ->
  NoDup (Dict.keys d) ->
  solution_seed_iteration rng w = seed :: rest ->
  0 <= seed < 2 ^ 32 ->
  total (map (fun n => Z.max (n - 2) 0) (Dict.values d))
  < interpolation_points opts - 2 * Np.len d ->
  _split_interpolation_points_evenly rng rng_seed rng_choice d period opts w
  = Raise ValueError.
Proof.
  intros Hlaw Hnd Hseeds Hseed Hover.
  assert (H0 : 0 <= total (map (fun n => Z.max (n - 2) 0) (Dict.values d))).
  { apply total_nonneg, Forall_forall. intros x Hx.
    apply in_map_iff in Hx as (n & <- & _). lia. }
  unfold _split_interpolation_points_evenly.
  replace (interpolation_points opts - 2 * Np.len d >? 0) with true
    by (symmetry; rewrite Z.gtb_ltb; apply Z.ltb_lt; lia).
  assert (Hk : Dict.keys
                 (map (fun kn : Z * Z =>
                         (fst kn, if snd kn >? 2 then 2 else snd kn)) d)
               = Dict.keys d).
  { unfold Dict.keys. rewrite map_map. reflexivity. }
  rewrite Hk.
  unfold bindM at 1. unfold bindM at 1. unfold next_seed at 1.
  rewrite Hseeds. unfold bindM at 1, np_random_seed at 1.
  replace ((0 <=? seed) && (seed <? 2 ^ 32)) with true
    by (symmetry; apply andb_true_intro; split;
        [apply Z.leb_le | apply Z.ltb_lt]; lia).
  match goal with
  | |- context [for_rangeM rng ?b ?k ?st ?w0] =>
      set (r := for_rangeM rng b k st w0);
      pose proof (loop_overdrawn rng rng_choice d Hlaw Hnd k st w0) as Hl
  end.
  assert (Hr : r = Raise ValueError).
  { apply Hl.
    - split; [apply split_invariant_init | exact I].
    - cbn [fst snd]. lia. }
  rewrite Hr. reflexivity.
Qed.

Lemma X10_budget_beyond_states_fails_witness :
  split_sample [(0, 3); (1, 2)] 7 {| interpolation_points := 6 |}
    (sample_world [42])
  = Raise ValueError.
Proof.
  apply X10_budget_beyond_states_fails with (seed := 42) (rest := []).
  - exact sample_rng_choice_law.
  - repeat constructor; simpl; intuition discriminate.
  - reflexivity.
  - lia.
  - vm_compute. reflexivity.
Defined.

(** X11: with a generator that samples as NumPy's does,
    [_get_not_interpolated_indicator] fails exactly when it is asked for
    a negative number of points, for more points than the partition has
    states, or with a seed outside [0, 2 ** 32); the failure is a
    ValueError, and no other exception leaves the function. *)
Theorem X11_indicator_fails_exactly_on_bad_request
        (rng : Type) (rng_seed : Z -> rng)
        (rng_sample : rng -> Z -> Z -> list Z * rng)
        (p n seed : Z) (w : world rng) :
  sample_law rng_sample ->
  (_get_not_interpolated_indicator rng rng_seed rng_sample p n seed w
   = Raise ValueError <-> ~ valid_request p n seed)
  /\ (forall e,
        _get_not_interpolated_indicator rng rng_seed rng_sample p n seed w
        = Raise e -> e = ValueError).
Proof.
  intros Hlaw.
  assert (Hbad : ~ valid_request p n seed ->
                 _get_not_interpolated_indicator rng rng_seed rng_sample
                   p n seed w = Raise ValueError).
  { intros Hn. unfold _get_not_interpolated_indicator.
    unfold bindM at 1. unfold np_random_seed at 1.
    destruct ((0 <=? seed) && (seed <? 2 ^ 32)) eqn:Es; [|reflexivity].
    apply andb_prop in Es as [E1 E2].
    apply Z.leb_le in E1. apply Z.ltb_lt in E2.
    unfold bindM at 1. unfold np_random_choice_without_replacement at 1.
    cbn [np_random_state].
    destruct (Z.ltb_spec p 0); [reflexivity|].
    destruct ((n <=? 0) && negb (p =? 0)); [reflexivity|].
    destruct (Z.ltb_spec n p); [reflexivity|].
    exfalso. apply Hn. unfold valid_request. lia. }
  assert (Hgood : valid_request p n seed ->
                  forall e,
                    _get_not_interpolated_indicator rng rng_seed rng_sample
                      p n seed w <> Raise e).
  { intros [Hp Hs] e.
    destruct (indicator_marks rng rng_seed rng_sample p n seed w Hlaw Hp Hs)
      as (mask & w' & -> & _). discriminate. }
  assert (Hdec : valid_request p n seed \/ ~ valid_request p n seed).
  { unfold valid_request. lia. }
  split; [split|].
  - intros H Hv. exact (Hgood Hv _ H).
  - exact Hbad.
  - intros e He. destruct Hdec as [Hv|Hn].
    + now elim (Hgood Hv e).
    + rewrite (Hbad Hn) in He. now injection He as <-.
Qed.

Lemma X11_indicator_fails_exactly_on_bad_request_witness :
  (indicator_sample 5 3 0 (sample_world []) = Raise ValueError
   <-> ~ valid_request 5 3 0)
  /\ (forall e,
        indicator_sample 5 3 0 (sample_world []) = Raise e ->
        e = ValueError).
Proof.
  apply (X11_indicator_fails_exactly_on_bad_request unit sample_rng_seed
           sample_rng_sample 5 3 0 (sample_world [])).
  exact sample_rng_sample_law.
Defined.

Lemma mask_assign_values_length (a : list float) (mask : list bool)
      (vals : list float) :
  length (mask_assign_values a mask vals) = length a.
Proof.
  revert mask vals. induction a as [|x a IH]; intros [|[|] mask] vals;
    try reflexivity; cbn [mask_assign_values].
  - destruct vals; cbn [length]; now rewrite IH.
  - cbn [length]. now rewrite IH.
Qed.

(** X12: when [_predict_with_linear_model] returns it returns one value
    per state of the partition, leaves the generator and the seed
    iterator as they were, and issues exactly one warning when a
    regression coefficient is not finite and none otherwise: non-finite
    coefficients do not stop the prediction. *)
Theorem X12_prediction_warns_and_carries_on
        (rng : Type)
        (ols : list float -> list (list float) -> result (list float))
        (np_dot : list (list float) -> list float -> result (list float))
        endogenous exogenous max_value_functions not_interpolated
        (w w' : world rng) predictions :
  _predict_with_linear_model rng ols np_dot endogenous exogenous
    max_value_functions not_interpolated w = Ok (predictions, w') ->
  exists x beta,
    mask_select exogenous not_interpolated = Ok x
    /\ ols endogenous x = Ok beta
    /\ length predictions = length not_interpolated
    /\ np_random_state rng w' = np_random_state rng w
    /\ solution_seed_iteration rng w' = solution_seed_iteration rng w
    /\ warnings rng w'
       = warnings rng w
         ++ (if forallb F64.is_finite beta then [] else [OlsNotFiniteWarning]).
Proof.
  intros H. unfold _predict_with_linear_model in H.
  inv_bindM H. inv_bindM Ha. inv_bindM H. inv_bindM Ha0.
  inv_bindM H. inv_bindM Ha1. inv_bindM H. inv_bindM Ha2.
  inv_bindM H. inv_bindM Ha3. inv_bindM H. inv_bindM Ha4.
  inv_bindM H. inv_bindM Ha5. inv_bindM H. inv_bindM H.
  exists a, a0. split; [assumption|]. split; [assumption|].
  split.
  { destruct (mask_assign_values_of _ _ _ _ Ha5) as [vals' ->].
    rewrite mask_assign_values_length.
    unfold mask_assign in Ha5.
    destruct (length a2 =? length not_interpolated)%nat eqn:E;
      [|discriminate Ha5].
    now apply Nat.eqb_eq in E. }
  destruct (forallb F64.is_finite a0); cbn [negb] in Ha6.
  - inv_bindM Ha6. rewrite app_nil_r. auto.
  - unfold warn in Ha6. injection Ha6 as _ <-. cbn. auto.
Qed.

Lemma X12_prediction_warns_and_carries_on_witness :
  exists x beta,
    mask_select [[F64.of_Z 10]; [F64.zero]] [true; false] = Ok x
    /\ sample_ols [F64.of_Z (10 ^ 308)] x = Ok beta
    /\ length [F64.of_Z (10 ^ 308); F64.nan] = length [true; false]
    /\ tt = tt
    /\ @nil Z = []
    /\ [OlsNotFiniteWarning]
       = [] ++ (if forallb F64.is_finite beta then []
                else [OlsNotFiniteWarning]).
Proof.
  apply (X12_prediction_warns_and_carries_on unit
           sample_ols sample_dot [F64.of_Z (10 ^ 308)]
           [[F64.of_Z 10]; [F64.zero]]
           [RobupySpec.one; RobupySpec.one] [true; false]
           (sample_world [])
           {| np_random_state := tt;
              solution_seed_iteration := [];
              warnings := [OlsNotFiniteWarning] |}).
  vm_compute. reflexivity.
Defined.

Lemma dict_set_fresh {V : Type} (d : Dict.t V) (k : Z) (v : V) :
  ~ In k (Dict.keys d) -> Dict.set d k v = d ++ [(k, v)].
Proof.
  unfold Dict.keys. induction d as [|[k' v'] d IH]; cbn; intros H.
  - reflexivity.
  - destruct (Z.eqb_spec k' k) as [->|_]; [elim H; now left|].
    rewrite IH; [reflexivity|]. intros Hin. apply H. now right.
Qed.

Lemma after_seeds_same {rng : Type} (w : world rng) :
  after_seeds w (solution_seed_iteration rng w) = w.
Proof. now destruct w. Qed.

Lemma seeds_loop {rng : Type} (keys : list Z) :
  forall (acc : Dict.t Z) (w : world rng),
    NoDup (Dict.keys acc ++ keys) ->
    for_eachM rng
      (fun dense_key (seeds : Dict.t Z) =>
         bindM rng (next_seed rng)
               (fun seed => ret rng (Dict.set seeds dense_key seed)))
      keys acc w
    = if (length keys <=? length (solution_seed_iteration rng w))%nat
      then Ok (acc ++ combine keys (solution_seed_iteration rng w),
               after_seeds w (skipn (length keys)
                                    (solution_seed_iteration rng w)))
      else Raise StopIteration.
Proof.
  induction keys as [|k keys IH]; intros acc w Hnd.
  - cbn. rewrite app_nil_r. unfold ret. now rewrite after_seeds_same.
  - cbn [for_eachM]. unfold bindM at 1. unfold bindM at 1.
    unfold next_seed at 1.
    destruct (solution_seed_iteration rng w) as [|s rest] eqn:Es;
      [reflexivity|].
    unfold ret at 1. rewrite IH.
    + cbn [solution_seed_iteration length skipn combine Nat.leb].
      rewrite dict_set_fresh.
      * rewrite <- app_assoc. reflexivity.
      * intros Hin. apply NoDup_remove_2 in Hnd. apply Hnd.
        apply in_or_app. now left.
    + rewrite dict_set_fresh.
      * unfold Dict.keys. rewrite map_app. cbn [map fst].
        rewrite <- app_assoc. exact Hnd.
      * intros Hin. apply NoDup_remove_2 in Hnd. apply Hnd.
        apply in_or_app. now left.
Qed.

(** X13: [_get_seeds_to_create_not_interpolate_indicator] gives the
    i-th dense key the i-th item the seed iterator yields and leaves the
    iterator advanced by one item per key; when the iterator holds fewer
    items than there are keys the call ends with StopIteration.  The
    generator and the warnings are not touched. *)
Theorem X13_seeds_follow_key_order
        (rng : Type) (dense_keys : list Z) (w : world rng) :
  NoDup dense_keys ->
  _get_seeds_to_create_not_interpolate_indicator rng dense_keys w
  = if (length dense_keys <=? length (solution_seed_iteration rng w))%nat
    then Ok (combine dense_keys (solution_seed_iteration rng w),
             after_seeds w (skipn (length dense_keys)
                                  (solution_seed_iteration rng w)))
    else Raise StopIteration.
Proof.
  intros Hnd. unfold _get_seeds_to_create_not_interpolate_indicator.
  now rewrite seeds_loop.
Qed.

Lemma X13_seeds_follow_key_order_witness :
  seeds_sample [4; 9] (sample_world [11; 22; 33])
  = Ok ([(4, 11); (9, 22)], sample_world [33]).
Proof.
  apply (X13_seeds_follow_key_order unit [4; 9]
           (sample_world [11; 22; 33])).
  repeat constructor; simpl; intuition discriminate.
Defined.

Lemma sizes_loop (core : Dict.t (list Z)) (keys : list Z) :
  forall (acc r : Dict.t Z),
    NoDup (Dict.keys acc ++ keys) ->
    for_each (fun dense_key (acc : Dict.t Z) =>
                (core_indices <- Dict.get core dense_key ;;
                 Ok (Dict.set acc dense_key (Np.len core_indices)))%py)
             keys acc = Ok r ->
    r = acc ++ sizes keys core.
Proof.
  induction keys as [|k keys IH]; intros acc r Hnd H.
  - cbn in *. injection H as <-. now rewrite app_nil_r.
  - cbn [for_each] in H. apply PyFacts.bind_ok in H as (acc1 & H1 & H).
    apply PyFacts.bind_ok in H1 as (c & Hc & H1). injection H1 as <-.
    assert (Hk : ~ In k (Dict.keys acc)).
    { intros Hin. apply NoDup_remove_2 in Hnd. apply Hnd.
      apply in_or_app. now left. }
    rewrite (dict_set_fresh _ _ _ Hk) in H.
    apply IH in H.
    + subst r. cbn [sizes map]. rewrite Hc, <- app_assoc. reflexivity.
    + unfold Dict.keys. rewrite map_app. cbn [map fst].
      rewrite <- app_assoc. exact Hnd.
Qed.

(** X14: in [kw_94_interpolation] the seeds of the partitions are taken
    from the iterator before the interpolation points are split: with
    [n] partitions the first [n] items go to the partitions in key
    order, and [_split_interpolation_points_evenly] runs on the number
    of core indices of each key with the iterator advanced by [n], so
    the seed it draws with is item [n + 1]. *)
Theorem X14_partition_seeds_precede_split_seed
        (rng : Type) (rng_seed : Z -> rng)
        (rng_choice : rng -> list Z -> list Z -> Z * rng)
        (choice_set : Type)
        (wages : Dict.t (list (list float)))
        (dense_key_to_core_indices : Dict.t (list Z))
        (dense_key_to_choice_set : Dict.t choice_set)
        (period : Z) (opts : options) (w w' : world rng)
        (seeds interpolation_points : Dict.t Z) :
  NoDup (Dict.keys wages) ->
  kw_94_interpolation_start rng rng_seed rng_choice choice_set wages
    dense_key_to_core_indices dense_key_to_choice_set period opts w
  = Ok ((seeds, interpolation_points), w') ->
  let n := length (Dict.keys wages) in
  seeds = combine (Dict.keys wages) (solution_seed_iteration rng w)
  /\ (n <= length (solution_seed_iteration rng w))%nat
  /\ _split_interpolation_points_evenly rng rng_seed rng_choice
       (sizes (Dict.keys wages) dense_key_to_core_indices) period opts
       (after_seeds w (skipn n (solution_seed_iteration rng w)))
     = Ok (interpolation_points, w').
Proof.
  intros Hnd H n. unfold kw_94_interpolation_start in H.
  inv_bindM H. inv_bindM Ha. inv_bindM H. inv_bindM Ha0.
  inv_bindM H. inv_bindM H.
  apply sizes_loop in Ha; [|exact Hnd]. cbn [app] in Ha. subst a.
  unfold _get_seeds_to_create_not_interpolate_indicator in Ha1.
  rewrite seeds_loop in Ha1 by exact Hnd.
  fold n in Ha1.
  destruct (Nat.leb_spec n (length (solution_seed_iteration rng w)));
    [|discriminate Ha1].
  injection Ha1 as <- <-. unfold ret in H. injection H as <- <- <-.
  auto.
Qed.

Lemma X14_partition_seeds_precede_split_seed_witness :
  [(4, 11); (9, 22)]
  = combine [4; 9]
            (solution_seed_iteration unit (sample_world [11; 22; 33; 44]))
  /\ (2 <= length (solution_seed_iteration unit
                     (sample_world [11; 22; 33; 44]%Z)))%nat
  /\ split_sample (sizes [4; 9] [(4, [0; 1; 2]); (9, [0; 1; 2; 3])]) 7
       {| interpolation_points := 5 |}
       (after_seeds (sample_world [11; 22; 33; 44])
          (skipn 2 (solution_seed_iteration unit
                      (sample_world [11; 22; 33; 44]))))
     = Ok ([(4, 2); (9, 3)], sample_world [44]).
Proof.
  apply (X14_partition_seeds_precede_split_seed unit sample_rng_seed
           sample_rng_choice unit [(4, []); (9, [])]
           [(4, [0; 1; 2]); (9, [0; 1; 2; 3])] [(4, tt); (9, tt)] 7
           {| interpolation_points := 5 |} (sample_world [11; 22; 33; 44])
           (sample_world [44])).
  - repeat constructor; simpl; intuition discriminate.
  - vm_compute. reflexivity.
Defined.

Lemma max_axis1_loop (rows : list (list float)) :
  forall acc out,
    for_each (fun r acc => (m <- Np2.max r ;; Ok (acc ++ [m]))%py) rows acc
    = Ok out ->
    exists ms, out = acc ++ ms
               /\ Forall2 (fun r m => Np2.max r = Ok m) rows ms.
Proof.
  induction rows as [|r rows IH]; intros acc out H.
  - cbn in H. injection H as <-. exists []. now rewrite app_nil_r.
  - cbn [for_each] in H. apply PyFacts.bind_ok in H as (acc1 & H1 & H).
    apply PyFacts.bind_ok in H1 as (m & Hm & H1). injection H1 as <-.
    apply IH in H as (ms & -> & Hall).
    exists (m :: ms). rewrite <- app_assoc. split; [reflexivity|].
    now constructor.
Qed.

Lemma rhs_rows (rows : list (list float)) (ms : list float) :
  Forall2 (fun r m => Np2.max r = Ok m) rows ms ->
  forall i row,
    nth_error rows i = Some row ->
    exists m,
      Np2.max row = Ok m
      /\ nth_error ms i = Some m
      /\ nth_error
           (map (fun e => e ++ map Np2.sqrt e ++ [F64.of_Z 1])
                (map (fun mr : float * list float =>
                        map (fun v => F64.sub (fst mr) v) (snd mr))
                     (combine ms rows))) i
         = Some (covariates m row).
Proof.
  induction 1 as [|r m rows ms Hm Hall IH]; intros [|i] row Hi;
    try discriminate Hi.
  - injection Hi as ->. exists m. now repeat split.
  - cbn in Hi. destruct (IH i row Hi) as (m' & H1 & H2 & H3).
    exists m'. now repeat split.
Qed.

Lemma _compute_rhs_variables_inv
      (calc : list (list float) -> list (list float) -> list (list float) ->
              list float -> float -> result (Np2.array2 * Np2.array2))
      (wages nonpec continuation_values : list (list float))
      (draws : list float) (delta : float)
      (exogenous : Np2.array2) (max_value_functions : list float) :
  _compute_rhs_variables calc wages nonpec continuation_values draws delta
  = Ok (exogenous, max_value_functions) ->
  exists value_functions flow,
    calc wages nonpec continuation_values draws delta
    = Ok (value_functions, flow)
    /\ (0 < Np2.ncols value_functions)%nat
    /\ Np2.ncols exogenous = (2 * Np2.ncols value_functions + 1)%nat
    /\ length (Np2.rows exogenous) = length (Np2.rows value_functions)
    /\ length max_value_functions = length (Np2.rows value_functions)
    /\ forall i row,
         nth_error (Np2.rows value_functions) i = Some row ->
         exists m,
           Np2.max row = Ok m
           /\ nth_error max_value_functions i = Some m
           /\ nth_error (Np2.rows exogenous) i = Some (covariates m row).
Proof.
  intros H. unfold _compute_rhs_variables in H.
  apply PyFacts.bind_ok in H as ([vf flow] & Hc & H).
  apply PyFacts.bind_ok in H as (ms & Hm & H).
  injection H as <- <-. cbn [fst snd] in *.
  exists vf, flow. split; [exact Hc|].
  unfold Np2.max_axis1 in Hm.
  destruct (Np2.ncols vf =? 0)%nat eqn:E; [discriminate Hm|].
  apply Nat.eqb_neq in E.
  apply max_axis1_loop in Hm as (ms' & -> & Hall). cbn [app] in *.
  pose proof (Forall2_length Hall) as Hlen.
  split; [lia|]. split; [cbn; lia|].
  split; [cbn; rewrite !length_map, length_combine; lia|].
  split; [lia|].
  cbn [Np2.rows]. now apply rhs_rows.
Qed.

Lemma maximum_nan (l : list float) (x : float) :
  existsb F64.is_nan (x :: l) = true ->
  fold_left Np2.maximum l x = F64.nan.
Proof.
  revert x. induction l as [|y l IH]; intros x H.
  - cbn in H. destruct x; try discriminate H. reflexivity.
  - cbn [fold_left]. apply IH. cbn [existsb] in *.
    unfold Np2.maximum.
    destruct x; cbn in *; try reflexivity;
      destruct y; cbn in *; try reflexivity; try exact H;
      match goal with
      | |- context [if ?b then _ else _] => destruct b
      end; cbn; exact H.
Qed.

Lemma sqrt_nonneg (x : float) :
  F64Order.nonneg x -> F64Order.nonneg (Np2.sqrt x).
Proof.
  intros H.
  apply F64Facts.nonneg_cases in H as [[s ->]|[->|(m & e & ->)]].
  - apply F64Facts.nonneg_cases. left. now exists s.
  - apply F64Facts.nonneg_cases. now right; left.
  - unfold Np2.sqrt, SFsqrt.
    destruct (SFsqrt_core_binary F64.prec F64.emax (Z.pos m) e)
      as [[mz ez] lz] eqn:E.
    apply F64Facts.binary_round_aux_nonneg.
    unfold SFsqrt_core_binary in E.
    match type of E with
    | (let (q, r) := Z.sqrtrem ?a in _) = _ =>
        pose proof (Z.sqrtrem_spec a) as Hs;
        destruct (Z.sqrtrem a) as [q r]
    end.
    injection E as <- _ _.
    match type of Hs with
    | 0 <= ?a -> _ => assert (Ha : 0 <= a)
    end.
    { destruct (e - 2 * Z.min _ _) as [|p|p]; try lia.
      apply Z.shiftl_nonneg. lia. }
    specialize (Hs Ha). lia.
Qed.

(** Without a NaN, folding [np.maximum] over a row yields an item of the
    row that is greater than or equal to every item. *)
Lemma maximum_upper (l : list float) :
  forall acc,
    F64.is_nan acc = false ->
    Forall (fun v => F64.is_nan v = false) l ->
    F64.leb acc (fold_left Np2.maximum l acc) = true
    /\ Forall (fun v => F64.leb v (fold_left Np2.maximum l acc) = true) l
    /\ (fold_left Np2.maximum l acc = acc
        \/ In (fold_left Np2.maximum l acc) l).
Proof.
  induction l as [|y l IH]; intros acc Ha Hl.
  - cbn. split; [now apply F64Facts.leb_refl|].
    split; [constructor|now left].
  - inversion Hl as [|? ? Hy Hl']; subst. cbn [fold_left].
    assert (Hmax : Np2.maximum acc y = if F64.ltb y acc then acc else y).
    { unfold Np2.maximum. rewrite Ha. reflexivity. }
    rewrite Hmax. clear Hmax.
    destruct (F64.ltb y acc) eqn:E.
    + destruct (IH acc Ha Hl') as (H1 & H2 & H3).
      split; [exact H1|]. split.
      * constructor; [|exact H2].
        eapply F64Facts.leb_trans; [|exact H1].
        now apply F64Facts.ltb_leb.
      * destruct H3 as [->|H3]; [now left|right; now right].
    + destruct (IH y Hy Hl') as (H1 & H2 & H3).
      assert (Hay : F64.leb acc y = true)
        by now apply F64Facts.not_ltb_leb.
      split; [eapply F64Facts.leb_trans; eassumption|]. split.
      * constructor; [exact H1|exact H2].
      * right. destruct H3 as [->|H3]; [now left|now right].
Qed.

(** X15: what [_compute_rhs_variables] returns has one row and one
    maximum per state, and [2 * n_choices + 1] columns; the function
    returns only when there is at least one choice.  The row of a state
    holds the differences between its maximum and each of its value
    functions, then the square roots of these differences, then the
    constant [1.0].  The maximum is NaN when one of the value functions
    is; otherwise it is one of the value functions and greater than or
    equal to each of them.  When all value functions of the state are
    finite, no regressor of the state is negative or NaN. *)
Theorem X15_regressors_of_each_state
        (calc : list (list float) -> list (list float) -> list (list float) ->
                list float -> float -> result (Np2.array2 * Np2.array2))
        (wages nonpec continuation_values : list (list float))
        (draws : list float) (delta : float)
        (exogenous : Np2.array2) (max_value_functions : list float) :
  _compute_rhs_variables calc wages nonpec continuation_values draws delta
  = Ok (exogenous, max_value_functions) ->
  exists value_functions flow,
    calc wages nonpec continuation_values draws delta
    = Ok (value_functions, flow)
    /\ (0 < Np2.ncols value_functions)%nat
    /\ Np2.ncols exogenous = (2 * Np2.ncols value_functions + 1)%nat
    /\ length (Np2.rows exogenous) = length (Np2.rows value_functions)
    /\ length max_value_functions = length (Np2.rows value_functions)
    /\ forall i row,
         nth_error (Np2.rows value_functions) i = Some row ->
         exists m,
           nth_error max_value_functions i = Some m
           /\ nth_error (Np2.rows exogenous) i
              = Some (map (F64.sub m) row
                      ++ map Np2.sqrt (map (F64.sub m) row)
                      ++ [F64.of_Z 1])
           /\ (existsb F64.is_nan row = true -> m = F64.nan)
           /\ (existsb F64.is_nan row = false ->
               In m row /\ Forall (fun v => F64.leb v m = true) row)
           /\ (forallb (fun v => F64.is_finite v && F64.valid v) row = true ->
               Forall (fun x => F64.leb F64.zero x = true)
                      (map (F64.sub m) row
                       ++ map Np2.sqrt (map (F64.sub m) row)
                       ++ [F64.of_Z 1])).
Proof.
  intros H.
  apply _compute_rhs_variables_inv in H
    as (vf & fl & Hc & Hn & Hcols & Hrows & Hmax & Hrow).
  exists vf, fl. repeat (split; [assumption|]).
  intros i row Hi.
  destruct (Hrow i row Hi) as (m & Hm & Hmi & Hei).
  exists m. split; [exact Hmi|]. split; [exact Hei|].
  destruct row as [|x l]; [discriminate Hm|].
  cbn [Np2.max] in Hm. injection Hm as Hm.
  assert (Hord : existsb F64.is_nan (x :: l) = false ->
                 In m (x :: l)
                 /\ Forall (fun v => F64.leb v m = true) (x :: l)).
  { intros Hnan.
    assert (Hnn : Forall (fun v => F64.is_nan v = false) (x :: l)).
    { apply Forall_forall. intros v Hv.
      destruct (F64.is_nan v) eqn:E; [|reflexivity].
      assert (existsb F64.is_nan (x :: l) = true); [|congruence].
      apply existsb_exists. eauto. }
    inversion Hnn as [|? ? Hx Hl]; subst.
    destruct (maximum_upper l x Hx Hl) as (H1 & H2 & H3).
    split.
    - destruct H3 as [->|H3]; [now left|now right].
    - now constructor. }
  split; [|split; [exact Hord|]].
  - intros Hnan. rewrite <- Hm. now apply maximum_nan.
  - intros Hfin. rewrite forallb_forall in Hfin.
    assert (Hnan : existsb F64.is_nan (x :: l) = false).
    { destruct (existsb F64.is_nan (x :: l)) eqn:E; [|reflexivity].
      apply existsb_exists in E as (v & Hv & Hvn).
      specialize (Hfin v Hv). apply andb_prop in Hfin as [Hf _].
      destruct v; discriminate. }
    destruct (Hord Hnan) as [Hin Hle].
    pose proof (Hfin m Hin) as Hfm. apply andb_prop in Hfm as [Fm Vm].
    assert (Hd : Forall F64Order.nonneg (map (F64.sub m) (x :: l))).
    { apply Forall_forall. intros e He.
      apply in_map_iff in He as (v & <- & Hv).
      pose proof (Hfin v Hv) as Hfv. apply andb_prop in Hfv as [Fv Vv].
      apply F64Facts.sub_nonneg; try assumption.
      rewrite Forall_forall in Hle. now apply Hle. }
    apply Forall_app. split; [exact Hd|].
    apply Forall_app. split.
    + apply Forall_forall. intros e He.
      apply in_map_iff in He as (d & <- & Hd').
      apply sqrt_nonneg. rewrite Forall_forall in Hd. now apply Hd.
    + constructor; [reflexivity|constructor].
Qed.

Lemma X15_regressors_of_each_state_witness :
  exists value_functions flow,
    constant_value_functions sample_value_functions [] [] [] [] F64.zero
    = Ok (value_functions, flow)
    /\ (0 < Np2.ncols value_functions)%nat
    /\ Np2.ncols sample_exogenous = (2 * Np2.ncols value_functions + 1)%nat
    /\ length (Np2.rows sample_exogenous)
       = length (Np2.rows value_functions)
    /\ length sample_maxima = length (Np2.rows value_functions)
    /\ forall i row,
         nth_error (Np2.rows value_functions) i = Some row ->
         exists m,
           nth_error sample_maxima i = Some m
           /\ nth_error (Np2.rows sample_exogenous) i
              = Some (map (F64.sub m) row
                      ++ map Np2.sqrt (map (F64.sub m) row)
                      ++ [F64.of_Z 1])
           /\ (existsb F64.is_nan row = true -> m = F64.nan)
           /\ (existsb F64.is_nan row = false ->
               In m row /\ Forall (fun v => F64.leb v m = true) row)
           /\ (forallb (fun v => F64.is_finite v && F64.valid v) row = true ->
               Forall (fun x => F64.leb F64.zero x = true)
                      (map (F64.sub m) row
                       ++ map Np2.sqrt (map (F64.sub m) row)
                       ++ [F64.of_Z 1])).
Proof.
  apply (X15_regressors_of_each_state
           (constant_value_functions sample_value_functions)
           [] [] [] [] F64.zero sample_exogenous sample_maxima).
  vm_compute. reflexivity.
Defined.


(** X16: a single NaN among the value functions of a state makes the
    maximum of that state NaN, and with it every difference and every
    square root of the state's row: only the constant is left. *)
Theorem X16_nan_value_function_spoils_row
        (calc : list (list float) -> list (list float) -> list (list float) ->
                list float -> float -> result (Np2.array2 * Np2.array2))
        (wages nonpec continuation_values : list (list float))
        (draws : list float) (delta : float)
        (exogenous : Np2.array2) (max_value_functions : list float)
        (value_functions flow : Np2.array2) (i : nat) (row : list float) :
  _compute_rhs_variables calc wages nonpec continuation_values draws delta
  = Ok (exogenous, max_value_functions) ->
  calc wages nonpec continuation_values draws delta
  = Ok (value_functions, flow) ->
  nth_error (Np2.rows value_functions) i = Some row ->
  existsb F64.is_nan row = true ->
  nth_error max_value_functions i = Some F64.nan
  /\ nth_error (Np2.rows exogenous) i
     = Some (repeat F64.nan (2 * length row) ++ [F64.of_Z 1]).
Proof.
  intros H Hc Hi Hnan.
  apply _compute_rhs_variables_inv in H
    as (vf & fl & Hc' & _ & _ & _ & _ & Hrows).
  rewrite Hc in Hc'. injection Hc' as <- <-.
  destruct (Hrows i row Hi) as (m & Hm & Hmi & Hei).
  assert (m = F64.nan) as ->.
  { destruct row as [|x row]; [discriminate Hm|].
    cbn [Np2.max] in Hm. injection Hm as <-. now apply maximum_nan. }
  split; [exact Hmi|]. rewrite Hei. unfold covariates.
  assert (He : map (F64.sub F64.nan) row = repeat F64.nan (length row)).
  { clear. induction row as [|v row IH]; [reflexivity|].
    cbn [map length repeat]. now rewrite IH. }
  rewrite He.
  assert (Hs : forall n, map Np2.sqrt (repeat F64.nan n) = repeat F64.nan n).
  { induction n as [|n IH]; [reflexivity|]. cbn [repeat map].
    now rewrite IH. }
  rewrite Hs, app_assoc, <- repeat_app.
  replace (length row + length row)%nat with (2 * length row)%nat by lia.
  reflexivity.
Qed.

Lemma X16_nan_value_function_spoils_row_witness :
  nth_error sample_maxima 1 = Some F64.nan
  /\ nth_error (Np2.rows sample_exogenous) 1
     = Some (repeat F64.nan (2 * length [F64.nan; F64.of_Z 2])
             ++ [F64.of_Z 1]).
Proof.
  apply (X16_nan_value_function_spoils_row
           (constant_value_functions sample_value_functions)
           [] [] [] [] F64.zero sample_exogenous sample_maxima
           sample_value_functions sample_value_functions 1
           [F64.nan; F64.of_Z 2]).
  - vm_compute. reflexivity.
  - reflexivity.
  - reflexivity.
  - reflexivity.
Defined.


(** X17: the value [kw_94_interpolation] records for an anchor state is
    not the simulated expected value function [v] itself:
    [_compute_lhs_variable] subtracts the state's maximum value function
    [m] and [_predict_with_linear_model] adds it back, so the state gets
    [(v - m) + m] in binary64 arithmetic. *)
Theorem X17_anchor_value_is_difference_plus_maximum
        (rng : Type)
        (ols : list float -> list (list float) -> result (list float))
        (np_dot : list (list float) -> list float -> result (list float))
        (calc : list (list float) -> list (list float) -> list (list float) ->
                list (list float) -> float -> result (list float))
        (wages nonpec continuation_values exogenous : list (list float))
        (max_value_functions : list float) (not_interpolated : list bool)
        (draws : list (list float)) (delta : float)
        (endogenous predictions : list float) (w w' : world rng) (i : nat) :
  (forall w n c evf,
      calc w n c draws delta = Ok evf -> length evf = length w) ->
  _compute_lhs_variable calc wages nonpec continuation_values
    max_value_functions not_interpolated draws delta = Ok endogenous ->
  _predict_with_linear_model rng ols np_dot endogenous exogenous
    max_value_functions not_interpolated w = Ok (predictions, w') ->
  nth_error not_interpolated i = Some true ->
  exists ws ns cs evf v m,
    mask_select wages not_interpolated = Ok ws
    /\ mask_select nonpec not_interpolated = Ok ns
    /\ mask_select continuation_values not_interpolated = Ok cs
    /\ calc ws ns cs draws delta = Ok evf
    /\ nth_error evf (rank not_interpolated i) = Some v
    /\ nth_error max_value_functions i = Some m
    /\ nth_error predictions i = Some (F64.add (F64.sub v m) m).
Proof.
  intros Hcalc Hlhs Hpred Hi.
  destruct (_compute_lhs_variable_anchor calc _ _ _ _ _ _ _ _ i
              Hcalc Hlhs Hi)
    as (Hlen & ws & ns & cs & evf & v & m & H1 & H2 & H3 & H4 & H5 & H6 & H7).
  destruct (_predict_with_linear_model_anchor _ _ _ _ _ _ _ _ _ _ i
              Hpred Hlen Hi)
    as (e & m' & He & Hm' & Hp).
  exists ws, ns, cs, evf, v, m.
  repeat (split; [assumption|]).
  congruence.
Qed.

Lemma X17_anchor_value_is_difference_plus_maximum_witness :
  exists ws ns cs evf v m,
    mask_select [[RobupySpec.one]; [RobupySpec.one]] [true; false] = Ok ws
    /\ mask_select [[RobupySpec.one]; [RobupySpec.one]] [true; false]
       = Ok ns
    /\ mask_select [[RobupySpec.one]; [RobupySpec.one]] [true; false]
       = Ok cs
    /\ unit_expected_value_functions ws ns cs [] F64.zero = Ok evf
    /\ nth_error evf (rank [true; false] 0) = Some v
    /\ nth_error [RobupySpec.one; RobupySpec.one] 0 = Some m
    /\ nth_error [RobupySpec.one; RobupySpec.one] 0
       = Some (F64.add (F64.sub v m) m).
Proof.
  apply (X17_anchor_value_is_difference_plus_maximum unit
           sample_ols sample_dot
           unit_expected_value_functions
           [[RobupySpec.one]; [RobupySpec.one]]
           [[RobupySpec.one]; [RobupySpec.one]]
           [[RobupySpec.one]; [RobupySpec.one]]
           [[RobupySpec.one]; [RobupySpec.one]]
           [RobupySpec.one; RobupySpec.one] [true; false] [] F64.zero
           [F64.zero] [RobupySpec.one; RobupySpec.one]
           (sample_world []) (sample_world []) 0).
  - intros w n c evf [= <-]. apply length_map.
  - vm_compute. reflexivity.
  - vm_compute. reflexivity.
  - reflexivity.
Defined.

End RespyDriverProofs.

(** ** Edge cases of the simulator of [robupy] *)

Module RobupyEdgeProofs.

Import Robupy RobupySpec RobupyProofs.

Lemma for_range_add {S : Type} (body : Z -> S -> result S) (a b : nat)
      (i : Z) (s : S) :
  for_range body i (a + b) s
  = Py.bind (for_range body i a s) (for_range body (i + Z.of_nat a) b).
Proof.
  revert i s. induction a as [|a IH]; intros i s.
  - cbn. now rewrite Z.add_0_r.
  - cbn [for_range Nat.add]. destruct (body i s) as [s1|e]; [|reflexivity].
    cbn [Py.bind]. rewrite IH. do 2 f_equal. lia.
Qed.

Lemma get_past_end {A : Type} (a : list A) :
  Np.get a (Np.len a) = Raise IndexError.
Proof.
  unfold Np.get, Np.index, Np.len.
  set (n := Z.of_nat (length a)).
  assert (0 <= n) by (unfold n; lia).
  replace ((0 <=? n) && (n <? n)) with false
    by (symmetry; apply andb_false_iff; right; apply Z.ltb_ge; lia).
  replace ((- n <=? n) && (n <? 0)) with false
    by (symmetry; apply andb_false_iff; right; apply Z.ltb_ge; lia).
  reflexivity.
Qed.

(** X18: [simulate_emax] does not check [num_draws] against the draws
    it is given: when the draws have fewer rows than [num_draws] (each
    row and the systematic rewards having their four items, and the
    continuation values being available), the rows at hand are
    evaluated and the call then fails with an IndexError. *)
Theorem X18_more_draws_than_rows_fails
        (HUGE_FLOAT : float) (num_periods num_draws period k : Z)
        (eps : list (list float)) (sys : list float)
        (edu_max edu_start : Z) (pe : list (list float))
        (sa : list (list (list Z)))
        (msi : list (list (list (list (list Z))))) (delta : float)
        (cont : list float) :
  (4 <= length sys)%nat ->
  Forall (fun row => (4 <= length row)%nat) eps ->
  future_values HUGE_FLOAT period num_periods edu_max edu_start msi pe k sa
  = Ok cont ->
  Np.len eps < num_draws ->
  simulate_emax HUGE_FLOAT num_periods num_draws period k eps sys edu_max
    edu_start pe sa msi delta = Raise IndexError.
Proof.
  intros Hsys Hrows Hcont Hn. unfold simulate_emax.
  replace (Z.to_nat num_draws)
    with (length eps + S (Z.to_nat num_draws - length eps - 1))%nat
    by (unfold Np.len in Hn; lia).
  rewrite for_range_add.
  match goal with
  | |- context [for_range ?b 0 (length eps) ?init] =>
      destruct (simulate_loop HUGE_FLOAT num_periods period k edu_max
                  edu_start eps sys pe sa msi delta cont Hsys Hcont
                  (length eps) 0%nat F64.zero None None)
        as (o1 & o2 & Hloop & _)
  end.
  { lia. }
  { cbn [skipn]. rewrite firstn_all. exact Hrows. }
  cbn [Z.of_nat] in Hloop. rewrite Hloop. cbn [Py.bind for_range].
  change (0 + Z.of_nat (length eps)) with (Np.len eps).
  rewrite get_past_end. reflexivity.
Qed.

Lemma X18_more_draws_than_rows_fails_witness :
  simulate_emax sample_huge 2 2 0 0 [[one; one; F64.zero; F64.zero]]
    [one; one; F64.of_Z 5; one] 10 10 sample_periods_emax
    sample_states_all sample_mapping_state_idx F64.zero
  = Raise IndexError.
Proof.
  apply (X18_more_draws_than_rows_fails sample_huge 2 2 0 0
           [[one; one; F64.zero; F64.zero]] [one; one; F64.of_Z 5; one]
           10 10 sample_periods_emax sample_states_all
           sample_mapping_state_idx F64.zero
           [F64.zero; F64.zero; F64.opp sample_huge; F64.zero]).
  - simpl. lia.
  - repeat constructor.
  - vm_compute. reflexivity.
  - reflexivity.
Defined.

Lemma of_Z_negative (p : positive) :
  F64.of_Z (Z.neg p) = S754_infinity true
  \/ exists m e, F64.of_Z (Z.neg p) = S754_finite true m e.
Proof.
  unfold F64.of_Z. cbn [binary_normalize].
  destruct (F64Facts.binary_round_spec true p 0)
    as (x & ez & Hr & Hx & Hez & Hez1 & Hfexp & Hxv).
  cbv zeta in *.
  set (e1 := fexp F64.prec F64.emax (Z.pos (digits2_pos p) + 0)) in *.
  assert (He1 : -1074 < e1).
  { unfold e1. rewrite F64Facts.fexp_eq.
    pose proof (Pos2Z.is_pos (digits2_pos p)). lia. }
  pose proof (F64Facts.binary_round_aux_spec true x ez Hx) as Haux.
  cbv zeta in Haux. rewrite Hfexp in Haux.
  destruct Haux as (Hq & q' & Hq' & _ & Hcase); [lia|].
  specialize (Hq He1).
  rewrite Hr.
  destruct Hcase as [[Hz _]|(m' & e' & _ & _ & _ & ->)].
  - exfalso. assert (0 < 2 ^ 52) by (apply F64Facts.pow2_pos; lia). lia.
  - destruct (e' <=? F64.emax - F64.prec); [right; now exists m', e'|now left].
Qed.

(** X19: with [num_draws = 0] [simulate_emax] fails with a
    ZeroDivisionError, and with a negative [num_draws] it is not refused:
    no draw is evaluated, no table is read, and the function returns
    [-0.0] as the simulated EMAX next to the two initial values. *)
Theorem X19_no_draw_gives_error_or_negative_zero
        (HUGE_FLOAT : float) (num_periods num_draws period k : Z)
        (eps : list (list float)) (sys : list float)
        (edu_max edu_start : Z) (pe : list (list float))
        (sa : list (list (list Z)))
        (msi : list (list (list (list (list Z))))) (delta : float) :
  - 2 ^ 53 <= num_draws <= 0 ->
  simulate_emax HUGE_FLOAT num_periods num_draws period k eps sys edu_max
    edu_start pe sa msi delta
  = if num_draws =? 0 then Raise ZeroDivisionError
    else Ok (S754_zero true, None, None).
Proof.
  intros Hn. unfold simulate_emax.
  replace (Z.to_nat num_draws) with 0%nat by lia.
  cbn [for_range Py.bind fst snd].
  destruct (Z.eqb_spec num_draws 0) as [|Hz]; [reflexivity|].
  destruct num_draws as [|p|p]; try lia.
  destruct (of_Z_negative p) as [->|(m & e & ->)]; reflexivity.
Qed.

Lemma X19_no_draw_gives_error_or_negative_zero_witness :
  simulate_emax sample_huge 2 (-3) 0 0 [] [] 10 10 [] [] [] F64.zero
  = if -3 =? 0 then Raise ZeroDivisionError
    else Ok (S754_zero true, None, None).
Proof.
  apply X19_no_draw_gives_error_or_negative_zero. lia.
Defined.

(** X20: [_get_future_payoffs] reads the tables of period [period + 1]
    without a check of its own: called for the last period that
    [mapping_state_idx] covers, it fails with an IndexError.  The test
    [period != num_periods - 1] in [get_total_value] is what keeps it
    from being called there. *)
Theorem X20_future_payoffs_past_horizon_fails
        (HUGE_FLOAT : float) (edu_max edu_start : Z)
        (msi : list (list (list (list (list Z)))))
        (period : Z) (pe : list (list float)) (k : Z)
        (sa : list (list (list Z))) (exp_a exp_b edu edu_lagged : Z) :
  Np.get2 sa period k = Ok [exp_a; exp_b; edu; edu_lagged] ->
  Np.len msi = period + 1 ->
  _get_future_payoffs HUGE_FLOAT edu_max edu_start msi period pe k sa
  = Raise IndexError.
Proof.
  intros Hs Hlen. unfold _get_future_payoffs. rewrite Hs.
  cbn [Py.bind]. unfold Np.get5 at 1. rewrite <- Hlen, get_past_end.
  reflexivity.
Qed.

Lemma X20_future_payoffs_past_horizon_fails_witness :
  _get_future_payoffs sample_huge 10 10 sample_mapping_state_idx 1
    sample_periods_emax 0 sample_states_all
  = Raise IndexError.
Proof.
  apply (X20_future_payoffs_past_horizon_fails sample_huge 10 10
           sample_mapping_state_idx 1 sample_periods_emax 0
           sample_states_all 0 0 0 0).
  - reflexivity.
  - reflexivity.
Defined.

End RobupyEdgeProofs.
